(** * memAI: adaptive context budgets, token estimation and conversation trimming

    A shallow embedding of the memory core of memAI:

    - [token_counter.py]           (module [TokenCounter])
    - [adaptive_budget_manager.py] (module [AdaptiveBudget])
    - [unified_memory_manager.py]  (module [Unified])
    - [memai.py]                   (module [Memai])

    Python [str] values are lists of Unicode code points.  Python [float]
    arithmetic is written once, over the interface [PyFloat], and read in two
    ways: [Binary64] is IEEE-754 double precision (Rocq's primitive floats,
    the arithmetic CPython runs), in which the functions are evaluated on
    concrete inputs and the statements about every window and query are
    proved with bounds on the roundings; [Exact] is arithmetic over the real
    numbers, where the allocation formulas hold as algebraic identities.
    Python exceptions are values of [result]. *)

From Stdlib Require Import ZArith String Ascii Bool Lia List.
From Stdlib Require Import Reals Lra Zfloor.
From Stdlib Require Import Floats.
Import ListNotations.

Set Implicit Arguments.

(* ================================================================== *)
(** * Python strings *)
(* ================================================================== *)

Module PyStr.

(** A [str] is the sequence of its code points ([ord] of each character). *)
Definition str := list N.

Definition of_string (s : string) : str :=
  map N_of_ascii (list_ascii_of_string s).

Definition len (s : str) : Z := Z.of_nat (length s).

(** ["abc" * n] *)
Definition repeat_str (s : str) (n : nat) : str := concat (repeat s n).

Definition in_range (lo hi c : N) : bool := (lo <=? c)%N && (c <=? hi)%N.

(** [str.isspace] on one character, which is also the class [\s] of [re]
    for [str] patterns. *)
Definition isspace (c : N) : bool :=
  in_range 9 13 c || in_range 28 32 c || (c =? 133)%N || (c =? 160)%N
  || (c =? 5760)%N || in_range 8192 8202 c || in_range 8232 8233 c
  || (c =? 8239)%N || (c =? 8287)%N || (c =? 12288)%N.

(** The class [\w] of [re], on ASCII: letters, digits and the underscore.
    (Letters and digits beyond ASCII are not tabulated.) *)
Definition isword (c : N) : bool :=
  in_range 48 57 c || in_range 65 90 c || in_range 97 122 c || (c =? 95)%N.

(** [str.lower] on one character: the ASCII capitals are mapped, other
    characters are left as they are. *)
Definition lower_char (c : N) : N :=
  if in_range 65 90 c then (c + 32)%N else c.

Definition lower (s : str) : str := map lower_char s.

Fixpoint lstrip (s : str) : str :=
  match s with
  | c :: s' => if isspace c then lstrip s' else s
  | [] => []
  end.

(** [str.strip()] *)
Definition strip (s : str) : str := rev (lstrip (rev (lstrip s))).

Fixpoint eqb (a b : str) : bool :=
  match a, b with
  | [], [] => true
  | x :: a', y :: b' => (x =? y)%N && eqb a' b'
  | _, _ => false
  end.

(** [s.startswith(p)] *)
Fixpoint startswith (p s : str) : bool :=
  match p, s with
  | [], _ => true
  | x :: p', y :: s' => (x =? y)%N && startswith p' s'
  | _ :: _, [] => false
  end.

(** [len(re.findall(pattern, s))] for a pattern that never matches the empty
    string: [m] gives the length of the match that starts at the head of its
    argument, if there is one.  The scan goes left to right; after a match it
    resumes behind it ([skip] counts the characters still covered by the
    last match). *)
Fixpoint findall_from (skip : nat) (m : str -> option nat) (s : str) : nat :=
  match s with
  | [] => 0
  | _ :: s' =>
      match skip with
      | S k => findall_from k m s'
      | O =>
          match m s with
          | Some n => S (findall_from (Nat.pred n) m s')
          | None => findall_from 0 m s'
          end
      end
  end.

Definition findall (m : str -> option nat) (s : str) : nat :=
  findall_from 0 m s.

Definition match_literal (p : str) (s : str) : option nat :=
  if startswith p s then Some (length p) else None.

(** [s.count(sub)] for a non-empty [sub]: non-overlapping occurrences. *)
Definition count (sub s : str) : nat := findall (match_literal sub) s.

(** [sub in s] *)
Fixpoint contains (sub s : str) : bool :=
  startswith sub s ||
  match s with
  | [] => false
  | _ :: s' => contains sub s'
  end.

(** Length of the longest prefix whose characters satisfy [p]. *)
Fixpoint span_len (p : N -> bool) (s : str) : nat :=
  match s with
  | c :: s' => if p c then S (span_len p s') else 0
  | [] => 0
  end.

(** Index of the first occurrence of [sub] in [s]. *)
Fixpoint find (sub s : str) : option nat :=
  if startswith sub s then Some 0%nat
  else match s with
       | [] => None
       | _ :: s' => option_map S (find sub s')
       end.

(** [s.split()]: the maximal runs of non-whitespace characters.  [cur] is
    the word being read, reversed. *)
Fixpoint split_from (cur : str) (s : str) : list str :=
  match s with
  | [] => match cur with [] => [] | _ => [rev cur] end
  | c :: s' =>
      if isspace c
      then match cur with
           | [] => split_from [] s'
           | _ => rev cur :: split_from [] s'
           end
      else split_from (c :: cur) s'
  end.

Definition split (s : str) : list str := split_from [] s.

End PyStr.

Import PyStr.

(* ================================================================== *)
(** * Python exceptions *)
(* ================================================================== *)

Inductive exn : Set :=
| ZeroDivisionError
| OverflowError
| MemoryError.

Inductive result (A : Type) : Type :=
| Ok (a : A)
| Raise (e : exn).

Arguments Ok {A} a.
Arguments Raise {A} e.

Definition bind {A B : Type} (c : result A) (k : A -> result B) : result B :=
  match c with
  | Ok a => k a
  | Raise e => Raise e
  end.

Notation "x <- c ;; k" := (bind c (fun x => k))
  (at level 61, c at next level, right associativity).

(* ================================================================== *)
(** * Python floats *)
(* ================================================================== *)

(** The operations of [float] the program uses.  [of_int] is the conversion
    of an [int] operand, [to_int] is [int(x)] (truncation toward zero) on a
    finite [x], and [is_finite] tells whether [int(x)] is defined. *)
Class PyFloat (F : Type) : Type := {
  of_int : Z -> F;
  fadd : F -> F -> F;
  fsub : F -> F -> F;
  fmul : F -> F -> F;
  fdiv : F -> F -> F;
  fsqrt : F -> F;
  feqb : F -> F -> bool;
  fltb : F -> F -> bool;
  fleb : F -> F -> bool;
  is_finite : F -> bool;
  to_int : F -> Z
}.

Arguments of_int {F FA} _ : rename.
Arguments fadd {F FA} _ _ : rename.
Arguments fsub {F FA} _ _ : rename.
Arguments fmul {F FA} _ _ : rename.
Arguments fdiv {F FA} _ _ : rename.
Arguments fsqrt {F FA} _ : rename.
Arguments feqb {F FA} _ _ : rename.
Arguments fltb {F FA} _ _ : rename.
Arguments fleb {F FA} _ _ : rename.
Arguments is_finite {F FA} _ : rename.
Arguments to_int {F FA} _ : rename.

Declare Scope py_scope.
Delimit Scope py_scope with py.
Notation "x + y" := (fadd x y) : py_scope.
Notation "x - y" := (fsub x y) : py_scope.
Notation "x * y" := (fmul x y) : py_scope.
Notation "x / y" := (fdiv x y) : py_scope.
Notation "x =? y" := (feqb x y) : py_scope.
Notation "x <? y" := (fltb x y) : py_scope.
Notation "x <=? y" := (fleb x y) : py_scope.

Section PyFloatOps.
Context {F : Type} {FA : PyFloat F}.

(** The decimal literal [n / 10^k], for instance [dec 25 2] for [0.25]:
    the quotient of two exactly represented integers is the float nearest to
    the decimal, which is what the literal denotes. *)
Definition dec (n : Z) (k : nat) : F := (of_int n / of_int (10 ^ Z.of_nat k))%py.

(** [max(a, b)] and [min(a, b)]: the first argument is kept unless the
    second is strictly better. *)
Definition pymax (a b : F) : F := if (a <? b)%py then b else a.
Definition pymin (a b : F) : F := if (b <? a)%py then b else a.

(** [a / b] with a divisor that is computed at run time. *)
Definition py_div (a b : F) : result F :=
  if (b =? of_int 0)%py then Raise ZeroDivisionError else Ok (a / b)%py.

(** [int(x)] *)
Definition py_int (x : F) : result Z :=
  if is_finite x then Ok (to_int x) else Raise OverflowError.

End PyFloatOps.

(** ** Real-number arithmetic *)

Definition Reqb (x y : R) : bool := if Req_dec_T x y then true else false.
Definition Rltb (x y : R) : bool := if Rlt_dec x y then true else false.
Definition Rleb (x y : R) : bool := if Rle_dec x y then true else false.

Definition Rtrunc (x : R) : Z :=
  if Rlt_dec x 0 then Zceil x else Zfloor x.

#[export] Instance Exact : PyFloat R := {
  of_int := IZR;
  fadd := Rplus;
  fsub := Rminus;
  fmul := Rmult;
  fdiv := Rdiv;
  fsqrt := R_sqrt.sqrt;
  feqb := Reqb;
  fltb := Rltb;
  fleb := Rleb;
  is_finite := fun _ => true;
  to_int := Rtrunc
}.

(** ** IEEE-754 binary64 *)

(** [float(n)]: the nearest double, ties to even.  (An [int] beyond the
    range of doubles gives an infinity here, and [int(...)] of the result
    raises [OverflowError]; CPython raises the same exception at the
    conversion itself.) *)
Definition float_of_Z (n : Z) : float :=
  SF2Prim (binary_normalize prec emax n 0 false).

Definition float_is_finite (x : float) : bool :=
  negb (PrimFloat.is_nan x || PrimFloat.is_infinity x).

Definition float_trunc (x : float) : Z :=
  match Prim2SF x with
  | S754_finite s m e => cond_Zopp s (Z.shiftl (Z.pos m) e)
  | _ => 0%Z
  end.

#[export] Instance Binary64 : PyFloat float := {
  of_int := float_of_Z;
  fadd := PrimFloat.add;
  fsub := PrimFloat.sub;
  fmul := PrimFloat.mul;
  fdiv := PrimFloat.div;
  fsqrt := PrimFloat.sqrt;
  feqb := PrimFloat.eqb;
  fltb := PrimFloat.ltb;
  fleb := PrimFloat.leb;
  is_finite := float_is_finite;
  to_int := float_trunc
}.

(** ** The value of a double

    The statements about [Binary64] read a double as the real number it
    denotes.  [SF2R] is the value of a zero or of a finite number
    [(-1)^s * m * 2^e]; the rounding of an operation is off by at most
    [eta + eps * x], which [delta] bounds on both counts. *)

(** The exponent of the format: 53 bits of precision, smallest exponent
    [-1074]. *)
Definition fexp64 (e : Z) : Z := Z.max (e - 53) (-1074).

Definition pow2 (e : Z) : R := powerRZ 2 e.

(** The value of a number that is zero or finite. *)
Definition SF2R (f : spec_float) : R :=
  match f with
  | S754_finite s m e => ((if s then -1 else 1) * (IZR (Z.pos m) * pow2 e))%R
  | _ => 0%R
  end.

(** Not a NaN and not negative: a zero, a positive number or [+infinity]. *)
Definition SF_nn (f : spec_float) : Prop :=
  match f with
  | S754_zero _ | S754_finite false _ _ | S754_infinity false => True
  | _ => False
  end.

(** A zero or a positive number. *)
Definition SF_fin (f : spec_float) : Prop :=
  match f with
  | S754_zero _ | S754_finite false _ _ => True
  | _ => False
  end.

Definition eps : R := pow2 (-52).
Definition eta : R := pow2 (-1074).

Definition nn (x : float) : Prop := SF_nn (Prim2SF x).
Definition fin (x : float) : Prop := SF_fin (Prim2SF x).
Definition val (x : float) : R := SF2R (Prim2SF x).

(** [x] is zero or positive and its value lies in [[lo, hi]]. *)
Definition bnd (lo hi : R) (x : float) : Prop :=
  fin x /\ (lo <= val x <= hi)%R.

(** A bound on the relative and on the absolute rounding error. *)
Definition delta : R := (/ 1000000000000000)%R.

(** The window, rounded up and down through the two roundings of a bucket. *)
Definition window_above (W : Z) : R := (IZR W * (1 + delta) + delta) * (1 + delta).
Definition window_below (W : Z) : R := (IZR W * (1 - delta) - delta) * (1 - delta).


(* ================================================================== *)
(** * Conversation data *)
(* ================================================================== *)

(** One side of a stored exchange: the dictionary
    [{"content": ..., "tokens": ...}], either key possibly absent. *)
Record part : Type := {
  content : option str;
  tokens : option Z
}.

(** The dictionaries the memory managers pass around in lists: a stored
    exchange ([timestamp], and the keys [user] and [assistant] when present),
    or a chat message [{"role": ..., "content": ...}]. *)
Inductive entry : Type :=
| Exchange (timestamp : string) (user assistant : option part)
| Message (role : string) (text : str).

(** A value per bucket: percentages of the window, or tokens. *)
Record buckets (A : Type) : Type := {
  system_prompt : A;
  tool_definitions : A;
  conversation_memory : A;
  response_generation : A;
  safety_margin : A;
  reserved : A
}.

(** The allocation [calculate_adaptive_budgets] returns. *)
Definition budgets : Type := buckets Z.

(** [sum(budgets.values())] *)
Definition total_allocated (b : budgets) : Z :=
  system_prompt b + tool_definitions b + conversation_memory b
  + response_generation b + safety_margin b + reserved b.

(* ================================================================== *)
(** * token_counter.py *)
(* ================================================================== *)

Module TokenCounter.
Section WithFloat.
Context {F : Type} {FA : PyFloat F}.

(** [SimpleTokenCounter]: its two constructor arguments. *)
Record counter : Type := {
  base_ratio : F;
  safety_multiplier : F
}.

(** [SimpleTokenCounter()] *)
Definition default_counter : counter :=
  {| base_ratio := of_int 3; safety_multiplier := dec 12 1 |}.

(** [emoji_pattern] *)
Definition is_emoji (c : N) : bool :=
  in_range 0x1F600 0x1F64F c || in_range 0x1F300 0x1F5FF c
  || in_range 0x1F680 0x1F6FF c || in_range 0x1F1E0 0x1F1FF c
  || in_range 0x2700 0x27BF c || in_range 0x1F900 0x1F9FF c
  || in_range 0x1F018 0x1F270 c.

(** [symbol_pattern]: the characters of the class; the double quote is
    code point 34. *)
Definition symbol_chars : str :=
  34%N :: of_string "(){}[]<>=!@#$%^&*+-_|\:;',./`~".

Definition is_symbol (c : N) : bool := existsb (N.eqb c) symbol_chars.

Definition count_chars (p : N -> bool) (text : str) : Z :=
  Z.of_nat (length (filter p text)).

(** [sum(len(word) - 20 for word in words if len(word) > 20)] *)
Definition long_word_chars (words : list str) : Z :=
  fold_left (fun acc word => if (20 <? len word)%Z then acc + (len word - 20) else acc)%Z
            words 0%Z.

Definition estimate_tokens (tc : counter) (text : str) : Z :=
  match text with
  | [] => 0
  | _ =>
      let base_estimate := pymax (of_int 1) (of_int (len text) / base_ratio tc)%py in
      let emoji_count := count_chars is_emoji text in
      let symbol_count := count_chars is_symbol text in
      let non_ascii_count := count_chars (fun c => (127 <? c)%N) text in
      let words := split text in
      let long_word_penalty :=
        (of_int (Z.max 0 (long_word_chars words)) / of_int 10)%py in
      let emoji_adjustment := (emoji_count * 2)%Z in
      let symbol_adjustment := (of_int symbol_count * dec 3 1)%py in
      let unicode_adjustment :=
        (of_int (non_ascii_count - emoji_count) * dec 5 1)%py in
      let adjusted_estimate :=
        (base_estimate + of_int emoji_adjustment + symbol_adjustment
         + unicode_adjustment + long_word_penalty)%py in
      let final_estimate := to_int (adjusted_estimate * safety_multiplier tc)%py in
      Z.max 1 final_estimate
  end.

Definition estimate_part (tc : counter) (p : option part) : Z :=
  match p with
  | Some {| content := Some c |} => estimate_tokens tc c
  | _ => 0
  end.

(** A dictionary with a [content] key counts as a message; one with both
    [user] and [assistant] as an exchange; anything else counts nothing. *)
Definition estimate_conversation_tokens (tc : counter) (conversation : list entry) : Z :=
  fold_left
    (fun total_tokens message =>
       match message with
       | Message _ c => total_tokens + estimate_tokens tc c
       | Exchange _ (Some u) (Some a) =>
           total_tokens + estimate_part tc (Some u) + estimate_part tc (Some a)
       | Exchange _ _ _ => total_tokens
       end)%Z
    conversation 0%Z.

End WithFloat.
End TokenCounter.

(* ================================================================== *)
(** * adaptive_budget_manager.py *)
(* ================================================================== *)

Module AdaptiveBudget.

Inductive InteractionMode : Set := TOOLS | CHAT.

(** [InteractionMode(mode.lower())], with [CHAT] when that raises
    [ValueError]. *)
Definition interaction_mode_of (mode : str) : InteractionMode :=
  if PyStr.eqb (lower mode) (of_string "tools") then TOOLS else CHAT.

Section WithFloat.
Context {F : Type} {FA : PyFloat F}.

(** ** ComplexityFactors *)

Definition ANALYSIS_KEYWORDS : list (str * F) :=
  [ (of_string "analyze", dec 20 1); (of_string "explain", dec 15 1);
    (of_string "compare", dec 20 1); (of_string "evaluate", dec 25 1);
    (of_string "implement", dec 30 1); (of_string "create", dec 20 1);
    (of_string "design", dec 25 1); (of_string "develop", dec 25 1);
    (of_string "optimize", dec 25 1); (of_string "debug", dec 20 1);
    (of_string "refactor", dec 20 1); (of_string "review", dec 15 1);
    (of_string "summarize", dec 15 1); (of_string "research", dec 20 1);
    (of_string "investigate", dec 20 1) ].

Definition QUESTION_INDICATORS : list (str * F) :=
  [ (of_string "how", dec 10 1); (of_string "what", dec 5 1);
    (of_string "why", dec 15 1); (of_string "when", dec 5 1);
    (of_string "where", dec 5 1); (of_string "which", dec 8 1);
    (of_string "who", dec 3 1); (of_string "can you", dec 12 1);
    (of_string "could you", dec 12 1); (of_string "explain how", dec 20 1);
    (of_string "show me", dec 15 1); (of_string "help me", dec 18 1) ].

Definition SHORT_QUERY : Z := 50.
Definition MEDIUM_QUERY : Z := 150.
Definition LONG_QUERY : Z := 300.

(** ** CODE_PATTERNS, each as the matcher of its regular expression *)

Definition backtick : N := 96.

(** Three backticks, anything (as little as possible), three backticks. *)
Definition match_code_block (s : str) : option nat :=
  let fence := [backtick; backtick; backtick] in
  if startswith fence s
  then option_map (fun j => (3 + j + 3)%nat) (find fence (skipn 3 s))
  else None.

(** A character, one or more characters of the class [p], and the
    character [close]. *)
Definition match_delimited (open : N) (p : N -> bool) (close : N) (s : str)
  : option nat :=
  match s with
  | c :: rest =>
      let n := span_len p rest in
      if (c =? open)%N && (1 <=? n)%nat
         && match nth_error rest n with
            | Some d => (d =? close)%N
            | None => false
            end
      then Some (n + 2)%nat
      else None
  | [] => None
  end.

(** A backtick, one or more other characters, a backtick. *)
Definition match_inline_code : str -> option nat :=
  match_delimited backtick (fun c => negb (c =? backtick)%N) backtick.

(** [<], one or more word characters or slashes, [>]. *)
Definition match_tag : str -> option nat :=
  match_delimited 60 (fun c => isword c || (c =? 47)%N) 62.

(** A keyword in any letter case, white space, a word
    (for instance [def\s+\w+] under [re.IGNORECASE]). *)
Definition match_keyword_word (kw : str) (s : str) : option nat :=
  let rest := skipn (length kw) s in
  let ws := span_len isspace rest in
  let w := span_len isword (skipn ws rest) in
  if startswith kw (lower (firstn (length kw) s)) && (1 <=? ws)%nat && (1 <=? w)%nat
  then Some (length kw + ws + w)%nat
  else None.

(** The patterns in the order of the list, each with whether its text
    starts with three backticks. *)
Definition CODE_PATTERNS : list ((str -> option nat) * bool) :=
  [ (match_code_block, true);
    (match_inline_code, false);
    (match_keyword_word (of_string "def"), false);
    (match_keyword_word (of_string "class"), false);
    (match_keyword_word (of_string "import"), false);
    (match_tag, false) ].

(** ** AdaptiveBudgetManager *)

Record ranges : Type := {
  response_min : F;
  response_max : F;
  memory_min : F;
  memory_max : F
}.

Definition base_budgets (m : InteractionMode) : buckets F :=
  match m with
  | TOOLS =>
      {| system_prompt := dec 30 1; tool_definitions := dec 60 1;
         conversation_memory := dec 500 1; response_generation := dec 160 1;
         safety_margin := dec 50 1; reserved := dec 0 1 |}
  | CHAT =>
      {| system_prompt := dec 6 1; tool_definitions := dec 0 1;
         conversation_memory := dec 420 1; response_generation := dec 120 1;
         safety_margin := dec 50 1; reserved := dec 4 1 |}
  end.

Definition adaptive_ranges (m : InteractionMode) : ranges :=
  match m with
  | TOOLS =>
      {| response_min := dec 160 1; response_max := dec 260 1;
         memory_min := dec 450 1; memory_max := dec 550 1 |}
  | CHAT =>
      {| response_min := dec 120 1; response_max := dec 220 1;
         memory_min := dec 380 1; memory_max := dec 500 1 |}
  end.

Definition _calculate_length_complexity (length : Z) : F :=
  if (length <=? SHORT_QUERY)%Z then dec 1 1
  else if (length <=? MEDIUM_QUERY)%Z then dec 3 1
  else if (length <=? LONG_QUERY)%Z then dec 6 1
  else
    let excess := (length - LONG_QUERY)%Z in
    pymin (dec 9 1) (dec 6 1 + (of_int excess / of_int 1000) * dec 3 1)%py.

(** The loop over [ANALYSIS_KEYWORDS]: the pair
    [(keyword_weights, keyword_count)]. *)
Definition keyword_totals (text : str) : F * Z :=
  fold_left
    (fun '(keyword_weights, keyword_count) '(keyword, weight) =>
       let count := Z.of_nat (PyStr.count keyword text) in
       if (0 <? count)%Z
       then
         let effective_count := fsqrt (of_int count) in
         ((keyword_weights + weight * effective_count)%py,
          (keyword_count + count)%Z)
       else (keyword_weights, keyword_count))
    ANALYSIS_KEYWORDS (dec 0 1, 0%Z).

Definition _calculate_keyword_complexity (text : str) (text_length : Z)
  : result F :=
  let '(keyword_weights, keyword_count) := keyword_totals text in
  if (keyword_weights =? of_int 0)%py then Ok (dec 0 1)
  else
    density <- py_div (of_int keyword_count)
                      (pymax (of_int 1) (of_int text_length / of_int 10)%py) ;;
    let keyword_weights :=
      if (dec 3 1 <? density)%py then (keyword_weights * dec 5 1)%py
      else keyword_weights in
    Ok (pymin (dec 10 1) (keyword_weights / dec 100 1)%py).

Definition _calculate_code_complexity (text : str) : F :=
  let code_score :=
    fold_left
      (fun code_score '(pattern, is_block) =>
         let matches := Z.of_nat (findall pattern text) in
         if (0 <? matches)%Z
         then if is_block : bool
              then (code_score + of_int matches * dec 5 1)%py
              else (code_score + of_int matches * dec 1 1)%py
         else code_score)
      CODE_PATTERNS (dec 0 1) in
  pymin (dec 10 1) code_score.

Definition question_words : list str :=
  [ of_string "?"; of_string "how"; of_string "what"; of_string "why";
    of_string "when"; of_string "where"; of_string "which" ].

Definition _calculate_question_complexity (text : str) : F :=
  let question_score :=
    fold_left
      (fun question_score '(indicator, weight) =>
         if contains indicator text then (question_score + weight)%py
         else question_score)
      QUESTION_INDICATORS (dec 0 1) in
  let question_count :=
    Z.of_nat (length (filter (fun word => contains word text) question_words)) in
  let question_score :=
    if (1 <? question_count)%Z then (question_score * dec 12 1)%py
    else question_score in
  pymin (dec 10 1) (question_score / dec 50 1)%py.

Definition analyze_complexity (user_input mode : str) : result F :=
  match user_input with
  | [] => Ok (dec 1 1)
  | _ =>
      let text := lower (strip user_input) in
      let text_length := len text in
      if (text_length =? 0)%Z then Ok (dec 1 1)
      else
        let complexity_score := dec 0 1 in
        let length_score := _calculate_length_complexity text_length in
        let complexity_score := (complexity_score + length_score * dec 25 2)%py in
        keyword_score <- _calculate_keyword_complexity text text_length ;;
        let complexity_score := (complexity_score + keyword_score * dec 30 2)%py in
        let code_score := _calculate_code_complexity user_input in
        let complexity_score := (complexity_score + code_score * dec 25 2)%py in
        let question_score := _calculate_question_complexity text in
        let complexity_score := (complexity_score + question_score * dec 20 2)%py in
        let complexity_score :=
          if PyStr.eqb mode (of_string "tools")
          then (complexity_score * dec 12 1)%py
          else complexity_score in
        Ok (pymax (dec 0 1) (pymin (dec 10 1) complexity_score))
  end.

(** The percentages after the adaptive allocation: [base_budgets] with
    [response_generation] and [conversation_memory] replaced. *)
Definition adaptive_percentages (m : InteractionMode) (complexity : F)
  : result (buckets F) :=
  let base := base_budgets m in
  let r := adaptive_ranges m in
  let response_range := (response_max r - response_min r)%py in
  let adaptive_response := (response_min r + complexity * response_range)%py in
  let memory_range := (memory_max r - memory_min r)%py in
  ratio <- py_div response_range (adaptive_response - response_min r)%py ;;
  scaled <- py_div memory_range ratio ;;
  let memory_reduction := (complexity * scaled)%py in
  let adaptive_memory := (memory_max r - memory_reduction)%py in
  Ok {| system_prompt := system_prompt base;
        tool_definitions := tool_definitions base;
        conversation_memory := adaptive_memory;
        response_generation := adaptive_response;
        safety_margin := safety_margin base;
        reserved := reserved base |}.

(** [int(context_window * (percentage / 100.0))] *)
Definition to_tokens (context_window : Z) (percentage : F) : result Z :=
  py_int (of_int context_window * (percentage / dec 1000 1))%py.

Definition absolute_budgets (context_window : Z) (p : buckets F)
  : result budgets :=
  sp <- to_tokens context_window (system_prompt p) ;;
  td <- to_tokens context_window (tool_definitions p) ;;
  cm <- to_tokens context_window (conversation_memory p) ;;
  rg <- to_tokens context_window (response_generation p) ;;
  sm <- to_tokens context_window (safety_margin p) ;;
  rs <- to_tokens context_window (reserved p) ;;
  Ok {| system_prompt := sp; tool_definitions := td;
        conversation_memory := cm; response_generation := rg;
        safety_margin := sm; reserved := rs |}.

(** The allocation before the minimum memory requirement is looked at. *)
Definition initial_budgets (context_window : Z) (mode user_input : str)
  : result budgets :=
  let interaction_mode := interaction_mode_of mode in
  complexity <- analyze_complexity user_input mode ;;
  percentages <- adaptive_percentages interaction_mode complexity ;;
  absolute_budgets context_window percentages.

(** "Validate minimum memory requirement" *)
Definition enforce_minimum_memory (context_window minimum_memory_needed : Z)
  (b : budgets) : result budgets :=
  if (conversation_memory b <? minimum_memory_needed)%Z then
    let shortage := (minimum_memory_needed - conversation_memory b)%Z in
    let available_reserved := reserved b in
    if (shortage <=? available_reserved)%Z then
      Ok {| system_prompt := system_prompt b;
            tool_definitions := tool_definitions b;
            conversation_memory := minimum_memory_needed;
            response_generation := response_generation b;
            safety_margin := safety_margin b;
            reserved := (reserved b - shortage)%Z |}
    else
      two_percent <- py_int (of_int context_window * dec 2 2)%py ;;
      let remaining_shortage := (shortage - available_reserved)%Z in
      ten_percent <- py_int (of_int context_window * dec 10 2)%py ;;
      Ok {| system_prompt := system_prompt b;
            tool_definitions := tool_definitions b;
            conversation_memory := minimum_memory_needed;
            response_generation :=
              Z.max ten_percent (response_generation b - remaining_shortage);
            safety_margin := safety_margin b;
            reserved := Z.max two_percent 0 |}
  else Ok b.

Definition calculate_adaptive_budgets (context_window : Z) (mode user_input : str)
  (minimum_memory_needed : Z) : result budgets :=
  b <- initial_budgets context_window mode user_input ;;
  enforce_minimum_memory context_window minimum_memory_needed b.

End WithFloat.
End AdaptiveBudget.

(* ================================================================== *)
(** * unified_memory_manager.py *)
(* ================================================================== *)

Module Unified.
Section WithFloat.
Context {F : Type} {FA : PyFloat F}.

(** [self.token_counter = SimpleTokenCounter()] *)
Definition token_counter : TokenCounter.counter := TokenCounter.default_counter.

(** One side of [_estimate_exchange_tokens]: the stored [tokens] when the
    key is there, else an estimate of [content], else nothing. *)
Definition side_tokens (p : option part) : Z :=
  match p with
  | Some d =>
      match tokens d with
      | Some t => t
      | None =>
          match content d with
          | Some c => TokenCounter.estimate_tokens token_counter c
          | None => 0
          end
      end
  | None => 0
  end.

(** A dictionary without the keys [user] and [assistant] (a chat message,
    for one) adds nothing. *)
Definition _estimate_exchange_tokens (exchange : entry) : Z :=
  match exchange with
  | Exchange _ u a => side_tokens u + side_tokens a
  | Message _ _ => 0
  end.

(** The loop of [_trim_conversation_to_budget] over
    [reversed(conversation)]; [trimmed.insert(0, exchange)] is a cons. *)
Fixpoint trim_loop (budget : Z) (reversed : list entry) (trimmed : list entry)
  (current_tokens : Z) : list entry :=
  match reversed with
  | [] => trimmed
  | exchange :: older =>
      let exchange_tokens := _estimate_exchange_tokens exchange in
      if (current_tokens + exchange_tokens <=? budget)%Z
      then trim_loop budget older (exchange :: trimmed)
                     (current_tokens + exchange_tokens)
      else trimmed
  end.

Definition _trim_conversation_to_budget (conversation : list entry) (budget : Z)
  : list entry :=
  match conversation with
  | [] => []
  | _ =>
      if (budget <=? 0)%Z then []
      else trim_loop budget (rev conversation) [] 0
  end.

(** The [j] most recent exchanges of a conversation, in chronological
    order. *)
Definition newest (j : nat) (l : list entry) : list entry :=
  skipn (length l - j) l.

(** [l[-k:]] for [0 < k <= len(l)] *)
Definition last_n (k : Z) (l : list entry) : list entry :=
  newest (Z.to_nat k) l.

(** The token total of a list of exchanges, as the trim counts it. *)
Definition tokens_of (l : list entry) : Z :=
  fold_right (fun exchange acc => _estimate_exchange_tokens exchange + acc)%Z 0%Z l.

(** [full_history] is what [memory_manager.get_conversation_history(model)]
    returned. *)
Definition _get_conversation_within_budget (full_history : list entry)
  (budget minimum_exchanges : Z) : list entry :=
  match full_history with
  | [] => []
  | _ =>
      if (Z.of_nat (length full_history) <=? minimum_exchanges)%Z
      then full_history
      else
        let trimmed := _trim_conversation_to_budget full_history budget in
        if (Z.of_nat (length trimmed) <? minimum_exchanges)%Z
           && (minimum_exchanges <=? Z.of_nat (length full_history))%Z
        then last_n minimum_exchanges full_history
        else trimmed
  end.

(** The lists that hold chat messages only. *)
Definition all_messages (l : list entry) : Prop :=
  Forall (fun e => match e with Message _ _ => True | Exchange _ _ _ => False end) l.

(** [exchange[side].get("content")] when it is a non-empty string *)
Definition truthy_content (p : option part) : option str :=
  match p with
  | Some {| content := Some (c :: cs) |} => Some (c :: cs)
  | _ => None
  end.

Definition _build_context_messages (conversation_history : list entry)
  : list entry :=
  flat_map
    (fun exchange =>
       match exchange with
       | Exchange _ u a =>
           match truthy_content u with
           | Some c => [Message "user" c]
           | None => []
           end
           ++
           match truthy_content a with
           | Some c => [Message "assistant" c]
           | None => []
           end
       | Message _ _ => []
       end)
    conversation_history.

(** What [prepare_context_for_model] returns (the validation report and the
    statistics, which only describe these values, are left out). *)
Record context : Type := {
  context_messages : list entry;
  context_budgets : budgets;
  complexity_score : F
}.

(** [full_history] is the stored conversation of [model].  Validation
    (step 3) only reports; an exception of any step is re-raised as
    [MemoryError]. *)
Definition prepare_context_for_model (full_history : list entry)
  (user_input interaction_mode : str) (context_window minimum_exchanges : Z)
  : result context :=
  let attempt :=
    complexity <- AdaptiveBudget.analyze_complexity user_input interaction_mode ;;
    b <- AdaptiveBudget.calculate_adaptive_budgets
           context_window interaction_mode user_input 0 ;;
    let conversation_history :=
      _get_conversation_within_budget full_history (conversation_memory b)
                                      minimum_exchanges in
    let messages := _build_context_messages conversation_history in
    let actual_memory_tokens :=
      TokenCounter.estimate_conversation_tokens token_counter messages in
    let memory_budget := conversation_memory b in
    let messages :=
      if (memory_budget <? actual_memory_tokens)%Z
      then _trim_conversation_to_budget messages memory_budget
      else messages in
    Ok {| context_messages := messages;
          context_budgets := b;
          complexity_score := complexity |} in
  match attempt with
  | Ok r => Ok r
  | Raise _ => Raise MemoryError
  end.

End WithFloat.
End Unified.

(* ================================================================== *)
(** * memai.py *)
(* ================================================================== *)

Module Memai.

(** An element of [data["exchanges"]]. *)
Record exchange : Type := {
  timestamp : string;
  user : option str;
  assistant : option str
}.

(** The conversation files, by model name; a model without a file has the
    empty conversation. *)
Definition store : Type := string -> list exchange.


Definition save (st : store) (model : string) (exchanges : list exchange) : store :=
  fun m => if String.eqb m model then exchanges else st m.

Section WithFloat.
Context {F : Type} {FA : PyFloat F}.

(** [TokenEstimator.chars_per_token] *)
Definition chars_per_token : F := of_int 3.

Definition estimate_tokens (text : str) : Z :=
  match text with
  | [] => 0
  | _ => Z.max 1 (to_int (of_int (len text) / chars_per_token)%py)
  end.

Definition estimate_side (side : option str) : Z :=
  match side with
  | Some text => estimate_tokens text
  | None => 0
  end.

Definition estimate_conversation_tokens (exchanges : list exchange) : Z :=
  fold_left
    (fun total e => total + estimate_side (user e) + estimate_side (assistant e))%Z
    exchanges 0%Z.

(** [total_tokens <= context_window * 0.8] *)
Definition within_window (exchanges : list exchange) (context_window : Z) : bool :=
  (of_int (estimate_conversation_tokens exchanges)
   <=? of_int context_window * dec 8 1)%py.

(** The [while len(exchanges) > 1] loop: [exchanges.pop(0)] until the
    conversation fits or one exchange is left. *)
Fixpoint _trim_to_context_window (exchanges : list exchange) (context_window : Z)
  : list exchange :=
  match exchanges with
  | oldest :: (_ :: _) as rest =>
      if within_window exchanges context_window then exchanges
      else _trim_to_context_window rest context_window
  | _ => exchanges
  end.

(** [now] is the value of [datetime.now().isoformat()]. *)
Definition add_exchange (st : store) (now : string) (model : string)
  (user_input ai_response : str) (context_window : Z) : store :=
  let exchanges := st model in
  let e := {| timestamp := now; user := Some user_input;
              assistant := Some ai_response |} in
  let exchanges := exchanges ++ [e] in
  save st model (_trim_to_context_window exchanges context_window).

End WithFloat.
End Memai.

(* ================================================================== *)
(** * Concrete inputs *)
(* ================================================================== *)

Module Scenario.

(** A stored exchange, as [ModelSpecificMemory.add_exchange] writes it. *)
Definition stored (timestamp : string) (user_content assistant_content : str)
  (user_tokens assistant_tokens : Z) : entry :=
  Exchange timestamp
    (Some {| content := Some user_content; tokens := Some user_tokens |})
    (Some {| content := Some assistant_content; tokens := Some assistant_tokens |}).

Definition chat : str := of_string "chat".
Definition tools : str := of_string "tools".
Definition hi : str := of_string "hi".

(** ["a" * 300] *)
Definition a300 : str := repeat_str (of_string "a") 300.

(** ["optimize" * n] *)
Definition optimize_times (n : nat) : str := repeat_str (of_string "optimize") n.

(** Five exchanges of 500 tokens each. *)
Definition five_of_500 : list entry :=
  map (fun ts => stored ts (of_string "question") (of_string "answer") 250 250)
      ["t1"; "t2"; "t3"; "t4"; "t5"]%string.

(** An exchange of 10 tokens. *)
Definition ten_tokens : entry :=
  stored "t1" (of_string "question") (of_string "answer") 6 4.

(** Two exchanges of 300 characters a side whose token fields hold the
    fallback count of [ModelSpecificMemory.add_exchange],
    [max(1, len(content) // 4) = 75]. *)
Definition undercounted_history : list entry :=
  [ stored "t1" a300 a300 75 75; stored "t2" a300 a300 75 75 ].

End Scenario.
(* ================================================================== *)
(** * model_specific_memory.py *)
(* ================================================================== *)

Module ModelSpecificMemory.

(** [memory["metadata"]] *)
Record metadata : Type := {
  model : string;
  created_at : string;
  last_modified : string;
  version : string;
  total_exchanges : Z;
  last_accessed : option string
}.

(** An element of [memory["summarized_conversations"]], as
    [clear_conversation] writes it. *)
Record summary_entry : Type := {
  summarized_at : string;
  exchange_count : Z;
  date_start : string;
  date_end : string
}.

(** The content of a memory file. *)
Record memory : Type := {
  meta : metadata;
  current_conversation : list entry;
  summarized_conversations : list summary_entry
}.

(** The memory directory: the content of each file, by file name.  (Reading
    and writing succeed; a file holds what [save_memory] wrote.) *)
Definition files : Type := string -> option memory.

Definition no_files : files := fun _ => None.

Definition write (fs : files) (name : string) (m : memory) : files :=
  fun n => if String.eqb n name then Some m else fs n.

(** The values of [datetime.now().isoformat()] during one call, one for each
    place that reads the clock. *)
Record clock : Type := {
  at_create : string;
  at_create_modified : string;
  at_access : string;
  at_exchange : string;
  at_summary : string;
  at_save : string
}.

Definition set_current (m : memory) (conversation : list entry) : memory :=
  {| meta := meta m;
     current_conversation := conversation;
     summarized_conversations := summarized_conversations m |}.

Definition set_meta (m : memory) (md : metadata) : memory :=
  {| meta := md;
     current_conversation := current_conversation m;
     summarized_conversations := summarized_conversations m |}.

Definition set_model (md : metadata) (name : string) : metadata :=
  {| model := name; created_at := created_at md;
     last_modified := last_modified md; version := version md;
     total_exchanges := total_exchanges md; last_accessed := last_accessed md |}.

Definition set_total_exchanges (md : metadata) (n : Z) : metadata :=
  {| model := model md; created_at := created_at md;
     last_modified := last_modified md; version := version md;
     total_exchanges := n; last_accessed := last_accessed md |}.

Definition set_last_modified (md : metadata) (t : string) : metadata :=
  {| model := model md; created_at := created_at md;
     last_modified := t; version := version md;
     total_exchanges := total_exchanges md; last_accessed := last_accessed md |}.

Definition set_last_accessed (md : metadata) (t : string) : metadata :=
  {| model := model md; created_at := created_at md;
     last_modified := last_modified md; version := version md;
     total_exchanges := total_exchanges md; last_accessed := Some t |}.

(** [isinstance(exchange, dict) and "user" in exchange and "assistant" in
    exchange] *)
Definition valid_exchange (exchange : entry) : bool :=
  match exchange with
  | Exchange _ (Some _) (Some _) => true
  | _ => false
  end.

(** [_validate_memory_structure]: the repaired memory and the value
    returned.  On a memory that has its three keys the repairs are the model
    name, when it is empty, the exchanges without a [user] or an [assistant]
    key, which are dropped, and the count of exchanges. *)
Definition _validate_memory_structure (memory_data : memory) (name : string)
  : memory * bool :=
  let md := meta memory_data in
  let md := if String.eqb (model md) "" then set_model md name else md in
  let valid_exchanges := filter valid_exchange (current_conversation memory_data) in
  ({| meta := set_total_exchanges md (Z.of_nat (length valid_exchanges));
      current_conversation := valid_exchanges;
      summarized_conversations := summarized_conversations memory_data |},
   true).

Definition _create_new_memory (name : string) (now : clock) : memory :=
  {| meta := {| model := name; created_at := at_create now;
                last_modified := at_create_modified now; version := "3.0";
                total_exchanges := 0; last_accessed := None |};
     current_conversation := [];
     summarized_conversations := [] |}.

(** [max(1, len(content) // 4)] *)
Definition fallback_tokens (text : str) : Z := Z.max 1 (len text / 4).

(** The exchanges of a file that [load_memory] keeps. *)
Definition held (fs : files) (file : string) : list entry :=
  match fs file with
  | None => []
  | Some m => filter valid_exchange (current_conversation m)
  end.

(** The exchange [add_exchange] appends. *)
Definition appended (now : clock) (user_content assistant_content : str)
  (user_tokens assistant_tokens : option Z) : entry :=
  Exchange (at_exchange now)
    (Some {| content := Some user_content;
             tokens := Some match user_tokens with
                            | Some t => t
                            | None => fallback_tokens user_content
                            end |})
    (Some {| content := Some assistant_content;
             tokens := Some match assistant_tokens with
                            | Some t => t
                            | None => fallback_tokens assistant_content
                            end |}).

Section WithFileNames.

(** The file name [_model_to_filename] builds for a non-empty model name:
    the name with its unsafe characters replaced, an underscore, the first
    eight hexadecimal digits of the MD5 digest of the name, and [.json]. *)
Variable hashed_name : string -> string.

(** An empty model name is filed as ["unknown"]. *)
Definition _model_to_filename (name : string) : string :=
  hashed_name (if String.eqb name "" then "unknown" else name).

Definition load_memory (fs : files) (name : string) (now : clock) : memory :=
  match fs (_model_to_filename name) with
  | None => _create_new_memory name now
  | Some memory_data =>
      let '(memory_data, ok) := _validate_memory_structure memory_data name in
      if ok
      then set_meta memory_data (set_last_accessed (meta memory_data) (at_access now))
      else _create_new_memory name now
  end.

Definition save_memory (fs : files) (name : string) (memory_data : memory)
  (now : clock) : files * bool :=
  let '(memory_data, ok) := _validate_memory_structure memory_data name in
  if ok then
    let md := set_model (meta memory_data) name in
    let md := set_last_modified md (at_save now) in
    let md := set_total_exchanges md
                (Z.of_nat (length (current_conversation memory_data))) in
    (write fs (_model_to_filename name) (set_meta memory_data md), true)
  else (fs, false).

Definition add_exchange (fs : files) (name : string)
  (user_content assistant_content : str) (user_tokens assistant_tokens : option Z)
  (now : clock) : files * bool :=
  let memory_data := load_memory fs name now in
  let user_tokens :=
    match user_tokens with
    | None => fallback_tokens user_content
    | Some t => t
    end in
  let assistant_tokens :=
    match assistant_tokens with
    | None => fallback_tokens assistant_content
    | Some t => t
    end in
  let exchange :=
    Exchange (at_exchange now)
      (Some {| content := Some user_content; tokens := Some user_tokens |})
      (Some {| content := Some assistant_content; tokens := Some assistant_tokens |}) in
  save_memory fs name
    (set_current memory_data (current_conversation memory_data ++ [exchange])) now.

(** [max_exchanges] is [None] or an [int]; [conversation[-max_exchanges:]]
    is taken for a positive one only. *)
Definition get_conversation_history (fs : files) (name : string)
  (max_exchanges : option Z) (now : clock) : list entry :=
  let conversation := current_conversation (load_memory fs name now) in
  match max_exchanges with
  | Some k => if (0 <? k)%Z then Unified.last_n k conversation else conversation
  | None => conversation
  end.

(** [exchange.get("timestamp", "unknown")] *)
Definition timestamp_of (exchange : entry) : string :=
  match exchange with
  | Exchange t _ _ => t
  | Message _ _ => "unknown"
  end.

Definition clear_conversation (fs : files) (name : string) (now : clock)
  : files * bool :=
  let memory_data := load_memory fs name now in
  let summaries :=
    match current_conversation memory_data with
    | [] => summarized_conversations memory_data
    | first :: _ =>
        summarized_conversations memory_data
        ++ [{| summarized_at := at_summary now;
               exchange_count := Z.of_nat (length (current_conversation memory_data));
               date_start := timestamp_of first;
               date_end := timestamp_of (last (current_conversation memory_data) first) |}]
    end in
  save_memory fs name
    {| meta := meta memory_data;
       current_conversation := [];
       summarized_conversations := summaries |} now.

End WithFileNames.
End ModelSpecificMemory.

(* ================================================================== *)
(** * unified_memory_manager.py: the stored conversations *)
(* ================================================================== *)

Module UnifiedMemoryManager.
Section WithFloat.
Context {F : Type} {FA : PyFloat F}.

(** [self.memory_manager._model_to_filename] *)
Variable hashed_name : string -> string.

(** [_validate_exchange]: the errors of the result, on which [is_valid]
    depends.  (The warnings compare the token counts with zero and with the
    estimates of the contents; they leave [is_valid] as it is.) *)
Definition _validate_exchange (user_content assistant_content : str)
  (user_tokens assistant_tokens : Z) : list string :=
  (match user_content with
   | [] => ["Invalid user content"%string]
   | _ => []
   end
   ++
   match assistant_content with
   | [] => ["Invalid assistant content"%string]
   | _ => []
   end)%list.

(** [ValidationResult.is_valid]: no error was added. *)
Definition is_valid (errors : list string) : bool :=
  match errors with
  | [] => true
  | _ => false
  end.

(** [strict_mode] is [self.validator.strict_mode], [False] unless the
    configuration sets [strict_validation]. *)
Definition add_exchange (strict_mode : bool) (fs : ModelSpecificMemory.files)
  (name : string) (user_content assistant_content : str)
  (user_tokens assistant_tokens : option Z) (now : ModelSpecificMemory.clock)
  : ModelSpecificMemory.files * bool :=
  let user_tokens :=
    match user_tokens with
    | None => TokenCounter.estimate_tokens Unified.token_counter user_content
    | Some t => t
    end in
  let assistant_tokens :=
    match assistant_tokens with
    | None => TokenCounter.estimate_tokens Unified.token_counter assistant_content
    | Some t => t
    end in
  let exchange_validation :=
    _validate_exchange user_content assistant_content user_tokens assistant_tokens in
  if negb (is_valid exchange_validation) && strict_mode then (fs, false)
  else
    ModelSpecificMemory.add_exchange hashed_name fs name user_content
      assistant_content (Some user_tokens) (Some assistant_tokens) now.

Definition get_conversation_history (fs : ModelSpecificMemory.files)
  (name : string) (max_exchanges max_tokens : option Z)
  (now : ModelSpecificMemory.clock) : list entry :=
  let history :=
    ModelSpecificMemory.get_conversation_history hashed_name fs name
      max_exchanges now in
  match max_tokens with
  | Some t => Unified._trim_conversation_to_budget history t
  | None => history
  end.

(** An exchange whose token counts are the estimates of its contents. *)
Definition counted_by_estimate (exchange : entry) : Prop :=
  match exchange with
  | Exchange _ (Some u) (Some a) =>
      (exists c, content u = Some c
                 /\ tokens u = Some (TokenCounter.estimate_tokens Unified.token_counter c))
      /\ (exists c, content a = Some c
                    /\ tokens a = Some (TokenCounter.estimate_tokens Unified.token_counter c))
  | _ => False
  end.

End WithFloat.
End UnifiedMemoryManager.

(* ================================================================== *)
(** * memai.py: the context of a request *)
(* ================================================================== *)

Module MemoryManager.

(** A chat message: its role and its content. *)
Definition message : Type := (string * str)%type.



End MemoryManager.

(* ================================================================== *)
(** * Concrete inputs for the stored conversations *)
(* ================================================================== *)

Module StoredScenario.

(** File names that differ when the model names do. *)
Definition file_of (name : string) : string := (name ++ ".json")%string.

Definition at_t1 : ModelSpecificMemory.clock :=
  {| ModelSpecificMemory.at_create := "t1";
     ModelSpecificMemory.at_create_modified := "t1";
     ModelSpecificMemory.at_access := "t1";
     ModelSpecificMemory.at_exchange := "t1";
     ModelSpecificMemory.at_summary := "t1";
     ModelSpecificMemory.at_save := "t1" |}.

(** An exchange as [UnifiedMemoryManager.add_exchange] stores it when no
    token count is given. *)
Definition counted (timestamp : string) (user_content assistant_content : str)
  : entry :=
  Exchange timestamp
    (Some {| content := Some user_content;
             tokens := Some (TokenCounter.estimate_tokens (FA := Binary64)
                               Unified.token_counter user_content) |})
    (Some {| content := Some assistant_content;
             tokens := Some (TokenCounter.estimate_tokens (FA := Binary64)
                               Unified.token_counter assistant_content) |}).

(** Two exchanges of 300 characters a side, counted by the estimates. *)
Definition counted_history : list entry :=
  [ counted "t1" Scenario.a300 Scenario.a300;
    counted "t2" Scenario.a300 Scenario.a300 ].

End StoredScenario.

(* ================================================================== *)
(** * adaptive_budget_manager.py: the validation of an allocation *)
(* ================================================================== *)

Module AdaptiveBudgetManager.
Section WithFloat.
Context {F : Type} {FA : PyFloat F}.

(** The warnings of [validate_budget_allocation], without their text; each
    comes with one recommendation. *)
Inductive warning : Type :=
| ExceedsContextWindow (excess : Z)
| VeryHighUtilization
| ResponseVeryLow
| MemoryVeryLow.

(** The result of [validate_budget_allocation], without the values that are
    rounded for display ([utilization_percent] and [budget_breakdown]). *)
Record validation : Type := {
  is_valid : bool;
  allocated : Z;
  context_window : Z;
  remaining_tokens : Z;
  warnings : list warning
}.

(** [a / b] on two [int]s, which are converted exactly when they are below
    [2^53] in absolute value. *)
Definition int_div (a b : Z) : result F :=
  if (b =? 0)%Z then Raise ZeroDivisionError else Ok (of_int a / of_int b)%py.

Definition validate_budget_allocation (b : budgets) (window : Z)
  : result validation :=
  let total := total_allocated b in
  ratio <- int_div total window ;;
  let utilization := (ratio * of_int 100)%py in
  let warnings :=
    (if (window <? total)%Z then [ExceedsContextWindow (total - window)] else [])
    ++ (if (of_int 95 <? utilization)%py then [VeryHighUtilization] else [])
    ++ (if (of_int (response_generation b) <? of_int window * dec 10 2)%py
        then [ResponseVeryLow] else [])
    ++ (if (of_int (conversation_memory b) <? of_int window * dec 30 2)%py
        then [MemoryVeryLow] else []) in
  Ok {| is_valid := (total <=? window)%Z;
        allocated := total;
        context_window := window;
        remaining_tokens := (window - total)%Z;
        warnings := warnings |}.

End WithFloat.
End AdaptiveBudgetManager.

(* ================================================================== *)
(** * safety_validator.py *)
(* ================================================================== *)

Module SafetyValidator.
Section WithFloat.
Context {F : Type} {FA : PyFloat F}.

(** The messages of [validate_token_budgets], without their text and
    details. *)
Inductive issue : Type :=
| InvalidContextWindow
| BudgetExceedsContextWindow (excess : Z)
| HighContextUtilization
| LowResponseAllocation
| LowMemoryAllocation
| InsufficientSafetyMargin
| HighComplexityLowResponse
| BudgetValidationPassed.

(** [ValidationResult] *)
Record ValidationResult : Type := {
  is_valid : bool;
  errors : list issue;
  warnings : list issue;
  info : list issue
}.

(** [validate_token_budgets] on an allocation that has its six buckets. *)
Definition validate_token_budgets (b : budgets) (context_window : Z)
  (complexity_score : F) : ValidationResult :=
  if (context_window <=? 0)%Z then
    {| is_valid := false; errors := [InvalidContextWindow];
       warnings := []; info := [] |}
  else
    let total := total_allocated b in
    let utilization := (of_int total / of_int context_window)%py in
    let errors :=
      if (context_window <? total)%Z
      then [BudgetExceedsContextWindow (total - context_window)] else [] in
    let response_ratio :=
      (of_int (response_generation b) / of_int context_window)%py in
    let memory_ratio :=
      (of_int (conversation_memory b) / of_int context_window)%py in
    let safety_ratio :=
      (of_int (safety_margin b) / of_int context_window)%py in
    let warnings :=
      (if (dec 95 2 <? utilization)%py then [HighContextUtilization] else [])
      ++ (if (response_ratio <? dec 10 2)%py then [LowResponseAllocation] else [])
      ++ (if (memory_ratio <? dec 30 2)%py then [LowMemoryAllocation] else [])
      ++ (if (safety_ratio <? dec 2 2)%py then [InsufficientSafetyMargin] else [])
      ++ (if (dec 7 1 <? complexity_score)%py && (response_ratio <? dec 20 2)%py
          then [HighComplexityLowResponse] else []) in
    let valid := match errors with [] => true | _ => false end in
    {| is_valid := valid;
       errors := errors;
       warnings := warnings;
       info := if valid then [BudgetValidationPassed] else [] |}.

(** The messages of [validate_memory_structure], without their text and
    details. *)
Inductive memory_issue : Type :=
| ExchangeMissingFields (index : nat)
| ParticipantMissingContent (index : nat) (participant : string)
| ModelMismatch
| VeryLongConversation
| NonStandardVersion
| MemoryStructureValidationPassed.

Record MemoryValidationResult : Type := {
  memory_is_valid : bool;
  memory_errors : list memory_issue;
  memory_warnings : list memory_issue;
  memory_info : list memory_issue
}.

(** The warnings of one exchange that has both keys. *)
Definition participant_warnings (index : nat) (u a : part) : list memory_issue :=
  (match content u with
   | None => [ParticipantMissingContent index "user"]
   | Some _ => []
   end
   ++
   match content a with
   | None => [ParticipantMissingContent index "assistant"]
   | Some _ => []
   end)%list.

(** [_validate_conversation], from the exchange of index [index] on: the
    errors and the warnings. *)
Fixpoint _validate_conversation_from (index : nat) (conversation : list entry)
  : list memory_issue * list memory_issue :=
  match conversation with
  | [] => ([], [])
  | exchange :: rest =>
      let '(errors, warnings) := _validate_conversation_from (S index) rest in
      match exchange with
      | Exchange _ (Some u) (Some a) =>
          (errors, participant_warnings index u a ++ warnings)
      | _ => (ExchangeMissingFields index :: errors, warnings)
      end
  end.

Definition _validate_conversation (conversation : list entry)
  : list memory_issue * list memory_issue :=
  _validate_conversation_from 0 conversation.

(** [_validate_metadata]: the warnings and the information; it adds no
    error. *)
Definition _validate_metadata (metadata : ModelSpecificMemory.metadata)
  (model : string) : list memory_issue * list memory_issue :=
  let name := ModelSpecificMemory.model metadata in
  ((if negb (String.eqb name model)
       && negb (String.eqb name "" || String.eqb name "unknown")
    then [ModelMismatch] else []),
   (if String.eqb (ModelSpecificMemory.version metadata) "3.0"
    then [] else [NonStandardVersion])).

(** [max_conversation_length] *)
Definition max_conversation_length : Z := 10000.

(** [validate_memory_structure] without a [file_path], on a memory that has
    its three keys. *)
Definition validate_memory_structure (memory_data : ModelSpecificMemory.memory)
  (model : string) : MemoryValidationResult :=
  let '(metadata_warnings, _) :=
    _validate_metadata (ModelSpecificMemory.meta memory_data) model in
  let '(errors, warnings) :=
    _validate_conversation (ModelSpecificMemory.current_conversation memory_data) in
  let warnings :=
    (metadata_warnings ++ warnings
     ++ (if (max_conversation_length
             <? Z.of_nat
                  (length (ModelSpecificMemory.current_conversation memory_data)))%Z
         then [VeryLongConversation] else []))%list in
  let valid := match errors with [] => true | _ => false end in
  {| memory_is_valid := valid;
     memory_errors := errors;
     memory_warnings := warnings;
     memory_info := if valid then [MemoryStructureValidationPassed] else [] |}.

End WithFloat.
End SafetyValidator.

(* ================================================================== *)
(** * Properties *)
(* ================================================================== *)

(** ** Trimming a conversation to a budget ([unified_memory_manager.py]) *)

Section TrimToBudget.
Context {F : Type} {FA : PyFloat F}.

Lemma tokens_of_app (l1 l2 : list entry) :
  Unified.tokens_of (l1 ++ l2) = (Unified.tokens_of l1 + Unified.tokens_of l2)%Z.
Proof.
  induction l1 as [|e l1 IH]; simpl; [reflexivity|].
  rewrite IH. lia.
Qed.

Lemma tokens_of_rev (l : list entry) :
  Unified.tokens_of (rev l) = Unified.tokens_of l.
Proof.
  induction l as [|e l IH]; simpl; [reflexivity|].
  rewrite tokens_of_app, IH. simpl. lia.
Qed.

(** The loop takes a prefix of the reversed conversation: every partial
    total stayed within the budget, and the first exchange left out would
    have exceeded it. *)
Lemma trim_loop_spec (budget : Z) (reversed : list entry) :
  forall (trimmed : list entry) (current_tokens : Z),
  exists k : nat,
    (k <= length reversed)%nat
    /\ Unified.trim_loop budget reversed trimmed current_tokens
       = rev (firstn k reversed) ++ trimmed
    /\ (forall j, (1 <= j <= k)%nat ->
                  (current_tokens + Unified.tokens_of (firstn j reversed) <= budget)%Z)
    /\ ((k < length reversed)%nat ->
        (budget < current_tokens + Unified.tokens_of (firstn (S k) reversed))%Z).
Proof.
  induction reversed as [|x older IH]; intros trimmed cur.
  - exists 0%nat. simpl. repeat split; try lia.
  - simpl. destruct (Z.leb_spec (cur + Unified._estimate_exchange_tokens x) budget) as [Hle|Hgt].
    + destruct (IH (x :: trimmed) (cur + Unified._estimate_exchange_tokens x)%Z)
        as (k & Hk & Heq & Hfit & Hstop).
      exists (S k). repeat split.
      * lia.
      * rewrite Heq. simpl. rewrite <- app_assoc. reflexivity.
      * intros j Hj. destruct j as [|j]; [lia|]. simpl.
        destruct j as [|j].
        -- simpl. lia.
        -- specialize (Hfit (S j) ltac:(lia)). lia.
      * intros Hlt. specialize (Hstop ltac:(lia)).
        change (firstn (S (S k)) (x :: older)) with (x :: firstn (S k) older).
        simpl Unified.tokens_of. simpl Unified.tokens_of in Hstop. lia.
    + exists 0%nat. repeat split.
      * lia.
      * intros j Hj. lia.
      * intros _. simpl. lia.
Qed.

Lemma rev_firstn_rev (k : nat) (l : list entry) :
  rev (firstn k (rev l)) = Unified.newest k l.
Proof.
  unfold Unified.newest. rewrite firstn_rev, rev_involutive. reflexivity.
Qed.

Lemma tokens_of_firstn_rev (k : nat) (l : list entry) :
  Unified.tokens_of (firstn k (rev l)) = Unified.tokens_of (Unified.newest k l).
Proof.
  rewrite <- rev_firstn_rev, tokens_of_rev. reflexivity.
Qed.

(** C4.  For a non-empty conversation and a positive budget,
    [_trim_conversation_to_budget] returns the [k] most recent exchanges in
    chronological order, where [k] is found by adding up the estimates from
    the most recent exchange backward: every shorter suffix stayed within
    the budget, the exchange before the suffix (if there is one) would have
    pushed the running total above it, and the total of what is returned is
    at most the budget. *)
Theorem trim_to_budget_is_greedy_suffix :
  forall (conversation : list entry) (budget : Z),
    conversation <> [] ->
    (0 < budget)%Z ->
    exists k : nat,
      (k <= length conversation)%nat
      /\ Unified._trim_conversation_to_budget conversation budget
         = Unified.newest k conversation
      /\ (forall j, (j <= k)%nat ->
            (Unified.tokens_of (Unified.newest j conversation) <= budget)%Z)
      /\ ((k < length conversation)%nat ->
          (budget < Unified.tokens_of (Unified.newest (S k) conversation))%Z)
      /\ (Unified.tokens_of
            (Unified._trim_conversation_to_budget conversation budget)
          <= budget)%Z.
Proof.
  intros conversation budget Hne Hpos.
  unfold Unified._trim_conversation_to_budget.
  destruct conversation as [|e rest]; [contradiction|].
  destruct (Z.leb_spec budget 0) as [H0|_]; [lia|].
  set (conv := e :: rest) in *.
  destruct (trim_loop_spec budget (rev conv) [] 0) as (k & Hk & Heq & Hfit & Hstop).
  rewrite length_rev in Hk, Hstop.
  assert (Hsuffix : forall j, (j <= k)%nat ->
            (Unified.tokens_of (Unified.newest j conv) <= budget)%Z).
  { intros j Hj. destruct j as [|j].
    - unfold Unified.newest. rewrite Nat.sub_0_r, skipn_all. simpl. lia.
    - specialize (Hfit (S j) ltac:(lia)).
      rewrite tokens_of_firstn_rev in Hfit. lia. }
  exists k. rewrite Heq, app_nil_r, rev_firstn_rev.
  repeat split.
  - exact Hk.
  - exact Hsuffix.
  - intros Hlt. specialize (Hstop Hlt).
    rewrite tokens_of_firstn_rev in Hstop. lia.
  - apply Hsuffix. lia.
Qed.

End TrimToBudget.

(** The scenario of the specification: five exchanges of 500 tokens and a
    budget of 1200 leave exactly the last two. *)
Example trim_five_of_500 :
  Unified._trim_conversation_to_budget (FA := Binary64) Scenario.five_of_500 1200
  = Unified.newest 2 Scenario.five_of_500.
Proof. vm_compute. reflexivity. Qed.

Lemma trim_to_budget_is_greedy_suffix_witness :
  Scenario.five_of_500 <> []
  /\ (0 < 1200)%Z
  /\ exists k : nat,
      (k <= length Scenario.five_of_500)%nat
      /\ Unified._trim_conversation_to_budget (FA := Binary64) Scenario.five_of_500 1200
         = Unified.newest k Scenario.five_of_500
      /\ (forall j, (j <= k)%nat ->
            (Unified.tokens_of (FA := Binary64) (Unified.newest j Scenario.five_of_500)
             <= 1200)%Z)
      /\ ((k < length Scenario.five_of_500)%nat ->
          (1200 < Unified.tokens_of (FA := Binary64)
                    (Unified.newest (S k) Scenario.five_of_500))%Z)
      /\ (Unified.tokens_of (FA := Binary64)
            (Unified._trim_conversation_to_budget (FA := Binary64)
               Scenario.five_of_500 1200)
          <= 1200)%Z.
Proof.
  assert (Hne : Scenario.five_of_500 <> []) by (vm_compute; discriminate).
  assert (Hpos : (0 < 1200)%Z) by reflexivity.
  split; [exact Hne|]. split; [exact Hpos|].
  exact (trim_to_budget_is_greedy_suffix (FA := Binary64) Hne Hpos).
Defined.

(** ** The most recent exchange and the budget *)

Section NewestExchange.
Context {F : Type} {FA : PyFloat F}.

(** With a positive budget the loop keeps everything it has already
    taken: its result ends with [trimmed]. *)
Lemma trim_loop_keeps (budget : Z) (reversed : list entry) :
  forall trimmed current_tokens,
  exists taken,
    Unified.trim_loop budget reversed trimmed current_tokens = taken ++ trimmed.
Proof.
  intros trimmed cur.
  destruct (trim_loop_spec budget reversed trimmed cur) as (k & _ & Heq & _).
  exists (rev (firstn k reversed)). exact Heq.
Qed.

(** C5, as the code has it.  For a conversation that ends with the exchange
    [latest] and a positive budget: when the estimate of [latest] is within
    the budget, the result ends with [latest]; when [latest] alone exceeds
    the budget, the result is empty. *)
Theorem trim_to_budget_newest_exchange :
  forall (older : list entry) (latest : entry) (budget : Z),
    (0 < budget)%Z ->
    ((Unified._estimate_exchange_tokens latest <= budget)%Z ->
     exists kept,
       Unified._trim_conversation_to_budget (older ++ [latest]) budget
       = kept ++ [latest])
    /\ ((budget < Unified._estimate_exchange_tokens latest)%Z ->
        Unified._trim_conversation_to_budget (older ++ [latest]) budget = []).
Proof.
  intros older latest budget Hpos.
  unfold Unified._trim_conversation_to_budget.
  destruct (older ++ [latest]) as [|e rest] eqn:Hconv.
  { destruct older; discriminate. }
  rewrite <- Hconv. clear e rest Hconv.
  destruct (Z.leb_spec budget 0) as [H0|_]; [lia|].
  rewrite rev_app_distr. simpl.
  split; intros Hest.
  - destruct (Z.leb_spec (Unified._estimate_exchange_tokens latest) budget); [|lia].
    apply trim_loop_keeps.
  - destruct (Z.leb_spec (Unified._estimate_exchange_tokens latest) budget); [lia|].
    reflexivity.
Qed.

End NewestExchange.

(** C5, as stated, fails: a conversation of one exchange of 10 tokens, trimmed
    to a budget of 5, is empty. *)
Lemma trim_to_budget_drops_oversized_newest :
  [Scenario.ten_tokens] <> []
  /\ (0 < 5)%Z
  /\ Unified._estimate_exchange_tokens (FA := Binary64) Scenario.ten_tokens = 10%Z
  /\ Unified._trim_conversation_to_budget (FA := Binary64) [Scenario.ten_tokens] 5 = []
  /\ ~ In Scenario.ten_tokens
        (Unified._trim_conversation_to_budget (FA := Binary64) [Scenario.ten_tokens] 5).
Proof.
  repeat split; try discriminate.
  intros H. vm_compute in H. exact H.
Qed.

Lemma trim_to_budget_newest_exchange_witness :
  (0 < 1200)%Z
  /\ ((Unified._estimate_exchange_tokens (FA := Binary64) Scenario.ten_tokens <= 1200)%Z ->
      exists kept,
        Unified._trim_conversation_to_budget (FA := Binary64)
          (Scenario.five_of_500 ++ [Scenario.ten_tokens]) 1200
        = kept ++ [Scenario.ten_tokens])
  /\ ((1200 < Unified._estimate_exchange_tokens (FA := Binary64) Scenario.ten_tokens)%Z ->
      Unified._trim_conversation_to_budget (FA := Binary64)
        (Scenario.five_of_500 ++ [Scenario.ten_tokens]) 1200 = []).
Proof.
  assert (Hpos : (0 < 1200)%Z) by reflexivity.
  split; [exact Hpos|].
  exact (trim_to_budget_newest_exchange (FA := Binary64)
           Scenario.five_of_500 Scenario.ten_tokens Hpos).
Defined.

(** ** The final re-trim of [prepare_context_for_model] *)

Section Retrim.
Context {F : Type} {FA : PyFloat F}.

Lemma trim_loop_messages (budget : Z) (reversed : list entry) :
  Unified.all_messages reversed ->
  (0 <= budget)%Z ->
  forall trimmed,
    Unified.trim_loop budget reversed trimmed 0 = rev reversed ++ trimmed.
Proof.
  intros Hall Hb. induction Hall as [|e l He _ IH]; intros trimmed.
  - reflexivity.
  - destruct e as [ts u a|role text]; [contradiction|].
    simpl. destruct (Z.leb_spec 0 budget); [|lia].
    rewrite IH, <- app_assoc. reflexivity.
Qed.

(** [_estimate_exchange_tokens] reads the keys [user] and [assistant], which
    a chat message does not have: every message counts for nothing, and with
    a positive budget the re-trim returns the list of messages as it was. *)
Lemma retrim_of_messages_is_identity (messages : list entry) (budget : Z) :
  Unified.all_messages messages ->
  (0 < budget)%Z ->
  Unified._trim_conversation_to_budget messages budget = messages.
Proof.
  intros Hall Hpos. unfold Unified._trim_conversation_to_budget.
  destruct messages as [|m rest] eqn:Hm; [reflexivity|].
  rewrite <- Hm in *. clear Hm.
  destruct (Z.leb_spec budget 0); [lia|].
  rewrite trim_loop_messages.
  - rewrite rev_involutive, app_nil_r. reflexivity.
  - unfold Unified.all_messages in *. apply Forall_rev. exact Hall.
  - lia.
Qed.

Lemma context_messages_are_messages (history : list entry) :
  Unified.all_messages (Unified._build_context_messages history).
Proof.
  unfold Unified.all_messages, Unified._build_context_messages.
  induction history as [|e l IH]; simpl; [constructor|].
  apply Forall_app. split; [|exact IH].
  destruct e as [ts u a|role text]; [|constructor].
  apply Forall_app. split.
  - destruct (Unified.truthy_content u); repeat constructor.
  - destruct (Unified.truthy_content a); repeat constructor.
Qed.

End Retrim.

(** C7 fails on the code.  With a window of 1000 tokens, chat mode, the
    query "hi" and a history of two exchanges whose stored token counts
    (75 a side) are below the estimates of their contents (153 a side),
    the memory budget is 499 tokens; both exchanges pass the first trim
    (300 stored tokens), their four messages are estimated at 612 tokens,
    the re-trim is entered and returns all four messages. *)
Theorem prepare_context_retrim_exceeds_budget :
  exists r : Unified.context,
    Unified.prepare_context_for_model (FA := Binary64)
      Scenario.undercounted_history Scenario.hi Scenario.chat 1000 0 = Ok r
    /\ conversation_memory (Unified.context_budgets r) = 499%Z
    /\ length (Unified.context_messages r) = 4%nat
    /\ TokenCounter.estimate_conversation_tokens (FA := Binary64)
         Unified.token_counter (Unified.context_messages r) = 612%Z
    /\ (conversation_memory (Unified.context_budgets r)
        < TokenCounter.estimate_conversation_tokens (FA := Binary64)
            Unified.token_counter (Unified.context_messages r))%Z.
Proof.
  eexists. split; [vm_compute; reflexivity|].
  vm_compute. repeat split; reflexivity.
Qed.

(** ** Appending an exchange ([memai.py]) *)

Section TrimToWindow.
Context {F : Type} {FA : PyFloat F}.



End TrimToWindow.

(** ** More on trimming to a budget ([unified_memory_manager.py]) *)

Section TrimToBudgetMore.
Context {F : Type} {FA : PyFloat F}.

Lemma newest_all (l : list entry) : Unified.newest (length l) l = l.
Proof. unfold Unified.newest. rewrite Nat.sub_diag. reflexivity. Qed.

Lemma newest_length (k : nat) (l : list entry) :
  (k <= length l)%nat -> length (Unified.newest k l) = k.
Proof. intros H. unfold Unified.newest. rewrite length_skipn. lia. Qed.

Lemma newest_newest (j k : nat) (l : list entry) :
  (j <= k)%nat -> (k <= length l)%nat ->
  Unified.newest j (Unified.newest k l) = Unified.newest j l.
Proof.
  intros Hj Hk. unfold Unified.newest at 1 3.
  rewrite (newest_length l Hk). unfold Unified.newest.
  rewrite skipn_skipn. f_equal. lia.
Qed.

Lemma newest_suffix (j k : nat) (l : list entry) :
  (j <= k)%nat -> (k <= length l)%nat ->
  exists dropped, Unified.newest k l = dropped ++ Unified.newest j l.
Proof.
  intros Hj Hk. rewrite <- (newest_newest l Hj Hk).
  exists (firstn (length (Unified.newest k l) - j) (Unified.newest k l)).
  unfold Unified.newest at 4. symmetry. apply firstn_skipn.
Qed.

(** What [_trim_conversation_to_budget] returns for a non-empty conversation
    and a positive budget. *)
Lemma trim_conversation_spec (conversation : list entry) (budget : Z) :
  conversation <> [] ->
  (0 < budget)%Z ->
  exists k : nat,
    (k <= length conversation)%nat
    /\ Unified._trim_conversation_to_budget conversation budget
       = Unified.newest k conversation
    /\ (forall j, (j <= k)%nat ->
          (Unified.tokens_of (Unified.newest j conversation) <= budget)%Z)
    /\ ((k < length conversation)%nat ->
        (budget < Unified.tokens_of (Unified.newest (S k) conversation))%Z).
Proof.
  intros Hne Hpos.
  unfold Unified._trim_conversation_to_budget.
  destruct conversation as [|e rest]; [contradiction|].
  destruct (Z.leb_spec budget 0) as [H0|_]; [lia|].
  set (conv := e :: rest) in *.
  destruct (trim_loop_spec budget (rev conv) [] 0) as (k & Hk & Heq & Hfit & Hstop).
  rewrite length_rev in Hk, Hstop.
  exists k. rewrite Heq, app_nil_r, rev_firstn_rev.
  repeat split.
  - exact Hk.
  - intros j Hj. destruct j as [|j].
    + unfold Unified.newest. rewrite Nat.sub_0_r, skipn_all. simpl. lia.
    + specialize (Hfit (S j) ltac:(lia)).
      rewrite tokens_of_firstn_rev in Hfit. lia.
  - intros Hlt. specialize (Hstop Hlt).
    rewrite tokens_of_firstn_rev in Hstop. lia.
Qed.

Lemma trim_conversation_nil (budget : Z) :
  Unified._trim_conversation_to_budget [] budget = [].
Proof. reflexivity. Qed.

Lemma trim_conversation_no_budget (conversation : list entry) (budget : Z) :
  (budget <= 0)%Z -> Unified._trim_conversation_to_budget conversation budget = [].
Proof.
  intros H. unfold Unified._trim_conversation_to_budget.
  destruct conversation; [reflexivity|].
  destruct (Z.leb_spec budget 0); [reflexivity|lia].
Qed.

(** The trim returns a suffix of the conversation, whatever the budget. *)
Lemma trim_conversation_newest (conversation : list entry) (budget : Z) :
  exists k : nat,
    (k <= length conversation)%nat
    /\ Unified._trim_conversation_to_budget conversation budget
       = Unified.newest k conversation.
Proof.
  destruct conversation as [|e rest].
  - exists 0%nat. split; [simpl; lia|reflexivity].
  - destruct (Z.leb_spec budget 0) as [H0|Hpos].
    + exists 0%nat. split; [lia|]. rewrite trim_conversation_no_budget by exact H0.
      unfold Unified.newest. rewrite Nat.sub_0_r, skipn_all. reflexivity.
    + destruct (@trim_conversation_spec (e :: rest) budget) as (k & Hk & Heq & _);
        [discriminate|exact Hpos|].
      exists k. split; assumption.
Qed.

(** X1.  Trimming is idempotent: trimming the result of
    [_trim_conversation_to_budget] again to the same budget returns it
    unchanged. *)
Theorem trim_to_budget_is_idempotent :
  forall (conversation : list entry) (budget : Z),
    Unified._trim_conversation_to_budget
      (Unified._trim_conversation_to_budget conversation budget) budget
    = Unified._trim_conversation_to_budget conversation budget.
Proof.
  intros conversation budget.
  destruct (Z.leb_spec budget 0) as [H0|Hpos].
  { rewrite !trim_conversation_no_budget by exact H0. reflexivity. }
  destruct conversation as [|e rest]; [reflexivity|].
  destruct (@trim_conversation_spec (e :: rest) budget) as (k & Hk & Heq & Hfit & _);
    [discriminate|exact Hpos|].
  rewrite Heq. set (conv := e :: rest) in *.
  destruct k as [|k].
  { unfold Unified.newest. rewrite Nat.sub_0_r, skipn_all. reflexivity. }
  destruct (@trim_conversation_spec (Unified.newest (S k) conv) budget)
    as (k' & Hk' & Heq' & _ & Hstop').
  { intros Hnil. apply (f_equal (@length entry)) in Hnil.
    rewrite newest_length in Hnil by exact Hk. discriminate. }
  { exact Hpos. }
  rewrite newest_length in Hk', Hstop' by exact Hk.
  rewrite Heq'.
  destruct (Nat.eq_dec k' (S k)) as [->|Hneq].
  - rewrite newest_newest by lia. reflexivity.
  - specialize (Hstop' ltac:(lia)).
    rewrite newest_newest in Hstop' by lia.
    specialize (Hfit (S k') ltac:(lia)). lia.
Qed.

(** X2.  A larger budget keeps at least what a smaller one keeps: the
    result for [budget1] is a suffix of the result for [budget2]. *)
Theorem trim_to_budget_is_monotone :
  forall (conversation : list entry) (budget1 budget2 : Z),
    (budget1 <= budget2)%Z ->
    exists older,
      Unified._trim_conversation_to_budget conversation budget2
      = older ++ Unified._trim_conversation_to_budget conversation budget1.
Proof.
  intros conversation budget1 budget2 Hle.
  destruct (Z.leb_spec budget1 0) as [H0|Hpos].
  { rewrite (trim_conversation_no_budget conversation H0).
    eexists. rewrite app_nil_r. reflexivity. }
  destruct conversation as [|e rest]; [exists []; reflexivity|].
  set (conv := e :: rest) in *.
  destruct (@trim_conversation_spec conv budget1) as (k1 & Hk1 & Heq1 & Hfit1 & _);
    [discriminate|exact Hpos|].
  destruct (@trim_conversation_spec conv budget2) as (k2 & Hk2 & Heq2 & _ & Hstop2);
    [discriminate|lia|].
  rewrite Heq1, Heq2.
  apply newest_suffix; [|exact Hk2].
  destruct (Nat.le_gt_cases k1 k2) as [H|H]; [exact H|].
  specialize (Hstop2 ltac:(lia)). specialize (Hfit1 (S k2) ltac:(lia)). lia.
Qed.

Lemma tokens_of_nonneg (l : list entry) :
  Forall (fun e => (0 <= Unified._estimate_exchange_tokens e)%Z) l ->
  (0 <= Unified.tokens_of l)%Z.
Proof.
  induction 1 as [|e l He _ IH]; simpl; lia.
Qed.

Lemma tokens_of_newest_le (k : nat) (l : list entry) :
  Forall (fun e => (0 <= Unified._estimate_exchange_tokens e)%Z) l ->
  (Unified.tokens_of (Unified.newest k l) <= Unified.tokens_of l)%Z.
Proof.
  intros Hall. unfold Unified.newest.
  pose proof (tokens_of_app (firstn (length l - k) l) (skipn (length l - k) l)) as Happ.
  rewrite firstn_skipn in Happ.
  assert (0 <= Unified.tokens_of (firstn (length l - k) l))%Z; [|lia].
  apply tokens_of_nonneg.
  rewrite <- (firstn_skipn (length l - k) l) in Hall.
  apply Forall_app in Hall. apply Hall.
Qed.

(** X3.  A conversation of non-negative token counts is returned unchanged
    exactly when its total is within the (positive) budget. *)
Theorem trim_to_budget_keeps_what_fits :
  forall (conversation : list entry) (budget : Z),
    conversation <> [] ->
    (0 < budget)%Z ->
    Forall (fun e => (0 <= Unified._estimate_exchange_tokens e)%Z) conversation ->
    (Unified._trim_conversation_to_budget conversation budget = conversation
     <-> (Unified.tokens_of conversation <= budget)%Z).
Proof.
  intros conversation budget Hne Hpos Hall.
  destruct (trim_conversation_spec Hne Hpos) as (k & Hk & Heq & Hfit & Hstop).
  split.
  - intros Hsame. rewrite Heq in Hsame.
    assert (k = length conversation) as ->.
    { apply (f_equal (@length entry)) in Hsame.
      rewrite newest_length in Hsame by exact Hk. exact Hsame. }
    specialize (Hfit (length conversation) ltac:(lia)).
    rewrite newest_all in Hfit. exact Hfit.
  - intros Htotal. rewrite Heq.
    destruct (Nat.eq_dec k (length conversation)) as [->|Hneq].
    + apply newest_all.
    + specialize (Hstop ltac:(lia)).
      pose proof (tokens_of_newest_le (S k) Hall). lia.
Qed.

(** X4.  [_get_conversation_within_budget] returns the [k] most recent
    exchanges of the history for some [k] that is at least the smaller of
    [minimum_exchanges] and the length of the history; when it returns more
    than [minimum_exchanges] exchanges, the result is the trim of the
    history to the budget. *)
Theorem conversation_within_budget_keeps_minimum :
  forall (full_history : list entry) (budget minimum_exchanges : Z),
    let kept :=
      Unified._get_conversation_within_budget full_history budget
                                               minimum_exchanges in
    exists k : nat,
      (k <= length full_history)%nat
      /\ kept = Unified.newest k full_history
      /\ (Z.min minimum_exchanges (Z.of_nat (length full_history)) <= Z.of_nat k)%Z
      /\ ((minimum_exchanges < Z.of_nat k)%Z ->
          kept = Unified._trim_conversation_to_budget full_history budget).
Proof.
  intros full_history budget minimum_exchanges kept. subst kept.
  unfold Unified._get_conversation_within_budget.
  destruct full_history as [|e rest].
  { exists 0%nat. simpl. repeat split; try lia. }
  set (history := e :: rest) in *.
  destruct (Z.leb_spec (Z.of_nat (length history)) minimum_exchanges) as [Hshort|Hlong].
  { exists (length history). rewrite newest_all. repeat split; try lia. }
  destruct (trim_conversation_newest history budget) as (k & Hk & Heq).
  rewrite Heq, (newest_length history Hk).
  destruct (Z.ltb_spec (Z.of_nat k) minimum_exchanges) as [Hfew|Henough].
  - destruct (Z.leb_spec minimum_exchanges (Z.of_nat (length history))); [|lia].
    cbn [andb]. exists (Z.to_nat minimum_exchanges).
    unfold Unified.last_n. repeat split; try lia.
  - cbn [andb]. exists k. repeat split; try lia.
Qed.

End TrimToBudgetMore.

(** ** The messages of a prepared context ([unified_memory_manager.py]) *)

Section PreparedContext.
Context {F : Type} {FA : PyFloat F}.

Lemma estimate_conversation_tokens_from (tc : TokenCounter.counter)
  (conversation : list entry) (start : Z) :
  fold_left
    (fun total_tokens message =>
       match message with
       | Message _ c => total_tokens + TokenCounter.estimate_tokens tc c
       | Exchange _ (Some u) (Some a) =>
           total_tokens + TokenCounter.estimate_part tc (Some u)
           + TokenCounter.estimate_part tc (Some a)
       | Exchange _ _ _ => total_tokens
       end)%Z
    conversation start
  = (start + TokenCounter.estimate_conversation_tokens tc conversation)%Z.
Proof.
  unfold TokenCounter.estimate_conversation_tokens.
  revert start. induction conversation as [|m l IH]; intros start; simpl.
  - lia.
  - rewrite IH. symmetry. rewrite IH.
    destruct m as [ts [u|] [a|]|role c]; lia.
Qed.

Lemma estimate_conversation_tokens_app (tc : TokenCounter.counter)
  (l1 l2 : list entry) :
  TokenCounter.estimate_conversation_tokens tc (l1 ++ l2)
  = (TokenCounter.estimate_conversation_tokens tc l1
     + TokenCounter.estimate_conversation_tokens tc l2)%Z.
Proof.
  unfold TokenCounter.estimate_conversation_tokens at 1.
  rewrite fold_left_app. rewrite estimate_conversation_tokens_from.
  reflexivity.
Qed.

Lemma estimate_conversation_tokens_cons (tc : TokenCounter.counter)
  (role : string) (text : str) (l : list entry) :
  TokenCounter.estimate_conversation_tokens tc (Message role text :: l)
  = (TokenCounter.estimate_tokens tc text
     + TokenCounter.estimate_conversation_tokens tc l)%Z.
Proof.
  change (Message role text :: l) with ([Message role text] ++ l).
  rewrite estimate_conversation_tokens_app. f_equal.
Qed.

(** The messages built from exchanges that are counted by the estimates of
    their contents weigh what the exchanges weigh. *)
Lemma context_messages_weigh_the_same (history : list entry) :
  Forall UnifiedMemoryManager.counted_by_estimate history ->
  TokenCounter.estimate_conversation_tokens Unified.token_counter
    (Unified._build_context_messages history)
  = Unified.tokens_of history.
Proof.
  induction 1 as [|e l He _ IH]; [reflexivity|].
  unfold Unified._build_context_messages in *. cbn [flat_map].
  rewrite estimate_conversation_tokens_app, IH.
  cbn [Unified.tokens_of fold_right]. f_equal.
  destruct e as [ts [[cu tu]|] [[ca ta]|]|role text]; try contradiction.
  destruct He as [(c1 & Hc1 & Ht1) (c2 & Hc2 & Ht2)].
  cbn [content tokens] in *. subst cu tu ca ta.
  cbn [Unified._estimate_exchange_tokens Unified.side_tokens tokens content].
  destruct c1 as [|x1 c1], c2 as [|x2 c2]; cbn [Unified.truthy_content app];
    rewrite ?estimate_conversation_tokens_cons;
    change (TokenCounter.estimate_tokens Unified.token_counter []) with 0%Z;
    change (TokenCounter.estimate_conversation_tokens Unified.token_counter [])
      with 0%Z;
    lia.
Qed.

Lemma counted_newest (k : nat) (history : list entry) :
  Forall UnifiedMemoryManager.counted_by_estimate history ->
  Forall UnifiedMemoryManager.counted_by_estimate (Unified.newest k history).
Proof.
  intros H. unfold Unified.newest.
  rewrite <- (firstn_skipn (length history - k) history) in H.
  apply Forall_app in H. apply H.
Qed.

Lemma within_budget_newest (full_history : list entry) (budget minimum_exchanges : Z) :
  exists k : nat,
    (k <= length full_history)%nat
    /\ Unified._get_conversation_within_budget full_history budget minimum_exchanges
       = Unified.newest k full_history.
Proof.
  unfold Unified._get_conversation_within_budget.
  destruct full_history as [|e rest].
  { exists 0%nat. split; [simpl; lia|reflexivity]. }
  set (history := e :: rest) in *.
  destruct (Z.of_nat (length history) <=? minimum_exchanges)%Z.
  { exists (length history). rewrite newest_all. split; [lia|reflexivity]. }
  destruct (trim_conversation_newest history budget) as (k & Hk & Heq).
  destruct ((Z.of_nat (length (Unified._trim_conversation_to_budget history budget))
             <? minimum_exchanges)%Z
            && (minimum_exchanges <=? Z.of_nat (length history))%Z) eqn:Hover.
  - apply andb_prop in Hover. destruct Hover as [_ Hle].
    apply Z.leb_le in Hle.
    exists (Z.to_nat minimum_exchanges). split; [lia|reflexivity].
  - exists k. split; assumption.
Qed.

Lemma within_budget_without_minimum (full_history : list entry)
  (budget minimum_exchanges : Z) :
  (minimum_exchanges <= 0)%Z ->
  Unified._get_conversation_within_budget full_history budget minimum_exchanges
  = Unified._trim_conversation_to_budget full_history budget.
Proof.
  intros Hmin. unfold Unified._get_conversation_within_budget.
  destruct full_history as [|e rest]; [reflexivity|].
  set (history := e :: rest) in *.
  destruct (Z.leb_spec (Z.of_nat (length history)) minimum_exchanges) as [H|_].
  { subst history. simpl length in H. lia. }
  destruct (Z.ltb_spec
              (Z.of_nat (length (Unified._trim_conversation_to_budget history budget)))
              minimum_exchanges); [lia|reflexivity].
Qed.

(** What [prepare_context_for_model] computed when it returned. *)
Lemma prepare_context_inv (full_history : list entry) (user_input mode : str)
  (context_window minimum_exchanges : Z) (ctx : Unified.context) :
  Unified.prepare_context_for_model full_history user_input mode context_window
    minimum_exchanges = Ok ctx ->
  let b := Unified.context_budgets ctx in
  let messages :=
    Unified._build_context_messages
      (Unified._get_conversation_within_budget full_history (conversation_memory b)
         minimum_exchanges) in
  AdaptiveBudget.calculate_adaptive_budgets context_window mode user_input 0 = Ok b
  /\ Unified.context_messages ctx
     = if (conversation_memory b
           <? TokenCounter.estimate_conversation_tokens Unified.token_counter messages)%Z
       then Unified._trim_conversation_to_budget messages (conversation_memory b)
       else messages.
Proof.
  unfold Unified.prepare_context_for_model.
  destruct (AdaptiveBudget.analyze_complexity user_input mode) as [c|x];
    cbn [bind]; [|discriminate].
  destruct (AdaptiveBudget.calculate_adaptive_budgets context_window mode user_input 0)
    as [b|x]; cbn [bind]; [|discriminate].
  intros H. injection H as <-. cbn [Unified.context_budgets Unified.context_messages].
  split; reflexivity.
Qed.

(** X5.  When every stored exchange is counted by the estimates of its
    contents, as [UnifiedMemoryManager.add_exchange] counts it when no token
    count is given, and no minimum of exchanges is asked for, the messages
    [prepare_context_for_model] returns are those of the history trimmed to
    the memory budget, and their estimated total is within that budget.
    (The window is positive: the statistics the function returns with the
    messages divide by it.) *)
Theorem prepare_context_fits_memory_budget :
  forall (full_history : list entry) (user_input mode : str)
         (context_window minimum_exchanges : Z) (ctx : Unified.context),
    Forall UnifiedMemoryManager.counted_by_estimate full_history ->
    (0 < context_window)%Z ->
    (minimum_exchanges <= 0)%Z ->
    Unified.prepare_context_for_model full_history user_input mode context_window
      minimum_exchanges = Ok ctx ->
    Unified.context_messages ctx
    = Unified._build_context_messages
        (Unified._trim_conversation_to_budget full_history
           (conversation_memory (Unified.context_budgets ctx)))
    /\ (TokenCounter.estimate_conversation_tokens Unified.token_counter
          (Unified.context_messages ctx)
        <= Z.max 0 (conversation_memory (Unified.context_budgets ctx)))%Z.
Proof.
  intros full_history user_input mode context_window minimum_exchanges ctx
         Hcounted _ Hmin Hctx.
  apply prepare_context_inv in Hctx. cbv zeta in Hctx.
  destruct Hctx as [_ Hmsgs].
  rewrite within_budget_without_minimum in Hmsgs by exact Hmin.
  set (budget := conversation_memory (Unified.context_budgets ctx)) in *.
  assert (Hweight :
    TokenCounter.estimate_conversation_tokens Unified.token_counter
      (Unified._build_context_messages
         (Unified._trim_conversation_to_budget full_history budget))
    = Unified.tokens_of (Unified._trim_conversation_to_budget full_history budget)).
  { destruct (trim_conversation_newest full_history budget) as (k & _ & ->).
    apply context_messages_weigh_the_same, counted_newest, Hcounted. }
  assert (Hfit :
    (Unified.tokens_of (Unified._trim_conversation_to_budget full_history budget)
     <= Z.max 0 budget)%Z).
  { destruct (Z.leb_spec budget 0) as [H0|Hpos].
    - rewrite trim_conversation_no_budget by exact H0. simpl. lia.
    - destruct full_history as [|e rest]; [simpl; lia|].
      destruct (@trim_conversation_spec _ _ (e :: rest) budget) as (k & Hk & Heq & Hfit & _);
        [discriminate|exact Hpos|].
      rewrite Heq. specialize (Hfit k ltac:(lia)). lia. }
  rewrite Hweight in Hmsgs.
  destruct (Z.ltb_spec budget
              (Unified.tokens_of
                 (Unified._trim_conversation_to_budget full_history budget)))
    as [Hover|_].
  - (* only with a negative budget, and then nothing was kept *)
    assert (Hneg : (budget <= 0)%Z) by lia.
    rewrite (trim_conversation_no_budget full_history Hneg) in *.
    rewrite Hmsgs. cbn. split; [reflexivity|lia].
  - rewrite Hmsgs, Hweight. split; [reflexivity|exact Hfit].
Qed.

(** X6.  Whatever the stored counts, the messages
    [prepare_context_for_model] returns are the messages of the [k] most
    recent exchanges of the history, for some [k]: every one is a [user] or
    an [assistant] message with a non-empty content, in the order of the
    history.  (The window is positive, as above.) *)
Theorem prepare_context_messages_of_newest :
  forall (full_history : list entry) (user_input mode : str)
         (context_window minimum_exchanges : Z) (ctx : Unified.context),
    (0 < context_window)%Z ->
    Unified.prepare_context_for_model full_history user_input mode context_window
      minimum_exchanges = Ok ctx ->
    (exists k : nat,
       (k <= length full_history)%nat
       /\ Unified.context_messages ctx
          = Unified._build_context_messages (Unified.newest k full_history))
    /\ Forall (fun m =>
                 match m with
                 | Message role text =>
                     (role = "user"%string \/ role = "assistant"%string)
                     /\ text <> []
                 | Exchange _ _ _ => False
                 end)
              (Unified.context_messages ctx).
Proof.
  intros full_history user_input mode context_window minimum_exchanges ctx _ Hctx.
  apply prepare_context_inv in Hctx. cbv zeta in Hctx.
  destruct Hctx as [_ Hmsgs].
  set (budget := conversation_memory (Unified.context_budgets ctx)) in *.
  destruct (within_budget_newest full_history budget minimum_exchanges)
    as (k & Hk & Hkept).
  rewrite Hkept in Hmsgs.
  assert (Hsome : exists k : nat,
            (k <= length full_history)%nat
            /\ Unified.context_messages ctx
               = Unified._build_context_messages (Unified.newest k full_history)).
  { destruct (budget <? _)%Z.
    - destruct (Z.leb_spec budget 0) as [H0|Hpos].
      + rewrite trim_conversation_no_budget in Hmsgs by exact H0.
        exists 0%nat. split; [lia|]. rewrite Hmsgs.
        unfold Unified.newest. rewrite Nat.sub_0_r, skipn_all. reflexivity.
      + rewrite retrim_of_messages_is_identity in Hmsgs;
          [|apply context_messages_are_messages|exact Hpos].
        exists k. split; assumption.
    - exists k. split; assumption. }
  split; [exact Hsome|].
  destruct Hsome as (k' & _ & ->).
  unfold Unified._build_context_messages.
  induction (Unified.newest k' full_history) as [|e l IH]; [constructor|].
  cbn [flat_map]. apply Forall_app. split; [|exact IH].
  destruct e as [ts u a|role text]; [|constructor].
  apply Forall_app. split.
  - destruct u as [[[[|x c]|] t]|]; cbn [Unified.truthy_content];
      try apply Forall_nil.
    apply Forall_cons; [|apply Forall_nil].
    split; [left; reflexivity|discriminate].
  - destruct a as [[[[|x c]|] t]|]; cbn [Unified.truthy_content];
      try apply Forall_nil.
    apply Forall_cons; [|apply Forall_nil].
    split; [right; reflexivity|discriminate].
Qed.

End PreparedContext.

(** ** The memory files ([model_specific_memory.py]) *)

Section MemoryFiles.
Variable hashed_name : string -> string.

Lemma filter_filter {A : Type} (p : A -> bool) (l : list A) :
  filter p (filter p l) = filter p l.
Proof.
  induction l as [|x l IH]; [reflexivity|].
  simpl. destruct (p x) eqn:Hp; [|exact IH].
  simpl. rewrite Hp, IH. reflexivity.
Qed.

Lemma write_same (fs : ModelSpecificMemory.files) (file : string)
  (m : ModelSpecificMemory.memory) :
  ModelSpecificMemory.write fs file m file = Some m.
Proof. unfold ModelSpecificMemory.write. rewrite String.eqb_refl. reflexivity. Qed.

Lemma write_other (fs : ModelSpecificMemory.files) (file other : string)
  (m : ModelSpecificMemory.memory) :
  other <> file -> ModelSpecificMemory.write fs file m other = fs other.
Proof.
  intros H. unfold ModelSpecificMemory.write.
  destruct (String.eqb_spec other file); [contradiction|reflexivity].
Qed.

Lemma load_memory_conversation (fs : ModelSpecificMemory.files) (name : string)
  (now : ModelSpecificMemory.clock) :
  ModelSpecificMemory.current_conversation
    (ModelSpecificMemory.load_memory hashed_name fs name now)
  = ModelSpecificMemory.held fs (ModelSpecificMemory._model_to_filename hashed_name name).
Proof.
  unfold ModelSpecificMemory.load_memory, ModelSpecificMemory.held.
  destruct (fs _); reflexivity.
Qed.

Lemma load_memory_summaries (fs : ModelSpecificMemory.files) (name : string)
  (now : ModelSpecificMemory.clock) :
  ModelSpecificMemory.summarized_conversations
    (ModelSpecificMemory.load_memory hashed_name fs name now)
  = match fs (ModelSpecificMemory._model_to_filename hashed_name name) with
    | None => []
    | Some m => ModelSpecificMemory.summarized_conversations m
    end.
Proof.
  unfold ModelSpecificMemory.load_memory.
  destruct (fs _); reflexivity.
Qed.

Lemma held_valid (fs : ModelSpecificMemory.files) (file : string) :
  filter ModelSpecificMemory.valid_exchange (ModelSpecificMemory.held fs file) = ModelSpecificMemory.held fs file.
Proof.
  unfold ModelSpecificMemory.held. destruct (fs file); [apply filter_filter|reflexivity].
Qed.

(** What [save_memory] writes. *)
Lemma save_memory_writes (fs : ModelSpecificMemory.files) (name : string)
  (memory_data : ModelSpecificMemory.memory) (now : ModelSpecificMemory.clock) :
  exists written : ModelSpecificMemory.memory,
    ModelSpecificMemory.save_memory hashed_name fs name memory_data now
    = (ModelSpecificMemory.write fs
         (ModelSpecificMemory._model_to_filename hashed_name name) written, true)
    /\ ModelSpecificMemory.current_conversation written
       = filter ModelSpecificMemory.valid_exchange
                (ModelSpecificMemory.current_conversation memory_data)
    /\ ModelSpecificMemory.summarized_conversations written
       = ModelSpecificMemory.summarized_conversations memory_data
    /\ ModelSpecificMemory.model (ModelSpecificMemory.meta written) = name
    /\ ModelSpecificMemory.last_modified (ModelSpecificMemory.meta written)
       = ModelSpecificMemory.at_save now
    /\ ModelSpecificMemory.created_at (ModelSpecificMemory.meta written)
       = ModelSpecificMemory.created_at (ModelSpecificMemory.meta memory_data)
    /\ ModelSpecificMemory.total_exchanges (ModelSpecificMemory.meta written)
       = Z.of_nat (length (ModelSpecificMemory.current_conversation written)).
Proof.
  unfold ModelSpecificMemory.save_memory, ModelSpecificMemory._validate_memory_structure.
  eexists. split; [reflexivity|].
  cbn. destruct (String.eqb _ _); cbn; repeat split; reflexivity.
Qed.

Lemma held_after_save (fs : ModelSpecificMemory.files) (name : string)
  (memory_data : ModelSpecificMemory.memory) (now : ModelSpecificMemory.clock) :
  ModelSpecificMemory.held (fst (ModelSpecificMemory.save_memory hashed_name fs name memory_data now))
       (ModelSpecificMemory._model_to_filename hashed_name name)
  = filter ModelSpecificMemory.valid_exchange
           (ModelSpecificMemory.current_conversation memory_data).
Proof.
  destruct (save_memory_writes fs name memory_data now) as (w & -> & Hc & _).
  cbn [fst]. unfold ModelSpecificMemory.held. rewrite write_same, Hc. apply filter_filter.
Qed.

Lemma held_elsewhere_after_save (fs : ModelSpecificMemory.files) (name : string)
  (memory_data : ModelSpecificMemory.memory) (now : ModelSpecificMemory.clock)
  (file : string) :
  file <> ModelSpecificMemory._model_to_filename hashed_name name ->
  fst (ModelSpecificMemory.save_memory hashed_name fs name memory_data now) file
  = fs file.
Proof.
  intros H.
  destruct (save_memory_writes fs name memory_data now) as (w & -> & _).
  cbn [fst]. apply write_other. exact H.
Qed.

Lemma held_after_add (fs : ModelSpecificMemory.files) (name : string)
  (user_content assistant_content : str) (user_tokens assistant_tokens : option Z)
  (now : ModelSpecificMemory.clock) :
  let file := ModelSpecificMemory._model_to_filename hashed_name name in
  let after :=
    ModelSpecificMemory.add_exchange hashed_name fs name user_content
      assistant_content user_tokens assistant_tokens now in
  snd after = true
  /\ ModelSpecificMemory.held (fst after) file
     = ModelSpecificMemory.held fs file
       ++ [ModelSpecificMemory.appended now user_content assistant_content user_tokens assistant_tokens]
  /\ forall other, other <> file -> fst after other = fs other.
Proof.
  cbv zeta. unfold ModelSpecificMemory.add_exchange.
  split; [|split].
  - destruct (save_memory_writes fs name
                (ModelSpecificMemory.set_current
                   (ModelSpecificMemory.load_memory hashed_name fs name now)
                   (ModelSpecificMemory.current_conversation
                      (ModelSpecificMemory.load_memory hashed_name fs name now)
                    ++ [ModelSpecificMemory.appended now user_content assistant_content
                          user_tokens assistant_tokens])) now) as (w & Hs & _).
    unfold ModelSpecificMemory.appended in Hs. rewrite Hs. reflexivity.
  - rewrite held_after_save. cbn [ModelSpecificMemory.set_current
                                  ModelSpecificMemory.current_conversation].
    rewrite load_memory_conversation, filter_app, held_valid. reflexivity.
  - intros other Hother. apply held_elsewhere_after_save. exact Hother.
Qed.

Lemma history_is_held (fs : ModelSpecificMemory.files) (name : string)
  (now : ModelSpecificMemory.clock) :
  ModelSpecificMemory.get_conversation_history hashed_name fs name None now
  = ModelSpecificMemory.held fs (ModelSpecificMemory._model_to_filename hashed_name name).
Proof.
  unfold ModelSpecificMemory.get_conversation_history.
  apply load_memory_conversation.
Qed.

Lemma history_of_held (fs fs' : ModelSpecificMemory.files) (name name' : string)
  (max_exchanges : option Z) (now now' : ModelSpecificMemory.clock) :
  ModelSpecificMemory.held fs (ModelSpecificMemory._model_to_filename hashed_name name)
  = ModelSpecificMemory.held fs' (ModelSpecificMemory._model_to_filename hashed_name name') ->
  ModelSpecificMemory.get_conversation_history hashed_name fs name max_exchanges now
  = ModelSpecificMemory.get_conversation_history hashed_name fs' name'
      max_exchanges now'.
Proof.
  intros H. unfold ModelSpecificMemory.get_conversation_history.
  rewrite !load_memory_conversation, H. reflexivity.
Qed.


(** X8.  Models whose file names differ do not see each other's changes:
    neither [add_exchange] nor [clear_conversation] on one changes the
    history of the other. *)
Theorem other_models_are_untouched :
  forall (fs : ModelSpecificMemory.files) (name other : string)
         (user_content assistant_content : str)
         (user_tokens assistant_tokens : option Z) (max_exchanges : option Z)
         (now later : ModelSpecificMemory.clock),
    ModelSpecificMemory._model_to_filename hashed_name other
    <> ModelSpecificMemory._model_to_filename hashed_name name ->
    ModelSpecificMemory.get_conversation_history hashed_name
      (fst (ModelSpecificMemory.add_exchange hashed_name fs name user_content
              assistant_content user_tokens assistant_tokens now))
      other max_exchanges later
    = ModelSpecificMemory.get_conversation_history hashed_name fs other
        max_exchanges later
    /\ ModelSpecificMemory.get_conversation_history hashed_name
         (fst (ModelSpecificMemory.clear_conversation hashed_name fs name now))
         other max_exchanges later
       = ModelSpecificMemory.get_conversation_history hashed_name fs other
           max_exchanges later.
Proof.
  intros fs name other user_content assistant_content user_tokens assistant_tokens
         max_exchanges now later Hfiles.
  split; apply history_of_held; unfold ModelSpecificMemory.held.
  - destruct (held_after_add fs name user_content assistant_content user_tokens
                assistant_tokens now) as (_ & _ & Hother).
    rewrite (Hother _ Hfiles). reflexivity.
  - unfold ModelSpecificMemory.clear_conversation.
    rewrite held_elsewhere_after_save by exact Hfiles. reflexivity.
Qed.


(** X10.  [max_exchanges]: a positive [k] returns the last [min(k, n)]
    exchanges of the [n] stored ones; zero or a negative number returns the
    whole history, as [None] does. *)
Theorem history_max_exchanges :
  forall (fs : ModelSpecificMemory.files) (name : string) (k : Z)
         (now : ModelSpecificMemory.clock),
    let whole :=
      ModelSpecificMemory.get_conversation_history hashed_name fs name None now in
    let recent :=
      ModelSpecificMemory.get_conversation_history hashed_name fs name (Some k) now in
    ((k <= 0)%Z -> recent = whole)
    /\ ((0 < k)%Z ->
        (exists older, whole = older ++ recent)
        /\ Z.of_nat (length recent) = Z.min k (Z.of_nat (length whole))).
Proof.
  intros fs name k now whole recent. subst whole recent.
  unfold ModelSpecificMemory.get_conversation_history.
  set (conversation := ModelSpecificMemory.current_conversation _).
  split; intros Hk.
  - destruct (Z.ltb_spec 0 k); [lia|reflexivity].
  - destruct (Z.ltb_spec 0 k); [|lia].
    unfold Unified.last_n, Unified.newest. split.
    + exists (firstn (length conversation - Z.to_nat k) conversation).
      symmetry. apply firstn_skipn.
    + rewrite length_skipn. lia.
Qed.

(** X11.  [clear_conversation] always succeeds and leaves an empty history;
    a history of [n > 0] exchanges adds exactly one summary, which records
    [n] and the timestamps of the first and of the last exchange, and an
    empty history adds none. *)
Theorem clear_conversation_summarizes :
  forall (fs : ModelSpecificMemory.files) (name : string)
         (now later : ModelSpecificMemory.clock),
    let history :=
      ModelSpecificMemory.get_conversation_history hashed_name fs name None now in
    let after := ModelSpecificMemory.clear_conversation hashed_name fs name now in
    snd after = true
    /\ ModelSpecificMemory.get_conversation_history hashed_name (fst after) name
         None later = []
    /\ ModelSpecificMemory.summarized_conversations
         (ModelSpecificMemory.load_memory hashed_name (fst after) name later)
       = ModelSpecificMemory.summarized_conversations
           (ModelSpecificMemory.load_memory hashed_name fs name now)
         ++ match history with
            | [] => []
            | first :: _ =>
                [{| ModelSpecificMemory.summarized_at :=
                      ModelSpecificMemory.at_summary now;
                    ModelSpecificMemory.exchange_count :=
                      Z.of_nat (length history);
                    ModelSpecificMemory.date_start :=
                      ModelSpecificMemory.timestamp_of first;
                    ModelSpecificMemory.date_end :=
                      ModelSpecificMemory.timestamp_of (last history first) |}]
            end.
Proof.
  intros fs name now later history after. subst history after.
  unfold ModelSpecificMemory.clear_conversation.
  set (loaded := ModelSpecificMemory.load_memory hashed_name fs name now).
  match goal with
  | |- context [ModelSpecificMemory.save_memory _ _ _ ?m _] => set (cleared := m)
  end.
  destruct (save_memory_writes fs name cleared now) as (w & Hs & Hc & Hsum & _).
  rewrite Hs. cbn [fst snd].
  split; [reflexivity|]. split.
  - rewrite history_is_held. unfold ModelSpecificMemory.held. rewrite write_same, Hc. reflexivity.
  - rewrite load_memory_summaries, write_same, Hsum.
    subst cleared. cbn [ModelSpecificMemory.summarized_conversations].
    unfold ModelSpecificMemory.get_conversation_history. fold loaded.
    destruct (ModelSpecificMemory.current_conversation loaded);
      [rewrite app_nil_r|]; reflexivity.
Qed.


End MemoryFiles.

(** ** Adding exchanges through the unified manager
    ([unified_memory_manager.py]) *)

Section UnifiedExchanges.
Context {F : Type} {FA : PyFloat F}.
Variable hashed_name : string -> string.



End UnifiedExchanges.

(** ** The context of a request ([memai.py]) *)

Section RequestContext.
Context {F : Type} {FA : PyFloat F}.




(** X16.  Trimming to the context window is idempotent. *)
Theorem trim_to_context_window_is_idempotent :
  forall (exchanges : list Memai.exchange) (context_window : Z),
    Memai._trim_to_context_window
      (Memai._trim_to_context_window exchanges context_window) context_window
    = Memai._trim_to_context_window exchanges context_window.
Proof.
  intros exchanges context_window.
  induction exchanges as [|e l IH]; [reflexivity|].
  destruct l as [|e2 l2]; [reflexivity|].
  cbn [Memai._trim_to_context_window].
  destruct (Memai.within_window (e :: e2 :: l2) context_window) eqn:Hfit.
  - cbn [Memai._trim_to_context_window]. rewrite Hfit. reflexivity.
  - exact IH.
Qed.

End RequestContext.

(** ** The properties on concrete inputs *)

Lemma trim_to_budget_is_monotone_witness :
  (1200 <= 2500)%Z
  /\ exists older,
       Unified._trim_conversation_to_budget (FA := Binary64) Scenario.five_of_500 2500
       = older
         ++ Unified._trim_conversation_to_budget (FA := Binary64)
              Scenario.five_of_500 1200.
Proof.
  assert (Hle : (1200 <= 2500)%Z) by (vm_compute; discriminate).
  split; [exact Hle|].
  exact (@trim_to_budget_is_monotone float Binary64 Scenario.five_of_500 1200 2500
           Hle).
Defined.

Lemma trim_to_budget_keeps_what_fits_witness :
  Scenario.five_of_500 <> []
  /\ (0 < 2500)%Z
  /\ Forall (fun e => (0 <= Unified._estimate_exchange_tokens (FA := Binary64) e)%Z)
            Scenario.five_of_500
  /\ (Unified._trim_conversation_to_budget (FA := Binary64) Scenario.five_of_500 2500
      = Scenario.five_of_500
      <-> (Unified.tokens_of (FA := Binary64) Scenario.five_of_500 <= 2500)%Z).
Proof.
  assert (Hne : Scenario.five_of_500 <> []) by (vm_compute; discriminate).
  assert (Hpos : (0 < 2500)%Z) by reflexivity.
  assert (Hall : Forall (fun e => (0 <= Unified._estimate_exchange_tokens
                                          (FA := Binary64) e)%Z)
                        Scenario.five_of_500).
  { repeat (apply Forall_cons; [vm_compute; discriminate|]). apply Forall_nil. }
  split; [exact Hne|]. split; [exact Hpos|]. split; [exact Hall|].
  exact (@trim_to_budget_keeps_what_fits float Binary64 Scenario.five_of_500 2500
           Hne Hpos Hall).
Defined.

Lemma prepare_context_fits_memory_budget_witness :
  Forall (UnifiedMemoryManager.counted_by_estimate (FA := Binary64))
         StoredScenario.counted_history
  /\ (0 < 1000)%Z
  /\ (0 <= 0)%Z
  /\ exists ctx : Unified.context,
       Unified.prepare_context_for_model (FA := Binary64)
         StoredScenario.counted_history Scenario.hi Scenario.chat 1000 0 = Ok ctx
       /\ Unified.context_messages ctx
          = Unified._build_context_messages
              (Unified._trim_conversation_to_budget (FA := Binary64)
                 StoredScenario.counted_history
                 (conversation_memory (Unified.context_budgets ctx)))
       /\ (TokenCounter.estimate_conversation_tokens (FA := Binary64)
             Unified.token_counter (Unified.context_messages ctx)
           <= Z.max 0 (conversation_memory (Unified.context_budgets ctx)))%Z.
Proof.
  assert (Hall : Forall (UnifiedMemoryManager.counted_by_estimate (FA := Binary64))
                        StoredScenario.counted_history).
  { repeat (apply Forall_cons;
            [split; eexists; (split; reflexivity)|]).
    apply Forall_nil. }
  assert (HW : (0 < 1000)%Z) by reflexivity.
  assert (Hmin : (0 <= 0)%Z) by reflexivity.
  assert (Hctx : exists ctx : Unified.context,
            Unified.prepare_context_for_model (FA := Binary64)
              StoredScenario.counted_history Scenario.hi Scenario.chat 1000 0 = Ok ctx).
  { eexists. vm_compute. reflexivity. }
  destruct Hctx as [ctx Hctx].
  split; [exact Hall|]. split; [exact HW|]. split; [exact Hmin|].
  exists ctx. split; [exact Hctx|].
  exact (@prepare_context_fits_memory_budget float Binary64
           StoredScenario.counted_history Scenario.hi Scenario.chat 1000 0 ctx
           Hall HW Hmin Hctx).
Defined.

Lemma prepare_context_messages_of_newest_witness :
  (0 < 1000)%Z
  /\ exists ctx : Unified.context,
       Unified.prepare_context_for_model (FA := Binary64)
         Scenario.undercounted_history Scenario.hi Scenario.chat 1000 0 = Ok ctx
       /\ (exists k : nat,
             (k <= length Scenario.undercounted_history)%nat
             /\ Unified.context_messages ctx
                = Unified._build_context_messages
                    (Unified.newest k Scenario.undercounted_history))
       /\ Forall (fun m =>
                    match m with
                    | Message role text =>
                        (role = "user"%string \/ role = "assistant"%string)
                        /\ text <> []
                    | Exchange _ _ _ => False
                    end)
                 (Unified.context_messages ctx).
Proof.
  assert (HW : (0 < 1000)%Z) by reflexivity.
  assert (Hctx : exists ctx : Unified.context,
            Unified.prepare_context_for_model (FA := Binary64)
              Scenario.undercounted_history Scenario.hi Scenario.chat 1000 0 = Ok ctx).
  { eexists. vm_compute. reflexivity. }
  destruct Hctx as [ctx Hctx].
  split; [exact HW|].
  exists ctx. split; [exact Hctx|].
  exact (@prepare_context_messages_of_newest float Binary64
           Scenario.undercounted_history Scenario.hi Scenario.chat 1000 0 ctx
           HW Hctx).
Defined.

Lemma other_models_are_untouched_witness :
  ModelSpecificMemory._model_to_filename StoredScenario.file_of "qwen"
  <> ModelSpecificMemory._model_to_filename StoredScenario.file_of "llama"
  /\ ModelSpecificMemory.get_conversation_history StoredScenario.file_of
       (fst (ModelSpecificMemory.add_exchange StoredScenario.file_of
               ModelSpecificMemory.no_files "llama" Scenario.hi Scenario.hi
               None None StoredScenario.at_t1))
       "qwen" None StoredScenario.at_t1
     = ModelSpecificMemory.get_conversation_history StoredScenario.file_of
         ModelSpecificMemory.no_files "qwen" None StoredScenario.at_t1
  /\ ModelSpecificMemory.get_conversation_history StoredScenario.file_of
       (fst (ModelSpecificMemory.clear_conversation StoredScenario.file_of
               ModelSpecificMemory.no_files "llama" StoredScenario.at_t1))
       "qwen" None StoredScenario.at_t1
     = ModelSpecificMemory.get_conversation_history StoredScenario.file_of
         ModelSpecificMemory.no_files "qwen" None StoredScenario.at_t1.
Proof.
  assert (Hfiles :
    ModelSpecificMemory._model_to_filename StoredScenario.file_of "qwen"
    <> ModelSpecificMemory._model_to_filename StoredScenario.file_of "llama")
    by (vm_compute; discriminate).
  split; [exact Hfiles|].
  exact (@other_models_are_untouched StoredScenario.file_of
           ModelSpecificMemory.no_files "llama"%string "qwen"%string Scenario.hi Scenario.hi
           None None None StoredScenario.at_t1 StoredScenario.at_t1 Hfiles).
Defined.


(** ** The history with both limits ([unified_memory_manager.py]) *)

Section UnifiedHistory.
Context {F : Type} {FA : PyFloat F}.
Variable hashed_name : string -> string.

(** X21.  [get_conversation_history] with both limits returns a suffix of
    the stored history that has at most [max_exchanges] exchanges (for a
    positive [max_exchanges]), whose token total is at most a positive
    [max_tokens], and which is empty when [max_tokens] is zero or
    negative. *)
Theorem unified_history_respects_limits :
  forall (fs : ModelSpecificMemory.files) (name : string)
         (max_exchanges : option Z) (max_tokens : Z)
         (now : ModelSpecificMemory.clock),
    let whole :=
      UnifiedMemoryManager.get_conversation_history hashed_name fs name None None
        now in
    let limited :=
      UnifiedMemoryManager.get_conversation_history hashed_name fs name
        max_exchanges (Some max_tokens) now in
    (exists older, whole = older ++ limited)
    /\ (forall k, max_exchanges = Some k -> (0 < k)%Z ->
        (Z.of_nat (length limited) <= k)%Z)
    /\ ((0 < max_tokens)%Z -> (Unified.tokens_of limited <= max_tokens)%Z)
    /\ ((max_tokens <= 0)%Z -> limited = []).
Proof.
  intros fs name max_exchanges max_tokens now whole limited.
  subst whole limited. unfold UnifiedMemoryManager.get_conversation_history.
  set (whole := ModelSpecificMemory.get_conversation_history hashed_name fs name
                  None now).
  set (recent := ModelSpecificMemory.get_conversation_history hashed_name fs name
                   max_exchanges now).
  assert (Hrecent : exists j, (j <= length whole)%nat
                              /\ recent = Unified.newest j whole
                              /\ forall k, max_exchanges = Some k -> (0 < k)%Z ->
                                           (Z.of_nat j <= k)%Z).
  { subst recent whole. unfold ModelSpecificMemory.get_conversation_history.
    set (conversation := ModelSpecificMemory.current_conversation _).
    destruct max_exchanges as [k|].
    - destruct (Z.ltb_spec 0 k) as [Hk|Hk].
      + exists (Nat.min (Z.to_nat k) (length conversation)).
        split; [lia|]. split.
        * unfold Unified.last_n, Unified.newest. f_equal. lia.
        * intros k' Hk' _. injection Hk' as <-. lia.
      + exists (length conversation). split; [lia|]. split.
        * symmetry. apply newest_all.
        * intros k' Hk' Hpos. injection Hk' as <-. lia.
    - exists (length conversation). split; [lia|]. split.
      + symmetry. apply newest_all.
      + intros k' Hk'. discriminate. }
  destruct Hrecent as (j & Hj & Hrec & Hmax).
  destruct (trim_conversation_newest recent max_tokens) as (i & Hi & Htrim).
  rewrite Hrec in Hi, Htrim. rewrite newest_length in Hi by exact Hj.
  rewrite newest_newest in Htrim by assumption.
  rewrite Hrec, Htrim.
  split; [|split; [|split]].
  - destruct (@newest_suffix i (length whole) whole ltac:(lia) ltac:(lia))
      as (older & Hsuffix).
    rewrite newest_all in Hsuffix. exists older. exact Hsuffix.
  - intros k Hk Hpos. specialize (Hmax k Hk Hpos).
    rewrite newest_length by lia. lia.
  - intros Hpos. rewrite <- Htrim.
    destruct (Unified.newest j whole) as [|e rest] eqn:Hconv; [simpl; lia|].
    destruct (@trim_conversation_spec _ _ (e :: rest) max_tokens)
      as (i' & Hi' & Heq & Hfit & _); [discriminate|exact Hpos|].
    rewrite Heq. apply Hfit. lia.
  - intros Hneg. rewrite <- Htrim. apply trim_conversation_no_budget. exact Hneg.
Qed.

End UnifiedHistory.

(** ** The interaction mode ([adaptive_budget_manager.py]) *)

Section ModeNames.
Context {F : Type} {FA : PyFloat F}.

(** X22.  The budget table is chosen by the lower-cased mode name, the
    complexity boost of tools mode by the name as it is given: for a name
    such as ["TOOLS"], which is not ["tools"] but lower-cases to it, the
    complexity is the one of chat mode and the allocation is the one of the
    tools table for that complexity. *)
Theorem tools_boost_is_case_sensitive :
  forall (user_input mode : str) (context_window minimum_memory_needed : Z),
    PyStr.eqb (lower mode) (of_string "tools") = true ->
    PyStr.eqb mode (of_string "tools") = false ->
    AdaptiveBudget.analyze_complexity user_input mode
    = AdaptiveBudget.analyze_complexity user_input (of_string "chat")
    /\ AdaptiveBudget.calculate_adaptive_budgets context_window mode user_input
         minimum_memory_needed
       = (complexity <- AdaptiveBudget.analyze_complexity user_input
                          (of_string "chat") ;;
          percentages <- AdaptiveBudget.adaptive_percentages AdaptiveBudget.TOOLS
                           complexity ;;
          b <- AdaptiveBudget.absolute_budgets context_window percentages ;;
          AdaptiveBudget.enforce_minimum_memory context_window
            minimum_memory_needed b).
Proof.
  intros user_input mode context_window minimum_memory_needed Hlower Hexact.
  assert (Hsame : AdaptiveBudget.analyze_complexity user_input mode
                  = AdaptiveBudget.analyze_complexity user_input (of_string "chat")).
  { unfold AdaptiveBudget.analyze_complexity. rewrite Hexact.
    destruct user_input; reflexivity. }
  split; [exact Hsame|].
  unfold AdaptiveBudget.calculate_adaptive_budgets, AdaptiveBudget.initial_budgets,
         AdaptiveBudget.interaction_mode_of.
  rewrite Hlower, Hsame.
  destruct (AdaptiveBudget.analyze_complexity user_input (of_string "chat"));
    cbn [bind]; [|reflexivity].
  destruct (AdaptiveBudget.adaptive_percentages AdaptiveBudget.TOOLS a);
    cbn [bind]; reflexivity.
Qed.

End ModeNames.

Lemma tools_boost_is_case_sensitive_witness :
  PyStr.eqb (lower (of_string "TOOLS")) (of_string "tools") = true
  /\ PyStr.eqb (of_string "TOOLS") (of_string "tools") = false
  /\ AdaptiveBudget.analyze_complexity (FA := Binary64) Scenario.hi (of_string "TOOLS")
     = AdaptiveBudget.analyze_complexity (FA := Binary64) Scenario.hi
         (of_string "chat")
  /\ AdaptiveBudget.calculate_adaptive_budgets (FA := Binary64) 1000
       (of_string "TOOLS") Scenario.hi 0
     = (complexity <- AdaptiveBudget.analyze_complexity (FA := Binary64) Scenario.hi
                        (of_string "chat") ;;
        percentages <- AdaptiveBudget.adaptive_percentages AdaptiveBudget.TOOLS
                         complexity ;;
        b <- AdaptiveBudget.absolute_budgets 1000 percentages ;;
        AdaptiveBudget.enforce_minimum_memory 1000 0 b).
Proof.
  assert (Hlower : PyStr.eqb (lower (of_string "TOOLS")) (of_string "tools") = true)
    by reflexivity.
  assert (Hexact : PyStr.eqb (of_string "TOOLS") (of_string "tools") = false)
    by reflexivity.
  split; [exact Hlower|]. split; [exact Hexact|].
  exact (@tools_boost_is_case_sensitive float Binary64 Scenario.hi
           (of_string "TOOLS") 1000 0 Hlower Hexact).
Defined.

(** ** Loaded memories and the deep validation ([safety_validator.py]) *)

Section LoadedMemory.
Variable hashed_name : string -> string.

Lemma validate_conversation_of_valid (conversation : list entry) :
  Forall (fun exchange => ModelSpecificMemory.valid_exchange exchange = true)
         conversation ->
  forall index,
    fst (SafetyValidator._validate_conversation_from index conversation) = [].
Proof.
  induction 1 as [|e l He _ IH]; intros index; [reflexivity|].
  cbn [SafetyValidator._validate_conversation_from].
  specialize (IH (S index)).
  destruct (SafetyValidator._validate_conversation_from (S index) l)
    as [errors warnings].
  cbn [fst] in IH. subst errors.
  destruct e as [ts [u|] [a|]|role text]; try discriminate He. reflexivity.
Qed.

Lemma filter_all {A : Type} (p : A -> bool) (l : list A) :
  Forall (fun x => p x = true) (filter p l).
Proof.
  induction l as [|x l IH]; simpl; [constructor|].
  destruct (p x) eqn:Hp; [constructor; assumption|exact IH].
Qed.

(** X25.  Whatever the memory file holds, the memory [load_memory] returns
    passes [validate_memory_structure] for that model: the validation adds
    no error and reports that it passed. *)
Theorem loaded_memory_passes_deep_validation :
  forall (fs : ModelSpecificMemory.files) (name : string)
         (now : ModelSpecificMemory.clock),
    let r :=
      SafetyValidator.validate_memory_structure
        (ModelSpecificMemory.load_memory hashed_name fs name now) name in
    SafetyValidator.memory_is_valid r = true
    /\ SafetyValidator.memory_errors r = []
    /\ SafetyValidator.memory_info r
       = [SafetyValidator.MemoryStructureValidationPassed].
Proof.
  intros fs name now r. subst r.
  unfold SafetyValidator.validate_memory_structure,
         SafetyValidator._validate_conversation.
  destruct (SafetyValidator._validate_metadata _ name) as [mw mi].
  rewrite load_memory_conversation.
  pose proof (@validate_conversation_of_valid
                (ModelSpecificMemory.held fs
                   (ModelSpecificMemory._model_to_filename hashed_name name))) as H.
  assert (Hvalid : Forall (fun exchange =>
                             ModelSpecificMemory.valid_exchange exchange = true)
                          (ModelSpecificMemory.held fs
                             (ModelSpecificMemory._model_to_filename hashed_name name))).
  { unfold ModelSpecificMemory.held. destruct (fs _); [apply filter_all|constructor]. }
  specialize (H Hvalid 0%nat).
  destruct (SafetyValidator._validate_conversation_from 0 _) as [errors warnings].
  cbn [fst] in H. subst errors.
  repeat split; reflexivity.
Qed.

End LoadedMemory.

(** ** Budgets in exact arithmetic ([adaptive_budget_manager.py]) *)

Unset Implicit Arguments.

Section ExactArithmetic.
Local Open Scope R_scope.

Ltac exact_ops :=
  cbn [of_int fadd fsub fmul fdiv fsqrt feqb fltb fleb is_finite to_int Exact] in *.

Ltac pow10 :=
  repeat match goal with
  | |- context [(10 ^ Z.of_nat ?k)%Z] =>
      let v := eval vm_compute in (10 ^ Z.of_nat k)%Z in
      change (10 ^ Z.of_nat k)%Z with v
  | H : context [(10 ^ Z.of_nat ?k)%Z] |- _ =>
      let v := eval vm_compute in (10 ^ Z.of_nat k)%Z in
      change (10 ^ Z.of_nat k)%Z with v in H
  end.

Ltac exact_arith := unfold pymax, pymin, dec in *; exact_ops; pow10.

Lemma Rltb_spec (x y : R) : BoolSpec (x < y) (y <= x) (Rltb x y).
Proof. unfold Rltb. destruct (Rlt_dec x y); constructor; lra. Qed.
Lemma Reqb_spec (x y : R) : BoolSpec (x = y) (x <> y) (Reqb x y).
Proof. unfold Reqb. destruct (Req_dec_T x y); constructor; assumption. Qed.
Lemma Rleb_spec (x y : R) : BoolSpec (x <= y) (y < x) (Rleb x y).
Proof. unfold Rleb. destruct (Rle_dec x y); constructor; lra. Qed.

Ltac case_Rltb :=
  repeat match goal with
  | |- context [Rltb ?a ?b] =>
      lazymatch a with
      | context [Rltb _ _] => fail
      | _ => lazymatch b with
             | context [Rltb _ _] => fail
             | _ => destruct (Rltb_spec a b)
             end
      end
  end.

Lemma length_complexity_bounds (n : Z) :
  1 / 10 <= AdaptiveBudget._calculate_length_complexity (FA := Exact) n <= 9 / 10.
Proof.
  unfold AdaptiveBudget._calculate_length_complexity, AdaptiveBudget.SHORT_QUERY, AdaptiveBudget.MEDIUM_QUERY, AdaptiveBudget.LONG_QUERY.
  exact_arith.
  destruct (Z.leb_spec n 50); [lra|].
  destruct (Z.leb_spec n 150); [lra|].
  destruct (Z.leb_spec n 300); [lra|].
  assert (0 <= IZR (n - 300)) by (apply IZR_le; lia).
  case_Rltb; lra.
Qed.

Lemma fold_left_invariant {A B : Type} (P : A -> Prop) (f : A -> B -> A) (l : list B) :
  (forall acc x, In x l -> P acc -> P (f acc x)) ->
  forall acc, P acc -> P (fold_left f l acc).
Proof.
  induction l as [|x l IH]; intros Hf acc Hacc; simpl; [exact Hacc|].
  apply IH.
  - intros acc' y Hy. apply Hf. right. exact Hy.
  - apply Hf; [left; reflexivity | exact Hacc].
Qed.

Lemma keyword_weights_nonneg :
  Forall (fun kw : str * R => 0 <= snd kw) (AdaptiveBudget.ANALYSIS_KEYWORDS (FA := Exact)).
Proof.
  unfold AdaptiveBudget.ANALYSIS_KEYWORDS. exact_arith.
  repeat constructor; simpl; lra.
Qed.

Lemma keyword_totals_nonneg (text : str) :
  0 <= fst (AdaptiveBudget.keyword_totals (FA := Exact) text).
Proof.
  unfold AdaptiveBudget.keyword_totals.
  apply fold_left_invariant.
  - intros [w n] [kw weight] Hin Hacc. simpl in Hacc.
    pose proof keyword_weights_nonneg as Hall.
    rewrite Forall_forall in Hall. specialize (Hall _ Hin). simpl in Hall.
    destruct (0 <? Z.of_nat (count kw text))%Z; simpl; [|exact Hacc].
    exact_ops.
    pose proof (sqrt_pos (IZR (Z.of_nat (count kw text)))).
    nra.
  - exact_arith. simpl. lra.
Qed.

Lemma keyword_complexity_bounds (text : str) (n : Z) :
  exists k, AdaptiveBudget._calculate_keyword_complexity (FA := Exact) text n = Ok k
            /\ 0 <= k <= 1.
Proof.
  unfold AdaptiveBudget._calculate_keyword_complexity.
  pose proof (keyword_totals_nonneg text) as Hw.
  destruct (AdaptiveBudget.keyword_totals text) as [w c]. simpl in Hw.
  exact_ops.
  destruct (Reqb_spec w 0).
  - eexists; split; [reflexivity|]. exact_arith. lra.
  - unfold py_div. 
    assert (Hd : pymax (of_int 1) (of_int n / of_int 10)%py <> 0).
    { exact_arith. case_Rltb; lra. }
    exact_ops.
    destruct (Reqb_spec (pymax 1 (IZR n / 10)) 0) as [E|_]; [contradiction|].
    simpl bind. eexists; split; [reflexivity|].
    exact_arith. case_Rltb; lra.
Qed.

Lemma code_complexity_bounds (text : str) :
  0 <= AdaptiveBudget._calculate_code_complexity (FA := Exact) text <= 1.
Proof.
  unfold AdaptiveBudget._calculate_code_complexity.
  set (score := fold_left _ _ _).
  assert (Hs : 0 <= score).
  { subst score. apply fold_left_invariant.
    - intros acc [pattern is_block] _ Hacc.
      destruct (Z.ltb_spec 0 (Z.of_nat (findall pattern text))) as [Hpos|_];
        [|exact Hacc].
      apply IZR_lt in Hpos.
      destruct is_block; exact_arith; lra.
    - exact_arith. lra. }
  exact_arith. case_Rltb; lra.
Qed.

Lemma question_weights_nonneg :
  Forall (fun q : str * R => 0 <= snd q) (AdaptiveBudget.QUESTION_INDICATORS (FA := Exact)).
Proof.
  unfold AdaptiveBudget.QUESTION_INDICATORS. exact_arith.
  repeat constructor; simpl; lra.
Qed.

Lemma question_complexity_bounds (text : str) :
  0 <= AdaptiveBudget._calculate_question_complexity (FA := Exact) text <= 1.
Proof.
  unfold AdaptiveBudget._calculate_question_complexity.
  set (score := fold_left _ _ _).
  assert (Hs : 0 <= score).
  { subst score. apply fold_left_invariant.
    - intros acc [indicator weight] Hin Hacc.
      pose proof question_weights_nonneg as Hall.
      rewrite Forall_forall in Hall. specialize (Hall _ Hin). simpl in Hall.
      destruct (contains indicator text); [|exact Hacc].
      exact_ops. lra.
    - exact_arith. lra. }
  destruct (1 <? _)%Z; exact_arith; case_Rltb; lra.
Qed.

(** [analyze_complexity] returns a score between 0.025 and 1. *)
Lemma analyze_complexity_bounds (user_input mode : str) :
  exists c, AdaptiveBudget.analyze_complexity (FA := Exact) user_input mode = Ok c
            /\ 25 / 1000 <= c <= 1.
Proof.
  unfold AdaptiveBudget.analyze_complexity.
  destruct user_input as [|ch rest].
  { eexists; split; [reflexivity|]. exact_arith. lra. }
  set (user_input := ch :: rest).
  destruct (len (lower (strip user_input)) =? 0)%Z.
  { eexists; split; [reflexivity|]. exact_arith. lra. }
  destruct (keyword_complexity_bounds (lower (strip user_input))
              (len (lower (strip user_input)))) as (k & Hk & Hkb).
  rewrite Hk. simpl bind.
  pose proof (length_complexity_bounds (len (lower (strip user_input)))) as Hl.
  pose proof (code_complexity_bounds user_input) as Hc.
  pose proof (question_complexity_bounds (lower (strip user_input))) as Hq.
  set (ls := AdaptiveBudget._calculate_length_complexity _) in *.
  set (cs := AdaptiveBudget._calculate_code_complexity _) in *.
  set (qs := AdaptiveBudget._calculate_question_complexity _) in *.
  eexists; split; [reflexivity|].
  destruct (PyStr.eqb mode (of_string "tools")); exact_arith; case_Rltb; lra.
Qed.

(** [int(x)] in exact arithmetic *)
Lemma Rtrunc_nonneg (x : R) : 0 <= x -> Rtrunc x = Zfloor x /\ (0 <= Rtrunc x)%Z.
Proof.
  intros Hx. unfold Rtrunc. destruct (Rlt_dec x 0); [lra|].
  split; [reflexivity|]. apply Zfloor_lub. simpl. exact Hx.
Qed.

Lemma Rtrunc_le (x y : R) : 0 <= x -> x <= y -> (Rtrunc x <= Rtrunc y)%Z.
Proof.
  intros Hx Hxy.
  destruct (Rtrunc_nonneg x Hx) as [-> _].
  destruct (Rtrunc_nonneg y ltac:(lra)) as [-> _].
  apply Zfloor_le. exact Hxy.
Qed.

(** What [adaptive_percentages] computes when the complexity is not 0: the
    response share moves linearly, the memory share with the square of the
    complexity. *)
Lemma adaptive_percentages_exact (m : AdaptiveBudget.InteractionMode) (c : R) :
  c <> 0 ->
  let base := AdaptiveBudget.base_budgets (FA := Exact) m in
  let r := AdaptiveBudget.adaptive_ranges (FA := Exact) m in
  AdaptiveBudget.adaptive_percentages (FA := Exact) m c
  = Ok {| system_prompt := system_prompt base;
          tool_definitions := tool_definitions base;
          conversation_memory :=
            AdaptiveBudget.memory_max r
            - c * c * (AdaptiveBudget.memory_max r - AdaptiveBudget.memory_min r);
          response_generation :=
            AdaptiveBudget.response_min r
            + c * (AdaptiveBudget.response_max r - AdaptiveBudget.response_min r);
          safety_margin := safety_margin base;
          reserved := reserved base |}.
Proof.
  intros Hc base r. subst base r.
  unfold AdaptiveBudget.adaptive_percentages, py_div.
  exact_ops.
  set (rmin := AdaptiveBudget.response_min _).
  set (rmax := AdaptiveBudget.response_max _).
  set (mmin := AdaptiveBudget.memory_min _).
  set (mmax := AdaptiveBudget.memory_max _).
  assert (Hr : rmax - rmin = 10).
  { subst rmin rmax. destruct m; simpl; exact_arith; lra. }
  assert (Hd : rmin + c * (rmax - rmin) - rmin <> 0).
  { rewrite Hr. intros E. apply Hc. lra. }
  destruct (Reqb_spec (rmin + c * (rmax - rmin) - rmin) 0) as [E|_]; [contradiction|].
  simpl bind.
  assert (Hq : (rmax - rmin) / (rmin + c * (rmax - rmin) - rmin) = / c).
  { rewrite Hr. field. lra. }
  assert (Hq0 : (rmax - rmin) / (rmin + c * (rmax - rmin) - rmin) <> 0).
  { rewrite Hq. apply Rinv_neq_0_compat. exact Hc. }
  destruct (Reqb_spec ((rmax - rmin) / (rmin + c * (rmax - rmin) - rmin)) 0) as [E|_];
    [contradiction|].
  simpl bind. do 2 f_equal.
  rewrite Hq. field. exact Hc.
Qed.

Lemma to_tokens_exact (W : Z) (p : R) :
  AdaptiveBudget.to_tokens (FA := Exact) W p = Ok (Rtrunc (IZR W * (p / 100))).
Proof.
  unfold AdaptiveBudget.to_tokens, py_int. exact_arith.
  replace (1000 / 10) with 100 by lra. reflexivity.
Qed.

(** The allocation before the minimum memory requirement, in exact
    arithmetic: it is always computed, from a complexity of at least 0.025. *)
Lemma initial_budgets_exact (W : Z) (mode user_input : str) :
  let m := AdaptiveBudget.interaction_mode_of mode in
  let base := AdaptiveBudget.base_budgets (FA := Exact) m in
  let r := AdaptiveBudget.adaptive_ranges (FA := Exact) m in
  exists c : R,
    AdaptiveBudget.analyze_complexity (FA := Exact) user_input mode = Ok c
    /\ 25 / 1000 <= c <= 1
    /\ AdaptiveBudget.initial_budgets (FA := Exact) W mode user_input
       = Ok {| system_prompt := Rtrunc (IZR W * (system_prompt base / 100));
               tool_definitions := Rtrunc (IZR W * (tool_definitions base / 100));
               conversation_memory :=
                 Rtrunc (IZR W * ((AdaptiveBudget.memory_max r
                                   - c * c * (AdaptiveBudget.memory_max r
                                              - AdaptiveBudget.memory_min r)) / 100));
               response_generation :=
                 Rtrunc (IZR W * ((AdaptiveBudget.response_min r
                                   + c * (AdaptiveBudget.response_max r
                                          - AdaptiveBudget.response_min r)) / 100));
               safety_margin := Rtrunc (IZR W * (safety_margin base / 100));
               reserved := Rtrunc (IZR W * (reserved base / 100)) |}.
Proof.
  intros m base r.
  destruct (analyze_complexity_bounds user_input mode) as (c & Hc & Hb).
  exists c. split; [exact Hc|]. split; [exact Hb|].
  unfold AdaptiveBudget.initial_budgets. rewrite Hc. simpl bind.
  fold m. rewrite adaptive_percentages_exact by lra. simpl bind.
  unfold AdaptiveBudget.absolute_budgets.
  rewrite !to_tokens_exact. reflexivity.
Qed.

Lemma enforce_minimum_memory_exact (W minimum : Z) (b : budgets) :
  AdaptiveBudget.enforce_minimum_memory (FA := Exact) W minimum b
  = Ok (if (conversation_memory b <? minimum)%Z then
          if (minimum - conversation_memory b <=? reserved b)%Z then
            {| system_prompt := system_prompt b;
               tool_definitions := tool_definitions b;
               conversation_memory := minimum;
               response_generation := response_generation b;
               safety_margin := safety_margin b;
               reserved := (reserved b - (minimum - conversation_memory b))%Z |}
          else
            {| system_prompt := system_prompt b;
               tool_definitions := tool_definitions b;
               conversation_memory := minimum;
               response_generation :=
                 Z.max (Rtrunc (IZR W * (10 / 100)))
                       (response_generation b
                        - (minimum - conversation_memory b - reserved b));
               safety_margin := safety_margin b;
               reserved := Z.max (Rtrunc (IZR W * (2 / 100))) 0 |}
        else b).
Proof.
  unfold AdaptiveBudget.enforce_minimum_memory, py_int. exact_arith.
  destruct (conversation_memory b <? minimum)%Z; [|reflexivity].
  destruct (minimum - conversation_memory b <=? reserved b)%Z; reflexivity.
Qed.

Lemma response_min_at_least_12 (m : AdaptiveBudget.InteractionMode) :
  12 <= AdaptiveBudget.response_min (AdaptiveBudget.adaptive_ranges (FA := Exact) m)
  /\ AdaptiveBudget.response_max (AdaptiveBudget.adaptive_ranges (FA := Exact) m)
     - AdaptiveBudget.response_min (AdaptiveBudget.adaptive_ranges (FA := Exact) m) = 10.
Proof. destruct m; simpl; exact_arith; lra. Qed.

(** The minimum memory override in exact arithmetic: [conversation_memory]
    becomes exactly [m], [reserved] is not negative and
    [response_generation] is at least [int(W * 0.10)]. *)
Theorem minimum_memory_override_over_reals :
  forall (W : Z) (mode user_input : str) (m : Z) (b0 : budgets),
    (0 < W)%Z ->
    (m <= W)%Z ->
    AdaptiveBudget.initial_budgets (FA := Exact) W mode user_input = Ok b0 ->
    (conversation_memory b0 < m)%Z ->
    exists b : budgets,
      AdaptiveBudget.calculate_adaptive_budgets (FA := Exact) W mode user_input m = Ok b
      /\ conversation_memory b = m
      /\ (0 <= reserved b)%Z
      /\ (to_int (FA := Exact) (of_int W * dec 10 2)%py <= response_generation b)%Z.
Proof.
  intros W mode user_input m b0 HW HmW Hinit Hshort.
  unfold AdaptiveBudget.calculate_adaptive_budgets.
  rewrite Hinit. simpl bind. rewrite enforce_minimum_memory_exact.
  eexists. split; [reflexivity|].
  assert (Hten : to_int (FA := Exact) (of_int W * dec 10 2)%py = Rtrunc (IZR W * (10 / 100))).
  { exact_arith. reflexivity. }
  rewrite Hten. clear Hten.
  destruct (Z.ltb_spec (conversation_memory b0) m) as [_|]; [|lia].
  destruct (Z.leb_spec (m - conversation_memory b0) (reserved b0)) as [Hres|Hres];
    cbn [conversation_memory reserved response_generation].
  - repeat split; [lia|].
    destruct (initial_budgets_exact W mode user_input) as (c & _ & Hc & Hb).
    rewrite Hinit in Hb. injection Hb as ->.
    cbn [response_generation].
    destruct (response_min_at_least_12 (AdaptiveBudget.interaction_mode_of mode)) as [Hmin Hrange].
    rewrite Hrange.
    assert (0 < IZR W) by (apply IZR_lt; exact HW).
    apply Rtrunc_le; nra.
  - repeat split; lia.
Qed.

(** In exact arithmetic nothing can overflow, and
    [calculate_adaptive_budgets] returns an allocation for every window:
    [analyze_complexity] returns a score of at least 0.025 (0.1 for the empty
    query), which is not 0, so both divisions of the memory adjustment are
    defined. *)
Theorem calculate_adaptive_budgets_never_raises_over_reals :
  forall (user_input mode : str) (W m : Z),
    (exists b : budgets,
       AdaptiveBudget.calculate_adaptive_budgets (FA := Exact) W mode user_input m = Ok b)
    /\ (exists c : R,
          AdaptiveBudget.analyze_complexity (FA := Exact) user_input mode = Ok c
          /\ 25 / 1000 <= c <= 1
          /\ c <> 0
          /\ exists p, AdaptiveBudget.adaptive_percentages (FA := Exact)
                         (AdaptiveBudget.interaction_mode_of mode) c = Ok p)
    /\ AdaptiveBudget.analyze_complexity (FA := Exact) [] mode = Ok (1 / 10).
Proof.
  intros user_input mode W m. split; [|split].
  - destruct (initial_budgets_exact W mode user_input) as (c & _ & _ & Hinit).
    unfold AdaptiveBudget.calculate_adaptive_budgets.
    rewrite Hinit. simpl bind. rewrite enforce_minimum_memory_exact.
    eexists. reflexivity.
  - destruct (analyze_complexity_bounds user_input mode) as (c & Hc & Hb).
    exists c. split; [exact Hc|]. split; [exact Hb|]. split; [lra|].
    rewrite adaptive_percentages_exact by lra. eexists. reflexivity.
  - simpl. exact_arith. reflexivity.
Qed.

Lemma memory_range_values (m : AdaptiveBudget.InteractionMode) :
  let r := AdaptiveBudget.adaptive_ranges (FA := Exact) m in
  match m with
  | AdaptiveBudget.CHAT =>
      AdaptiveBudget.memory_min r = 38 /\ AdaptiveBudget.memory_max r = 50
  | AdaptiveBudget.TOOLS =>
      AdaptiveBudget.memory_min r = 45 /\ AdaptiveBudget.memory_max r = 55
  end.
Proof. destruct m; simpl; exact_arith; lra. Qed.

(** The memory percentage in exact arithmetic: [memory_max] minus the square
    of the complexity times [memory_max - memory_min].  The linear reduction
    [complexity * (memory_max - memory_min)] is scaled by the fraction of the
    response range in use, which is the complexity again.  It stays within
    the stated range (chat 38 to 50, tools 45 to 55). *)
Theorem memory_percentage_is_quadratic_over_reals :
  forall (user_input mode : str),
    let r := AdaptiveBudget.adaptive_ranges (FA := Exact)
               (AdaptiveBudget.interaction_mode_of mode) in
    exists (c : R) (p : buckets R),
      AdaptiveBudget.analyze_complexity (FA := Exact) user_input mode = Ok c
      /\ AdaptiveBudget.adaptive_percentages (FA := Exact)
           (AdaptiveBudget.interaction_mode_of mode) c = Ok p
      /\ conversation_memory p
         = AdaptiveBudget.memory_max r
           - c * c * (AdaptiveBudget.memory_max r - AdaptiveBudget.memory_min r)
      /\ conversation_memory p
         = AdaptiveBudget.memory_max r
           - c * (AdaptiveBudget.memory_max r - AdaptiveBudget.memory_min r)
             * ((response_generation p - AdaptiveBudget.response_min r)
                / (AdaptiveBudget.response_max r - AdaptiveBudget.response_min r))
      /\ AdaptiveBudget.memory_min r <= conversation_memory p <= AdaptiveBudget.memory_max r
      /\ match AdaptiveBudget.interaction_mode_of mode with
         | AdaptiveBudget.CHAT =>
             AdaptiveBudget.memory_min r = 38 /\ AdaptiveBudget.memory_max r = 50
         | AdaptiveBudget.TOOLS =>
             AdaptiveBudget.memory_min r = 45 /\ AdaptiveBudget.memory_max r = 55
         end.
Proof.
  intros user_input mode r.
  destruct (analyze_complexity_bounds user_input mode) as (c & Hc & Hb).
  exists c. eexists. split; [exact Hc|].
  split; [apply adaptive_percentages_exact; lra|].
  cbn [conversation_memory]. fold r.
  pose proof (memory_range_values (AdaptiveBudget.interaction_mode_of mode)) as Hv.
  cbv zeta in Hv. fold r in Hv.
  cbn [response_generation]. fold r.
  split; [reflexivity|].
  split.
  { destruct (response_min_at_least_12 (AdaptiveBudget.interaction_mode_of mode)) as [_ Hr].
    fold r in Hr. rewrite Hr. field. }
  split; [|exact Hv].
  destruct (AdaptiveBudget.interaction_mode_of mode); destruct Hv as [-> ->]; nra.
Qed.

Lemma two_percent_above_chat_reserve (W : Z) :
  (50 <= W)%Z ->
  (Rtrunc (IZR W * (4 / 10 / 100)) < Rtrunc (IZR W * (2 / 100)))%Z
  /\ (1 <= Rtrunc (IZR W * (2 / 100)))%Z.
Proof.
  intros HW. assert (HWr : 50 <= IZR W) by (apply IZR_le in HW; exact HW).
  destruct (Rtrunc_nonneg (IZR W * (4 / 10 / 100)) ltac:(lra)) as [-> _].
  destruct (Rtrunc_nonneg (IZR W * (2 / 100)) ltac:(lra)) as [-> _].
  split.
  - destruct (Zfloor_bound (IZR W * (4 / 10 / 100))) as [Hlo _].
    destruct (Z_le_gt_dec W 62) as [Hsmall|Hbig].
    + apply IZR_le in Hsmall. rewrite (Zfloor_eq 0 (IZR W * (4 / 10 / 100))) by (simpl; lra).
      apply Z.lt_le_trans with 1%Z; [lia|]. apply Zfloor_lub. simpl. lra.
    + assert (Hbig' : 63 <= IZR W) by (apply IZR_le; lia).
      assert (Zfloor (IZR W * (4 / 10 / 100)) + 1 <= Zfloor (IZR W * (2 / 100)))%Z; [|lia].
      apply Zfloor_lub. rewrite plus_IZR. simpl. lra.
  - apply Zfloor_lub. simpl. lra.
Qed.

Lemma base_reserved_values (m : AdaptiveBudget.InteractionMode) :
  reserved (AdaptiveBudget.base_budgets (FA := Exact) m)
  = match m with AdaptiveBudget.CHAT => 4 / 10 | AdaptiveBudget.TOOLS => 0 end.
Proof. destruct m; simpl; exact_arith; lra. Qed.

(** The second reclaim step in exact arithmetic: [reserved] becomes
    [int(W * 0.02)] and the total of the buckets grows. *)
Theorem reclaim_overwrites_reserved_over_reals :
  forall (W : Z) (mode user_input : str) (m : Z) (b0 : budgets),
    (0 < W)%Z ->
    AdaptiveBudget.initial_budgets (FA := Exact) W mode user_input = Ok b0 ->
    (reserved b0 < m - conversation_memory b0)%Z ->
    exists b : budgets,
      AdaptiveBudget.calculate_adaptive_budgets (FA := Exact) W mode user_input m = Ok b
      /\ reserved b = to_int (FA := Exact) (of_int W * dec 2 2)%py
      /\ (total_allocated b0 + reserved b <= total_allocated b)%Z
      /\ ((50 <= W)%Z -> (total_allocated b0 < total_allocated b)%Z)
      /\ (AdaptiveBudget.interaction_mode_of mode = AdaptiveBudget.CHAT ->
          (50 <= W)%Z -> (reserved b0 < reserved b)%Z).
Proof.
  intros W mode user_input m b0 HW Hinit Hshort.
  assert (HWr : 0 < IZR W) by (apply IZR_lt; exact HW).
  assert (Hres0 : reserved b0
                  = Rtrunc (IZR W * (reserved (AdaptiveBudget.base_budgets (FA := Exact)
                                       (AdaptiveBudget.interaction_mode_of mode)) / 100))).
  { destruct (initial_budgets_exact W mode user_input) as (c & _ & _ & Hb).
    rewrite Hinit in Hb. injection Hb as ->. reflexivity. }
  assert (Hres0_nonneg : (0 <= reserved b0)%Z).
  { rewrite Hres0, base_reserved_values.
    apply Rtrunc_nonneg. destruct (AdaptiveBudget.interaction_mode_of mode); lra. }
  destruct (Rtrunc_nonneg (IZR W * (2 / 100)) ltac:(lra)) as [_ Htwo].
  unfold AdaptiveBudget.calculate_adaptive_budgets.
  rewrite Hinit. simpl bind. rewrite enforce_minimum_memory_exact.
  eexists. split; [reflexivity|].
  assert (Hint : to_int (FA := Exact) (of_int W * dec 2 2)%py = Rtrunc (IZR W * (2 / 100))).
  { exact_arith. reflexivity. }
  rewrite Hint. clear Hint.
  destruct (Z.ltb_spec (conversation_memory b0) m) as [_|]; [|lia].
  destruct (Z.leb_spec (m - conversation_memory b0) (reserved b0)) as [|_]; [lia|].
  unfold total_allocated.
  cbn [system_prompt tool_definitions conversation_memory response_generation
       safety_margin reserved].
  split; [lia|]. split; [lia|]. split.
  - intros H50. destruct (two_percent_above_chat_reserve W H50) as [_ H1]. lia.
  - intros Hchat H50. destruct (two_percent_above_chat_reserve W H50) as [Hlt _].
    rewrite Hres0, Hchat, base_reserved_values. lia.
Qed.

Lemma initial_memory_at_most_55_percent (W : Z) (mode user_input : str) (b0 : budgets) :
  (0 <= W)%Z ->
  AdaptiveBudget.initial_budgets (FA := Exact) W mode user_input = Ok b0 ->
  IZR (conversation_memory b0) <= IZR W * (55 / 100).
Proof.
  intros HW Hinit. apply IZR_le in HW.
  destruct (initial_budgets_exact W mode user_input) as (c & _ & Hc & Hb).
  rewrite Hinit in Hb. injection Hb as ->. cbn [conversation_memory].
  pose proof (memory_range_values (AdaptiveBudget.interaction_mode_of mode)) as Hv.
  cbv zeta in Hv.
  set (r := AdaptiveBudget.adaptive_ranges _) in *.
  assert (Hp : 0 <= AdaptiveBudget.memory_max r
                    - c * c * (AdaptiveBudget.memory_max r - AdaptiveBudget.memory_min r) <= 55).
  { destruct (AdaptiveBudget.interaction_mode_of mode); destruct Hv as [-> ->]; nra. }
  set (p := AdaptiveBudget.memory_max r - _) in *.
  destruct (Rtrunc_nonneg (IZR W * (p / 100)) ltac:(nra)) as [-> _].
  destruct (Zfloor_bound (IZR W * (p / 100))) as [Hlo _]. nra.
Qed.

Lemma initial_reserved_at_most_04_percent (W : Z) (mode user_input : str) (b0 : budgets) :
  (0 <= W)%Z ->
  AdaptiveBudget.initial_budgets (FA := Exact) W mode user_input = Ok b0 ->
  IZR (reserved b0) <= IZR W * (4 / 10 / 100).
Proof.
  intros HW Hinit. apply IZR_le in HW.
  destruct (initial_budgets_exact W mode user_input) as (c & _ & _ & Hb).
  rewrite Hinit in Hb. injection Hb as ->. cbn [reserved].
  rewrite base_reserved_values.
  set (p := match AdaptiveBudget.interaction_mode_of mode with
            | AdaptiveBudget.CHAT => 4 / 10
            | AdaptiveBudget.TOOLS => 0
            end).
  assert (Hp : 0 <= p <= 4 / 10).
  { subst p. destruct (AdaptiveBudget.interaction_mode_of mode); lra. }
  destruct (Rtrunc_nonneg (IZR W * (p / 100)) ltac:(nra)) as [-> _].
  destruct (Zfloor_bound (IZR W * (p / 100))) as [Hlo _]. nra.
Qed.

End ExactArithmetic.

(* ================================================================== *)
(** * Binary64 arithmetic *)
(* ================================================================== *)

(** The same functions with Python's own arithmetic.  The section first
    relates the operations on doubles to the real numbers ([SpecFloat] is the
    specification the primitive operations satisfy), then follows the
    allocation with intervals. *)

Section Binary64Arithmetic.
Local Open Scope Z_scope.

(** ** Binary digits and right shifts of [SpecFloat] *)

Lemma digits2_pos_bounds (p : positive) :
  2 ^ (Z.pos (digits2_pos p) - 1) <= Z.pos p < 2 ^ Z.pos (digits2_pos p).
Proof.
  induction p as [p IH|p IH|]; simpl digits2_pos.
  - rewrite Pos2Z.inj_succ.
    replace (Z.succ (Z.pos (digits2_pos p)) - 1) with (Z.succ (Z.pos (digits2_pos p) - 1)) by lia.
    rewrite !Z.pow_succ_r by lia. lia.
  - rewrite Pos2Z.inj_succ.
    replace (Z.succ (Z.pos (digits2_pos p)) - 1) with (Z.succ (Z.pos (digits2_pos p) - 1)) by lia.
    rewrite !Z.pow_succ_r by lia. lia.
  - simpl. lia.
Qed.

Lemma Zdigits2_bounds (m : Z) :
  0 < m -> 2 ^ (Zdigits2 m - 1) <= m < 2 ^ Zdigits2 m.
Proof.
  destruct m as [|p|p]; try lia. intros _. apply digits2_pos_bounds.
Qed.

Lemma Zdigits2_pos (m : Z) : 0 < m -> 0 < Zdigits2 m.
Proof. destruct m; simpl; lia. Qed.

Lemma shr_1_m (mrs : shr_record) :
  0 <= shr_m mrs -> shr_m (shr_1 mrs) = shr_m mrs / 2.
Proof.
  destruct mrs as [m r s]. simpl. intros Hm.
  destruct m as [|p|p]; try lia.
  - reflexivity.
  - destruct p as [p|p|]; simpl shr_m.
    + rewrite Pos2Z.inj_xI. apply Z.div_unique with 1; lia.
    + rewrite Pos2Z.inj_xO. apply Z.div_unique with 0; lia.
    + reflexivity.
Qed.

Lemma shr_1_nonneg (mrs : shr_record) :
  0 <= shr_m mrs -> 0 <= shr_m (shr_1 mrs).
Proof.
  intros H. rewrite shr_1_m by exact H. apply Z.div_pos; lia.
Qed.

Lemma iter_shr_1_m (p : positive) :
  forall mrs, 0 <= shr_m mrs ->
    shr_m (iter_pos shr_1 p mrs) = shr_m mrs / 2 ^ Z.pos p.
Proof.
  induction p as [p IH|p IH|]; intros mrs Hm; simpl iter_pos.
  - assert (H1 : 0 <= shr_m (shr_1 mrs)) by (apply shr_1_nonneg; exact Hm).
    assert (H2 : 0 <= shr_m (iter_pos shr_1 p (shr_1 mrs))).
    { rewrite IH by exact H1. apply Z.div_pos; lia. }
    rewrite IH by exact H2. rewrite IH by exact H1. rewrite shr_1_m by exact Hm.
    rewrite !Z.div_div by lia. f_equal.
    assert (E : Z.pos p~1 = Z.pos p + Z.pos p + 1) by lia.
    rewrite E, !Z.pow_add_r by lia. rewrite Z.pow_1_r. ring.
  - assert (H2 : 0 <= shr_m (iter_pos shr_1 p mrs)).
    { rewrite IH by exact Hm. apply Z.div_pos; lia. }
    rewrite IH by exact H2. rewrite IH by exact Hm.
    rewrite !Z.div_div by lia. f_equal.
    assert (E : Z.pos p~0 = Z.pos p + Z.pos p) by lia.
    rewrite E, !Z.pow_add_r by lia. ring.
  - rewrite shr_1_m by exact Hm. rewrite Z.pow_1_r. reflexivity.
Qed.

(** The mantissa [shr] leaves: the quotient by [2^n]. *)
Lemma shr_m_spec (mrs : shr_record) (e n : Z) :
  0 <= shr_m mrs ->
  shr_m (fst (shr mrs e n)) = shr_m mrs / 2 ^ Z.max 0 n
  /\ snd (shr mrs e n) = e + Z.max 0 n.
Proof.
  intros Hm. destruct n as [|p|p]; simpl.
  - rewrite Z.div_1_r. split; [reflexivity|lia].
  - rewrite iter_shr_1_m by exact Hm. split; reflexivity.
  - rewrite Z.div_1_r. split; [reflexivity|lia].
Qed.

Lemma shr_record_of_loc_m (m : Z) (l : location) : shr_m (shr_record_of_loc m l) = m.
Proof. destruct l as [|[]]; reflexivity. Qed.

Lemma round_nearest_even_bounds (m : Z) (l : location) :
  m <= round_nearest_even m l <= m + 1.
Proof.
  destruct l as [|[]]; simpl; try lia. destruct (Z.even m); lia.
Qed.

Lemma Zdigits2_unique (m k : Z) :
  2 ^ (k - 1) <= m < 2 ^ k -> 0 < k -> Zdigits2 m = k.
Proof.
  intros [Hlo Hhi] Hk.
  assert (Hm : 0 < m) by (pose proof (Z.pow_pos_nonneg 2 (k - 1)); lia).
  pose proof (Zdigits2_bounds m Hm) as [Hlo' Hhi'].
  pose proof (Zdigits2_pos m Hm) as Hd.
  destruct (Z.lt_trichotomy (Zdigits2 m) k) as [Hlt|[Heq|Hgt]]; [|exact Heq|].
  - assert (2 ^ Zdigits2 m <= 2 ^ (k - 1)) by (apply Z.pow_le_mono_r; lia). lia.
  - assert (2 ^ k <= 2 ^ (Zdigits2 m - 1)) by (apply Z.pow_le_mono_r; lia). lia.
Qed.

Lemma Zdigits2_le (m k : Z) : 0 <= k -> 0 <= m < 2 ^ k -> Zdigits2 m <= k.
Proof.
  intros Hk [Hlo Hhi].
  destruct (Z.eq_dec m 0) as [->|Hne]; [simpl; lia|].
  pose proof (Zdigits2_bounds m ltac:(lia)) as [Hlo' _].
  destruct (Z_le_gt_dec (Zdigits2 m) k) as [|Hgt]; [assumption|].
  assert (2 ^ k <= 2 ^ (Zdigits2 m - 1)) by (apply Z.pow_le_mono_r; lia). lia.
Qed.

Lemma fexp_64 (e : Z) : fexp prec emax e = fexp64 e.
Proof. reflexivity. Qed.

(** What [binary_round_aux] returns for a mantissa that is not negative:
    the mantissa is divided by the power of two that brings it to the
    exponent [t] of the format, and moved up by at most one. *)
Lemma binary_round_aux_spec (s : bool) (m e : Z) (l : location) :
  0 <= m ->
  let t := Z.max e (fexp64 (Zdigits2 m + e)) in
  exists m2 : Z,
    m / 2 ^ (t - e) <= m2 <= m / 2 ^ (t - e) + 1
    /\ ((m2 = 0 /\ binary_round_aux prec emax s m e l = S754_zero s)
        \/ (0 < m2 < 2 ^ 53
            /\ binary_round_aux prec emax s m e l
               = if t <=? 971 then S754_finite s (Z.to_pos m2) t else S754_infinity s)
        \/ (m2 = 2 ^ 53
            /\ binary_round_aux prec emax s m e l
               = if t + 1 <=? 971 then S754_finite s (Z.to_pos (2 ^ 52)) (t + 1)
                 else S754_infinity s)).
Proof.
  intros Hm t.
  unfold binary_round_aux, shr_fexp. change (fexp prec emax) with fexp64.
  set (n := fexp64 (Zdigits2 m + e) - e).
  assert (Ht : t = e + Z.max 0 n) by (subst t n; lia).
  pose proof (shr_m_spec (shr_record_of_loc m l) e n) as Hshr.
  rewrite shr_record_of_loc_m in Hshr. specialize (Hshr Hm).
  destruct (shr (shr_record_of_loc m l) e n) as [mrs1 e1].
  simpl fst in Hshr. simpl snd in Hshr. destruct Hshr as [Hm1 He1].
  rewrite <- Ht in He1. subst e1.
  replace (Z.max 0 n) with (t - e) in Hm1 by lia.
  set (m1 := m / 2 ^ (t - e)) in *.
  set (m2 := round_nearest_even (shr_m mrs1) (loc_of_shr_record mrs1)) in *.
  pose proof (round_nearest_even_bounds (shr_m mrs1) (loc_of_shr_record mrs1)) as Hm2.
  fold m2 in Hm2. rewrite Hm1 in Hm2.
  assert (Hm1_nonneg : 0 <= m1) by (subst m1; apply Z.div_pos; [lia|apply Z.pow_pos_nonneg; lia]).
  assert (Ht_min : -1074 <= t) by (subst t; unfold fexp64; lia).
  assert (Hm1_lt : m1 < 2 ^ 53).
  { subst m1. apply Z.div_lt_upper_bound; [apply Z.pow_pos_nonneg; lia|].
    rewrite <- Z.pow_add_r by lia.
    destruct (Z.eq_dec m 0) as [->|Hne]; [apply Z.pow_pos_nonneg; lia|].
    pose proof (Zdigits2_bounds m ltac:(lia)) as [_ Hhi].
    pose proof (Zdigits2_pos m ltac:(lia)).
    assert (2 ^ Zdigits2 m <= 2 ^ (t - e + 53)); [|lia].
    apply Z.pow_le_mono_r; [lia|]. subst t. unfold fexp64. lia. }
  exists m2. split; [exact Hm2|].
  pose proof (shr_m_spec (shr_record_of_loc m2 loc_Exact) t (fexp64 (Zdigits2 m2 + t) - t)) as Hshr2.
  rewrite shr_record_of_loc_m in Hshr2. specialize (Hshr2 ltac:(lia)).
  destruct (shr (shr_record_of_loc m2 loc_Exact) t (fexp64 (Zdigits2 m2 + t) - t)) as [mrs2 e2].
  simpl fst in Hshr2. simpl snd in Hshr2. destruct Hshr2 as [Hm3 He3].
  destruct (Z.eq_dec m2 0) as [Hz|Hnz].
  - left. split; [exact Hz|].
    rewrite Hm3, Hz. rewrite Z.div_0_l by (apply Z.pow_nonzero; lia). reflexivity.
  - right.
    destruct (Z.eq_dec m2 (2 ^ 53)) as [Hcarry|Hnocarry].
    + right. split; [exact Hcarry|].
      assert (Hd2 : Zdigits2 m2 = 54).
      { apply Zdigits2_unique; [|lia]. rewrite Hcarry. simpl. lia. }
      rewrite Hd2 in Hm3, He3.
      replace (Z.max 0 (fexp64 (54 + t) - t)) with 1 in Hm3, He3 by (unfold fexp64; lia).
      rewrite Hm3, He3, Hcarry. reflexivity.
    + left. split; [lia|].
      assert (Hd2 : Zdigits2 m2 <= 53) by (apply Zdigits2_le; lia).
      replace (Z.max 0 (fexp64 (Zdigits2 m2 + t) - t)) with 0 in Hm3, He3
        by (unfold fexp64; lia).
      rewrite Z.pow_0_r, Z.div_1_r in Hm3. rewrite Z.add_0_r in He3.
      rewrite Hm3, He3. destruct m2; try lia. reflexivity.
Qed.

(** ** Values of binary64 numbers *)

Local Open Scope R_scope.

Lemma pow2_pos (e : Z) : 0 < pow2 e.
Proof. apply powerRZ_lt. lra. Qed.

Lemma pow2_add (a b : Z) : pow2 (a + b) = pow2 a * pow2 b.
Proof. apply powerRZ_add. lra. Qed.

Lemma pow2_IZR (e : Z) : (0 <= e)%Z -> pow2 e = IZR (2 ^ e).
Proof.
  intros He. unfold pow2. destruct e as [|p|p]; [reflexivity| |lia].
  simpl powerRZ. rewrite pow_IZR, positive_nat_Z. reflexivity.
Qed.

Lemma pow2_neg (e : Z) : pow2 (- e) = / pow2 e.
Proof. apply powerRZ_neg'. Qed.

Lemma pow2_le (a b : Z) : (a <= b)%Z -> pow2 a <= pow2 b.
Proof.
  intros Hab. replace b with (a + (b - a))%Z by lia.
  rewrite pow2_add. rewrite (pow2_IZR (b - a)) by lia.
  assert (1 <= IZR (2 ^ (b - a))).
  { apply IZR_le. pose proof (Z.pow_pos_nonneg 2 (b - a)). lia. }
  pose proof (pow2_pos a). nra.
Qed.

Lemma pow2_lt (a b : Z) : (a < b)%Z -> pow2 a < pow2 b.
Proof.
  intros Hab. replace b with (a + (b - a))%Z by lia.
  rewrite pow2_add. rewrite (pow2_IZR (b - a)) by lia.
  assert (2 <= IZR (2 ^ (b - a))).
  { apply IZR_le. replace (b - a)%Z with (Z.succ (b - a - 1)) by lia.
    rewrite Z.pow_succ_r by lia. pose proof (Z.pow_pos_nonneg 2 (b - a - 1)). lia. }
  pose proof (pow2_pos a). nra.
Qed.

Lemma pow2_lt_inv (a b : Z) : pow2 a < pow2 b -> (a < b)%Z.
Proof.
  intros H. destruct (Z_lt_le_dec a b) as [|Hle]; [assumption|].
  apply pow2_le in Hle. lra.
Qed.

Lemma SF_fin_nn (f : spec_float) : SF_fin f -> SF_nn f.
Proof. destruct f as [s|s| |s m e]; simpl; try tauto; destruct s; tauto. Qed.

Lemma SF_fin_nonneg (f : spec_float) : SF_fin f -> 0 <= SF2R f.
Proof.
  destruct f as [s|s| |s m e]; simpl; try lra. destruct s; [tauto|].
  intros _. pose proof (pow2_pos e).
  assert (0 < IZR (Z.pos m)) by (apply IZR_lt; lia). nra.
Qed.

(** Rounding a value [x] bracketed by [m * 2^e] and [(m+1) * 2^e]: the
    result is off by at most one unit of its last place. *)
Lemma binary_round_aux_error (m e : Z) (l : location) (x : R) :
  (0 <= m)%Z ->
  (e <= fexp64 (Zdigits2 m + e))%Z ->
  IZR m * pow2 e <= x <= (IZR m + 1) * pow2 e ->
  let f := binary_round_aux prec emax false m e l in
  SF_nn f
  /\ (x < pow2 1023 -> SF_fin f)
  /\ (SF_fin f -> Rabs (SF2R f - x) <= eta + eps * x).
Proof.
  intros Hm He Hx f.
  destruct (binary_round_aux_spec false m e l Hm) as (m2 & Hm2 & Hres).
  cbv zeta in Hm2, Hres.
  replace (Z.max e (fexp64 (Zdigits2 m + e))) with (fexp64 (Zdigits2 m + e)) in Hm2, Hres by lia.
  set (t := fexp64 (Zdigits2 m + e)) in *.
  set (m1 := (m / 2 ^ (t - e))%Z) in *.
  fold f in Hres.
  assert (Hpow : (0 < 2 ^ (t - e))%Z) by (apply Z.pow_pos_nonneg; lia).
  assert (Hm1 : (0 <= m1)%Z) by (subst m1; apply Z.div_pos; lia).
  assert (Hdiv_lo : (m1 * 2 ^ (t - e) <= m)%Z).
  { subst m1. rewrite Z.mul_comm. apply Z.mul_div_le. exact Hpow. }
  assert (Hdiv_hi : (m + 1 <= (m1 + 1) * 2 ^ (t - e))%Z).
  { subst m1. pose proof (Z.mul_succ_div_gt m (2 ^ (t - e)) Hpow). lia. }
  assert (Hsplit : pow2 t = IZR (2 ^ (t - e)) * pow2 e).
  { rewrite <- pow2_IZR by lia. rewrite <- pow2_add. f_equal. lia. }
  pose proof (pow2_pos e) as Hpe. pose proof (pow2_pos t) as Hpt.
  assert (Hx0 : 0 <= x) by (apply IZR_le in Hm; nra).
  assert (Hlo : IZR m1 * pow2 t <= x).
  { apply IZR_le in Hdiv_lo. rewrite mult_IZR in Hdiv_lo. rewrite Hsplit. nra. }
  assert (Hhi : x <= (IZR m1 + 1) * pow2 t).
  { apply IZR_le in Hdiv_hi. rewrite mult_IZR, !plus_IZR in Hdiv_hi. rewrite Hsplit. nra. }
  assert (Hbig : (971 <= t)%Z -> pow2 1023 <= x).
  { intros Ht971.
    destruct (Z.eq_dec m 0) as [->|Hne]; [subst t; unfold fexp64 in *; simpl in *; lia|].
    pose proof (Zdigits2_bounds m ltac:(lia)) as [Hd _].
    apply IZR_le in Hd.
    rewrite <- pow2_IZR in Hd by (pose proof (Zdigits2_pos m ltac:(lia)); lia).
    assert (pow2 1023 <= pow2 (Zdigits2 m - 1) * pow2 e).
    { rewrite <- pow2_add. apply pow2_le. subst t. unfold fexp64 in *. lia. }
    nra. }
  assert (Hulp : pow2 t <= eta + eps * x).
  { unfold eta, eps. pose proof (pow2_pos (-1074)). pose proof (pow2_pos (-52)).
    subst t. unfold fexp64 in *.
    destruct (Z.max_spec (Zdigits2 m + e - 53) (-1074)) as [[_ ->]|[Hgt ->]]; [nra|].
    destruct (Z.eq_dec m 0) as [->|Hne]; [simpl in *; lia|].
    pose proof (Zdigits2_bounds m ltac:(lia)) as [Hd _].
    apply IZR_le in Hd. rewrite <- pow2_IZR in Hd by (pose proof (Zdigits2_pos m ltac:(lia)); lia).
    replace (Zdigits2 m + e - 53)%Z with (-52 + ((Zdigits2 m - 1) + e))%Z by lia.
    rewrite !pow2_add.
    assert (pow2 (Zdigits2 m - 1) * pow2 e <= x) by nra.
    nra. }
  destruct Hm2 as [Hm2lo Hm2hi].
  assert (Hm2R : IZR m1 <= IZR m2 <= IZR m1 + 1).
  { apply IZR_le in Hm2lo, Hm2hi. rewrite plus_IZR in Hm2hi. lra. }
  destruct Hres as [[Hz ->]|[[Hpos ->]|[Hcarry ->]]].
  - split; [exact I|]. split; [intros _; exact I|]. intros _. simpl SF2R.
    rewrite Hz in Hm2R. apply Rabs_le. nra.
  - destruct (Z.leb_spec t 971) as [Hle|Hgt].
    + split; [exact I|]. split; [intros _; exact I|]. intros _. simpl SF2R.
      rewrite Z2Pos.id by lia. apply Rabs_le. nra.
    + split; [exact I|]. split; [|intros []].
      intros Hlt. specialize (Hbig ltac:(lia)). lra.
  - destruct (Z.leb_spec (t + 1) 971) as [Hle|Hgt].
    + split; [exact I|]. split; [intros _; exact I|]. intros _.
      assert (Hv : SF2R (S754_finite false (Z.to_pos (2 ^ 52)) (t + 1)) = IZR m2 * pow2 t).
      { unfold SF2R. rewrite pow2_add, Hcarry.
        replace (pow2 1) with 2 by (unfold pow2; simpl; lra).
        assert (E1 : IZR (Z.pos (Z.to_pos (2 ^ 52))) = IZR (2 ^ 52)) by reflexivity.
        assert (E2 : IZR (2 ^ 53) = IZR (2 ^ 52) * 2)
          by (rewrite <- mult_IZR; apply f_equal; reflexivity).
        rewrite E1, E2. ring. }
      rewrite Hv. apply Rabs_le. nra.
    + split; [exact I|]. split; [|intros []].
      intros Hlt. specialize (Hbig ltac:(lia)). lra.
Qed.

Lemma binary_round_aux_nn (m e : Z) (l : location) :
  (0 <= m)%Z -> SF_nn (binary_round_aux prec emax false m e l).
Proof.
  intros Hm.
  destruct (binary_round_aux_spec false m e l Hm)
    as (m2 & _ & [[_ ->]|[[_ ->]|[_ ->]]]).
  - exact I.
  - match goal with |- context [if ?b then _ else _] => destruct b end; exact I.
  - match goal with |- context [if ?b then _ else _] => destruct b end; exact I.
Qed.

(** The result of [binary_round_aux] is a number of the format. *)
Lemma binary_round_aux_valid (s : bool) (m e : Z) (l : location) :
  (0 <= m)%Z ->
  (e <= fexp64 (Zdigits2 m + e))%Z ->
  valid_binary (binary_round_aux prec emax s m e l) = true.
Proof.
  intros Hm He.
  destruct (binary_round_aux_spec s m e l Hm) as (m2 & Hm2 & Hres).
  cbv zeta in Hm2, Hres.
  replace (Z.max e (fexp64 (Zdigits2 m + e))) with (fexp64 (Zdigits2 m + e)) in Hm2, Hres by lia.
  set (t := fexp64 (Zdigits2 m + e)) in *.
  assert (Ht_min : (-1074 <= t)%Z) by (subst t; unfold fexp64; lia).
  destruct Hres as [[_ ->]|[[Hpos ->]|[Hcarry ->]]]; [reflexivity| |].
  - destruct (Z.leb_spec t 971) as [Hle|]; [|reflexivity].
    simpl. unfold bounded, canonical_mantissa.
    change (fexp prec emax) with fexp64. change (emax - prec)%Z with 971%Z.
    apply andb_true_intro. split; [|apply Z.leb_le; exact Hle].
    apply Z.eqb_eq.
    change (Z.pos (digits2_pos (Z.to_pos m2))) with (Zdigits2 (Z.pos (Z.to_pos m2))).
    rewrite Z2Pos.id by lia.
    assert (Hd2 : (Zdigits2 m2 <= 53)%Z) by (apply Zdigits2_le; lia).
    destruct (Z.eq_dec t (-1074)) as [Hclip|Hunclip]; [unfold fexp64; lia|].
    (* not clipped: the quotient keeps 53 digits *)
    assert (Ht : t = (Zdigits2 m + e - 53)%Z) by (subst t; unfold fexp64 in *; lia).
    assert (Hmpos : (0 < m)%Z).
    { destruct (Z.eq_dec m 0) as [E|E]; [|lia]. exfalso.
      subst t. rewrite E in *. simpl in *. unfold fexp64 in *. lia. }
    pose proof (Zdigits2_bounds m Hmpos) as [Hdlo _].
    assert (H52 : (2 ^ 52 <= m / 2 ^ (t - e))%Z).
    { apply Z.div_le_lower_bound; [apply Z.pow_pos_nonneg; lia|].
      rewrite <- Z.pow_add_r by lia.
      replace (t - e + 52)%Z with (Zdigits2 m - 1)%Z by lia. exact Hdlo. }
    assert (Hd53 : Zdigits2 m2 = 53%Z).
    { apply Zdigits2_unique; [|lia]. simpl Z.sub. lia. }
    unfold fexp64. lia.
  - destruct (Z.leb_spec (t + 1) 971) as [Hle|]; [|reflexivity].
    simpl. unfold bounded, canonical_mantissa.
    change (fexp prec emax) with fexp64. change (emax - prec)%Z with 971%Z.
    apply andb_true_intro. split; [|apply Z.leb_le; exact Hle].
    apply Z.eqb_eq.
    change (Z.pos (digits2_pos 4503599627370496)) with 53%Z.
    unfold fexp64. lia.
Qed.

(** ** Primitive floats *)

Lemma fin_nn (x : float) : fin x -> nn x.
Proof. apply SF_fin_nn. Qed.

Lemma fin_nonneg (x : float) : fin x -> 0 <= val x.
Proof. apply SF_fin_nonneg. Qed.

Lemma eps_pos : 0 < eps. Proof. apply pow2_pos. Qed.
Lemma eta_pos : 0 < eta. Proof. apply pow2_pos. Qed.

(** A finite double is canonical: its exponent is the one of the format. *)
Lemma finite_canonical (x : float) (s : bool) (m : positive) (e : Z) :
  Prim2SF x = S754_finite s m e ->
  fexp64 (Zdigits2 (Z.pos m) + e) = e /\ (e <= 971)%Z.
Proof.
  intros Hx. pose proof (Prim2SF_valid x) as Hv. rewrite Hx in Hv.
  simpl in Hv. unfold bounded, canonical_mantissa in Hv.
  apply andb_prop in Hv. destruct Hv as [Hc Hb].
  apply Z.eqb_eq in Hc. apply Z.leb_le in Hb.
  split; [exact Hc|exact Hb].
Qed.

Lemma Zdigits2_mul (a b : positive) :
  (Zdigits2 (Z.pos a) + Zdigits2 (Z.pos b) - 1 <= Zdigits2 (Z.pos (a * b)))%Z.
Proof.
  pose proof (Zdigits2_bounds (Z.pos a) ltac:(lia)) as [Ha _].
  pose proof (Zdigits2_bounds (Z.pos b) ltac:(lia)) as [Hb _].
  pose proof (Zdigits2_bounds (Z.pos (a * b)) ltac:(lia)) as [_ Hab].
  pose proof (Zdigits2_pos (Z.pos a) ltac:(lia)).
  pose proof (Zdigits2_pos (Z.pos b) ltac:(lia)).
  pose proof (Zdigits2_pos (Z.pos (a * b)) ltac:(lia)).
  assert (H2 : (2 ^ (Zdigits2 (Z.pos a) - 1 + (Zdigits2 (Z.pos b) - 1))
                < 2 ^ Zdigits2 (Z.pos (a * b)))%Z).
  { rewrite Z.pow_add_r by lia.
    assert (Hprod : Z.pos (a * b) = (Z.pos a * Z.pos b)%Z) by apply Pos2Z.inj_mul.
    assert (2 ^ (Zdigits2 (Z.pos a) - 1) * 2 ^ (Zdigits2 (Z.pos b) - 1)
            <= Z.pos a * Z.pos b)%Z.
    { apply Z.mul_le_mono_nonneg; try lia; apply Z.pow_nonneg; lia. }
    lia. }
  apply Z.pow_lt_mono_r_iff in H2; lia.
Qed.

(** The product of two numbers that are zero or positive. *)
Lemma mul_fin (x y : float) :
  fin x -> fin y ->
  nn (x * y)
  /\ (val x * val y < pow2 1023 -> fin (x * y))
  /\ (fin (x * y) -> Rabs (val (x * y) - val x * val y) <= eta + eps * (val x * val y)).
Proof.
  unfold fin, nn, val. rewrite mul_spec.
  assert (Hzero : forall v : R, v = 0 ->
            True /\ (v < pow2 1023 -> True) /\ (True -> Rabs (0 - v) <= eta + eps * v)).
  { intros v ->. split; [exact I|]. split; [intros _; exact I|]. intros _.
    rewrite Rminus_0_r, Rabs_R0. pose proof eta_pos. lra. }
  destruct (Prim2SF x) as [sx|sx| |sx mx ex] eqn:Hx; simpl SF_fin; try tauto;
    destruct (Prim2SF y) as [sy|sy| |sy my ey] eqn:Hy; simpl SF_fin; try tauto.
  - intros _ _. simpl. apply Hzero. ring.
  - destruct sy; [tauto|]. intros _ _. simpl. apply Hzero. ring.
  - destruct sx; [tauto|]. intros _ _. simpl. apply Hzero. ring.
  - destruct sx; [tauto|]. destruct sy; [tauto|]. intros _ _.
    unfold SF64mul, SFmul. simpl xorb.
    destruct (finite_canonical x false mx ex Hx) as [Hcx _].
    destruct (finite_canonical y false my ey Hy) as [Hcy _].
    pose proof (Zdigits2_mul mx my) as Hd.
    pose proof (Zdigits2_pos (Z.pos mx) ltac:(lia)).
    pose proof (Zdigits2_pos (Z.pos my) ltac:(lia)).
    assert (He : (ex + ey <= fexp64 (Zdigits2 (Z.pos (mx * my)) + (ex + ey)))%Z).
    { unfold fexp64 in *. lia. }
    assert (Hv : SF2R (S754_finite false mx ex) * SF2R (S754_finite false my ey)
                 = IZR (Z.pos (mx * my)) * pow2 (ex + ey)).
    { simpl. rewrite Pos2Z.inj_mul, mult_IZR, pow2_add. ring. }
    rewrite Hv.
    apply binary_round_aux_error; [lia|exact He|].
    pose proof (pow2_pos (ex + ey)). lra.
Qed.

Lemma iter_xO (m d : positive) :
  Z.pos (Pos.iter xO m d) = (Z.pos m * 2 ^ Z.pos d)%Z.
Proof.
  induction d as [|d IH] using Pos.peano_ind.
  - simpl. lia.
  - rewrite Pos.iter_succ, Pos2Z.inj_xO, IH, Pos2Z.inj_succ, Z.pow_succ_r by lia. ring.
Qed.

Lemma shl_align_spec (mx : positive) (ex ex' : Z) :
  let '(mz, ez) := shl_align mx ex ex' in
  ez = Z.min ex ex' /\ Z.pos mz = (Z.pos mx * 2 ^ (ex - ez))%Z.
Proof.
  unfold shl_align. destruct (ex' - ex)%Z as [|d|d] eqn:Hd.
  - split; [lia|]. replace (ex - ex)%Z with 0%Z by lia. simpl. lia.
  - split; [lia|]. replace (ex - ex)%Z with 0%Z by lia. simpl. lia.
  - split; [lia|]. rewrite iter_xO. f_equal. f_equal. lia.
Qed.

Lemma Zdigits2_shift (m : positive) (k : Z) :
  (0 <= k)%Z -> Zdigits2 (Z.pos m * 2 ^ k) = (Zdigits2 (Z.pos m) + k)%Z.
Proof.
  intros Hk. pose proof (Zdigits2_bounds (Z.pos m) ltac:(lia)) as [Hlo Hhi].
  pose proof (Zdigits2_pos (Z.pos m) ltac:(lia)).
  assert (Hp : (0 < 2 ^ k)%Z) by (apply Z.pow_pos_nonneg; lia).
  apply Zdigits2_unique; [|lia]. split.
  - replace (Zdigits2 (Z.pos m) + k - 1)%Z with (Zdigits2 (Z.pos m) - 1 + k)%Z by lia.
    rewrite Z.pow_add_r by lia. apply Z.mul_le_mono_nonneg_r; lia.
  - rewrite Z.pow_add_r by lia. apply Z.mul_lt_mono_pos_r; lia.
Qed.

(** Rounding the number [m * 2^e] to the format. *)
Lemma binary_round_error (m : positive) (e : Z) :
  let v := IZR (Z.pos m) * pow2 e in
  let f := binary_round prec emax false m e in
  SF_nn f
  /\ (v < pow2 1023 -> SF_fin f)
  /\ (SF_fin f -> Rabs (SF2R f - v) <= eta + eps * v)
  /\ valid_binary f = true.
Proof.
  intros v f. subst f. unfold binary_round.
  change (fexp prec emax) with fexp64.
  change (Z.pos (digits2_pos m)) with (Zdigits2 (Z.pos m)).
  pose proof (shl_align_spec m e (fexp64 (Zdigits2 (Z.pos m) + e))) as Hal.
  destruct (shl_align m e (fexp64 (Zdigits2 (Z.pos m) + e))) as [mz ez].
  destruct Hal as [Hez Hmz].
  assert (Hd : (Zdigits2 (Z.pos mz) + ez = Zdigits2 (Z.pos m) + e)%Z).
  { rewrite Hmz, Zdigits2_shift by lia. lia. }
  assert (He : (ez <= fexp64 (Zdigits2 (Z.pos mz) + ez))%Z) by (rewrite Hd; lia).
  assert (Hv : v = IZR (Z.pos mz) * pow2 ez).
  { subst v. rewrite Hmz, mult_IZR, <- pow2_IZR by lia.
    rewrite Rmult_assoc, <- pow2_add. do 2 f_equal. lia. }
  rewrite Hv.
  pose proof (pow2_pos ez).
  destruct (binary_round_aux_error (Z.pos mz) ez loc_Exact (IZR (Z.pos mz) * pow2 ez)
              ltac:(lia) He ltac:(lra)) as (H1 & H2 & H3).
  repeat split; try assumption.
  apply binary_round_aux_valid; [lia|exact He].
Qed.

(** [float(n)] for an [int] that is not negative. *)
Lemma float_of_Z_nonneg (n : Z) :
  (0 <= n)%Z ->
  nn (float_of_Z n)
  /\ (IZR n < pow2 1023 -> fin (float_of_Z n))
  /\ (fin (float_of_Z n) -> Rabs (val (float_of_Z n) - IZR n) <= eta + eps * IZR n).
Proof.
  intros Hn. unfold nn, fin, val, float_of_Z.
  destruct n as [|p|p]; [| |lia].
  - simpl binary_normalize. rewrite Prim2SF_SF2Prim by reflexivity. simpl.
    split; [exact I|]. split; [intros _; exact I|]. intros _.
    rewrite Rminus_0_r, Rabs_R0. pose proof eta_pos. lra.
  - simpl binary_normalize.
    destruct (binary_round_error p 0) as (H1 & H2 & H3 & H4).
    cbv zeta in *. rewrite Prim2SF_SF2Prim by exact H4.
    replace (IZR (Z.pos p) * pow2 0) with (IZR (Z.pos p)) in * by (unfold pow2; simpl; ring).
    repeat split; assumption.
Qed.

(** The sum of two numbers that are zero or positive. *)
Lemma add_fin (x y : float) :
  fin x -> fin y ->
  nn (x + y)
  /\ (val x + val y < pow2 1023 -> fin (x + y))
  /\ (fin (x + y) -> Rabs (val (x + y) - (val x + val y)) <= eta + eps * (val x + val y)).
Proof.
  unfold fin, nn, val. rewrite add_spec.
  assert (Hexact : forall f : spec_float, SF_fin f ->
            forall v, v = SF2R f ->
            SF_nn f /\ (v < pow2 1023 -> SF_fin f)
            /\ (SF_fin f -> Rabs (SF2R f - v) <= eta + eps * v)).
  { intros f Hf v ->. split; [apply SF_fin_nn; exact Hf|]. split; [intros _; exact Hf|].
    intros _. rewrite Rminus_diag, Rabs_R0.
    pose proof eta_pos. pose proof eps_pos. pose proof (SF_fin_nonneg f Hf). nra. }
  destruct (Prim2SF x) as [sx|sx| |sx mx ex] eqn:Hx; simpl SF_fin; try tauto;
    destruct (Prim2SF y) as [sy|sy| |sy my ey] eqn:Hy; simpl SF_fin; try tauto.
  - intros _ _. unfold SF64add, SFadd.
    destruct sx, sy; apply Hexact; simpl; try exact I; lra.
  - destruct sy; [tauto|]. intros _ _. unfold SF64add, SFadd.
    apply Hexact; [exact I|]. simpl. lra.
  - destruct sx; [tauto|]. intros _ _. unfold SF64add, SFadd.
    apply Hexact; [exact I|]. simpl. lra.
  - destruct sx; [tauto|]. destruct sy; [tauto|]. intros _ _.
    unfold SF64add, SFadd.
    pose proof (shl_align_spec mx ex (Z.min ex ey)) as Hax.
    pose proof (shl_align_spec my ey (Z.min ex ey)) as Hay.
    destruct (shl_align mx ex (Z.min ex ey)) as [mx' ex'].
    destruct (shl_align my ey (Z.min ex ey)) as [my' ey'].
    destruct Hax as [Hex' Hmx']. destruct Hay as [Hey' Hmy'].
    simpl fst. simpl cond_Zopp.
    change (Z.pos mx' + Z.pos my')%Z with (Z.pos (mx' + my')).
    simpl binary_normalize.
    destruct (binary_round_error (mx' + my') (Z.min ex ey)) as (H1 & H2 & H3 & _).
    cbv zeta in *.
    assert (Hv : SF2R (S754_finite false mx ex) + SF2R (S754_finite false my ey)
                 = IZR (Z.pos (mx' + my')) * pow2 (Z.min ex ey)).
    { simpl. rewrite Pos2Z.inj_add, plus_IZR, Hmx', Hmy', !mult_IZR.
      rewrite <- !pow2_IZR by lia.
      rewrite Rmult_plus_distr_r, !Rmult_assoc, <- !pow2_add.
      replace (ex - ex' + Z.min ex ey)%Z with ex by lia.
      replace (ey - ey' + Z.min ex ey)%Z with ey by lia. ring. }
    rewrite Hv. repeat split; assumption.
Qed.

(** The difference of two numbers that are zero or positive, the first
    being at least the second. *)
Lemma sub_fin (x y : float) :
  fin x -> fin y -> val y <= val x ->
  nn (x - y)
  /\ (val x - val y < pow2 1023 -> fin (x - y))
  /\ (fin (x - y) -> Rabs (val (x - y) - (val x - val y)) <= eta + eps * (val x - val y)).
Proof.
  unfold fin, nn, val. rewrite sub_spec.
  assert (Hexact : forall f : spec_float, SF_fin f ->
            forall v, v = SF2R f ->
            SF_nn f /\ (v < pow2 1023 -> SF_fin f)
            /\ (SF_fin f -> Rabs (SF2R f - v) <= eta + eps * v)).
  { intros f Hf v ->. split; [apply SF_fin_nn; exact Hf|]. split; [intros _; exact Hf|].
    intros _. rewrite Rminus_diag, Rabs_R0.
    pose proof eta_pos. pose proof eps_pos. pose proof (SF_fin_nonneg f Hf). nra. }
  destruct (Prim2SF x) as [sx|sx| |sx mx ex] eqn:Hx; simpl SF_fin; try tauto;
    destruct (Prim2SF y) as [sy|sy| |sy my ey] eqn:Hy; simpl SF_fin; try tauto.
  - intros _ _ _. unfold SF64sub, SFsub.
    destruct sx, sy; apply Hexact; simpl; try exact I; lra.
  - destruct sy; [tauto|]. intros _ _ Hle. exfalso. simpl in Hle.
    pose proof (pow2_pos ey). assert (0 < IZR (Z.pos my)) by (apply IZR_lt; lia). nra.
  - destruct sx; [tauto|]. intros _ _ _. unfold SF64sub, SFsub.
    apply Hexact; [exact I|]. simpl. lra.
  - destruct sx; [tauto|]. destruct sy; [tauto|]. intros _ _ Hle.
    unfold SF64sub, SFsub.
    pose proof (shl_align_spec mx ex (Z.min ex ey)) as Hax.
    pose proof (shl_align_spec my ey (Z.min ex ey)) as Hay.
    destruct (shl_align mx ex (Z.min ex ey)) as [mx' ex'].
    destruct (shl_align my ey (Z.min ex ey)) as [my' ey'].
    destruct Hax as [Hex' Hmx']. destruct Hay as [Hey' Hmy'].
    simpl fst.
    change (cond_Zopp false (Z.pos mx')) with (Z.pos mx').
    change (cond_Zopp false (Z.pos my')) with (Z.pos my').
    set (d := (Z.pos mx' - Z.pos my')%Z).
    assert (Hv : SF2R (S754_finite false mx ex) - SF2R (S754_finite false my ey)
                 = IZR d * pow2 (Z.min ex ey)).
    { subst d. unfold SF2R. rewrite minus_IZR, Hmx', Hmy', !mult_IZR.
      rewrite <- !pow2_IZR by lia.
      rewrite Rmult_minus_distr_r, !Rmult_assoc, <- !pow2_add.
      replace (ex - ex' + Z.min ex ey)%Z with ex by lia.
      replace (ey - ey' + Z.min ex ey)%Z with ey by lia. ring. }
    rewrite Hv.
    assert (Hm : (0 <= d)%Z).
    { apply le_IZR. pose proof (pow2_pos (Z.min ex ey)).
      assert (0 <= IZR d * pow2 (Z.min ex ey)) by (rewrite <- Hv; lra).
      nra. }
    clearbody d.
    destruct d as [|p|p]; [| |lia].
    + simpl binary_normalize. apply Hexact; [exact I|]. simpl. ring.
    + simpl binary_normalize.
      destruct (binary_round_error p (Z.min ex ey)) as (H1 & H2 & H3 & _).
      cbv zeta in *. repeat split; assumption.
Qed.

Lemma div_core_spec (mx my : positive) (ex ey : Z) :
  (Zdigits2 (Z.pos mx) <= 53)%Z ->
  let '(q, e', l) := SFdiv_core_binary prec emax (Z.pos mx) ex (Z.pos my) ey in
  (0 <= q)%Z
  /\ (e' <= fexp64 (Zdigits2 q + e'))%Z
  /\ IZR q * pow2 e' <= IZR (Z.pos mx) * pow2 ex / (IZR (Z.pos my) * pow2 ey)
     <= (IZR q + 1) * pow2 e'.
Proof.
  intros Hd53.
  unfold SFdiv_core_binary. change (fexp prec emax) with fexp64.
  set (d1 := Zdigits2 (Z.pos mx)) in *. set (d2 := Zdigits2 (Z.pos my)).
  assert (Hd2pos : (0 < d2)%Z) by (subst d2; apply Zdigits2_pos; lia).
  set (e' := Z.min (fexp64 (d1 + ex - (d2 + ey))) (ex - ey)).
  set (s := (ex - ey - e')%Z).
  assert (Hs : (0 <= s)%Z) by (subst s e'; lia).
  set (m' := match s with
             | 0%Z => Z.pos mx
             | Z.pos _ => Z.shiftl (Z.pos mx) s
             | Z.neg _ => 0%Z
             end).
  assert (Hm' : m' = (Z.pos mx * 2 ^ s)%Z).
  { subst m'. destruct s as [|p|p] eqn:Es; [simpl; lia| |lia].
    rewrite Z.shiftl_mul_pow2 by lia. reflexivity. }
  clearbody m'.
  pose proof (Z_div_mod m' (Z.pos my) ltac:(lia)) as Hdm.
  destruct (Z.div_eucl m' (Z.pos my)) as [q r]. destruct Hdm as [Hq Hr].
  assert (Hp2 : (0 < 2 ^ s)%Z) by (apply Z.pow_pos_nonneg; lia).
  assert (Hq0 : (0 <= q)%Z) by nia.
  split; [exact Hq0|]. split.
  - destruct (Z_le_gt_dec e' (-1074)) as [Hlow|Hhigh]; [unfold fexp64; lia|].
    assert (Hs53 : (d2 - d1 + 53 <= s)%Z).
    { clear Hm' Hp2 Hq Hr Hq0. clearbody d1 d2. subst s e'. unfold fexp64 in *. lia. }
    pose proof (Zdigits2_bounds (Z.pos mx) ltac:(lia)) as [Hlo1 _]. fold d1 in Hlo1.
    pose proof (Zdigits2_bounds (Z.pos my) ltac:(lia)) as [_ Hhi2]. fold d2 in Hhi2.
    pose proof (Zdigits2_pos (Z.pos mx) ltac:(lia)) as Hd1. fold d1 in Hd1.
    pose proof (Zdigits2_pos (Z.pos my) ltac:(lia)) as Hd2. fold d2 in Hd2.
    assert (Hbig : (2 ^ (d2 + 52) <= m')%Z).
    { rewrite Hm'. replace (d2 + 52)%Z with ((d1 - 1) + (d2 - d1 + 53))%Z by lia.
      rewrite Z.pow_add_r by lia.
      apply Z.mul_le_mono_nonneg; try lia; try (apply Z.pow_nonneg; lia).
      apply Z.pow_le_mono_r; lia. }
    assert (Hq52 : (2 ^ 52 <= q)%Z).
    { destruct (Z_le_gt_dec (2 ^ 52) q) as [|Hsmall]; [assumption|]. exfalso.
      rewrite Z.pow_add_r in Hbig by lia.
      assert (Z.pos my * q + r < 2 ^ 52 * Z.pos my)%Z by nia.
      assert (2 ^ 52 * Z.pos my < 2 ^ d2 * 2 ^ 52)%Z by nia. lia. }
    assert (Hdq : (53 <= Zdigits2 q)%Z).
    { destruct (Z_le_gt_dec 53 (Zdigits2 q)) as [|Hlt]; [assumption|]. exfalso.
      pose proof (Zdigits2_bounds q ltac:(lia)) as [_ Hhi].
      assert (2 ^ Zdigits2 q <= 2 ^ 52)%Z by (apply Z.pow_le_mono_r; lia). lia. }
    unfold fexp64. lia.
  - assert (Hv : IZR (Z.pos mx) * pow2 ex / (IZR (Z.pos my) * pow2 ey)
                 = IZR m' / IZR (Z.pos my) * pow2 e').
    { rewrite Hm', mult_IZR, <- pow2_IZR by lia.
      replace ex with (s + e' + ey)%Z at 1 by (subst s; lia).
      rewrite !pow2_add. field.
      repeat split; try (apply Rgt_not_eq, pow2_pos); apply Rgt_not_eq, IZR_lt; lia. }
    rewrite Hv.
    assert (Hmy : 0 < IZR (Z.pos my)) by (apply IZR_lt; lia).
    pose proof (pow2_pos e') as Hpe.
    assert (HqR : IZR m' = IZR (Z.pos my) * IZR q + IZR r).
    { rewrite Hq, plus_IZR, mult_IZR. reflexivity. }
    assert (HrR : 0 <= IZR r < IZR (Z.pos my)).
    { split; [apply IZR_le|apply IZR_lt]; lia. }
    set (f := IZR r / IZR (Z.pos my)).
    assert (Hf : f * IZR (Z.pos my) = IZR r) by (subst f; field; lra).
    assert (Hdiv : IZR m' / IZR (Z.pos my) = IZR q + f).
    { subst f. rewrite HqR. field. lra. }
    rewrite Hdiv.
    assert (Hf01 : 0 <= f <= 1) by (split; nra).
    split; nra.
Qed.

(** The quotient of a number that is zero or positive by a positive one. *)
Lemma div_fin (x y : float) :
  fin x -> fin y -> 0 < val y ->
  nn (x / y)
  /\ (val x / val y < pow2 1023 -> fin (x / y))
  /\ (fin (x / y) -> Rabs (val (x / y) - val x / val y) <= eta + eps * (val x / val y)).
Proof.
  unfold fin, nn, val. rewrite div_spec.
  destruct (Prim2SF x) as [sx|sx| |sx mx ex] eqn:Hx; simpl SF_fin; try tauto;
    destruct (Prim2SF y) as [sy|sy| |sy my ey] eqn:Hy; simpl SF_fin; try tauto;
    try (intros _ _ Hpos; simpl in Hpos; lra).
  - destruct sy; [tauto|]. intros _ _ _. simpl.
    split; [exact I|]. split; [intros _; exact I|]. intros _.
    unfold Rdiv. rewrite Rmult_0_l, Rminus_0_r, Rabs_R0. pose proof eta_pos. lra.
  - destruct sx; [tauto|]. destruct sy; [tauto|]. intros _ _ _.
    unfold SF64div, SFdiv. simpl xorb.
    assert (Hd53 : (Zdigits2 (Z.pos mx) <= 53)%Z).
    { destruct (finite_canonical x false mx ex Hx) as [Hc _]. unfold fexp64 in Hc. lia. }
    pose proof (div_core_spec mx my ex ey Hd53) as Hcore.
    destruct (SFdiv_core_binary prec emax (Z.pos mx) ex (Z.pos my) ey) as [[q e'] l].
    destruct Hcore as (Hq & He & Hbr).
    assert (Hv : SF2R (S754_finite false mx ex) / SF2R (S754_finite false my ey)
                 = IZR (Z.pos mx) * pow2 ex / (IZR (Z.pos my) * pow2 ey)).
    { simpl. f_equal; ring. }
    rewrite Hv.
    apply binary_round_aux_error; assumption.
Qed.

(** ** Comparisons *)

Lemma SF_pos_value (m : positive) (e : Z) : 0 < SF2R (S754_finite false m e).
Proof.
  simpl. pose proof (pow2_pos e). assert (0 < IZR (Z.pos m)) by (apply IZR_lt; lia). nra.
Qed.

Lemma canonical_lt (m1 m2 : positive) (e1 e2 : Z) :
  fexp64 (Zdigits2 (Z.pos m1) + e1) = e1 ->
  fexp64 (Zdigits2 (Z.pos m2) + e2) = e2 ->
  (e1 < e2)%Z ->
  SF2R (S754_finite false m1 e1) < SF2R (S754_finite false m2 e2).
Proof.
  intros Hc1 Hc2 Hlt. simpl.
  pose proof (Zdigits2_bounds (Z.pos m1) ltac:(lia)) as [_ Hhi1].
  pose proof (Zdigits2_bounds (Z.pos m2) ltac:(lia)) as [Hlo2 _].
  pose proof (Zdigits2_pos (Z.pos m1) ltac:(lia)).
  pose proof (Zdigits2_pos (Z.pos m2) ltac:(lia)).
  assert (Hd1 : (Zdigits2 (Z.pos m1) <= 53)%Z) by (unfold fexp64 in *; lia).
  assert (Hd2 : (Zdigits2 (Z.pos m2) = 53)%Z) by (unfold fexp64 in *; lia).
  rewrite Hd2 in Hlo2.
  apply IZR_lt in Hhi1. apply IZR_le in Hlo2.
  rewrite <- pow2_IZR in Hhi1, Hlo2 by lia.
  assert (pow2 (Zdigits2 (Z.pos m1)) * pow2 e1 <= pow2 (53 - 1) * pow2 e2).
  { rewrite <- !pow2_add. apply pow2_le. lia. }
  pose proof (pow2_pos e1). pose proof (pow2_pos e2). nra.
Qed.

Lemma SFcompare_finite (x y : float) (m1 m2 : positive) (e1 e2 : Z) :
  Prim2SF x = S754_finite false m1 e1 ->
  Prim2SF y = S754_finite false m2 e2 ->
  (val x < val y /\ SFcompare (Prim2SF x) (Prim2SF y) = Some Lt)
  \/ (val x = val y /\ SFcompare (Prim2SF x) (Prim2SF y) = Some Eq)
  \/ (val y < val x /\ SFcompare (Prim2SF x) (Prim2SF y) = Some Gt).
Proof.
  intros Hx Hy. unfold val. rewrite Hx, Hy.
  destruct (finite_canonical x false m1 e1 Hx) as [Hc1 _].
  destruct (finite_canonical y false m2 e2 Hy) as [Hc2 _].
  unfold SFcompare.
  destruct (Z.compare_spec e1 e2) as [Heq|Hlt|Hgt].
  - subst e2. rewrite Pos.compare_cont_spec. simpl Pos.switch_Eq.
    pose proof (pow2_pos e1).
    destruct (Pos.compare_spec m1 m2) as [E|L|G].
    + subst m2. right. left. split; reflexivity.
    + left. split; [|reflexivity]. simpl.
      assert (IZR (Z.pos m1) < IZR (Z.pos m2)) by (apply IZR_lt; lia). nra.
    + right. right. split; [|reflexivity]. simpl.
      assert (IZR (Z.pos m2) < IZR (Z.pos m1)) by (apply IZR_lt; lia). nra.
  - left. split; [|reflexivity]. apply canonical_lt; assumption.
  - right. right. split; [|reflexivity]. apply canonical_lt; assumption.
Qed.

(** Comparing two numbers that are zero or positive compares their values. *)
Lemma SFcompare_fin (x y : float) :
  fin x -> fin y ->
  (val x < val y /\ SFcompare (Prim2SF x) (Prim2SF y) = Some Lt)
  \/ (val x = val y /\ SFcompare (Prim2SF x) (Prim2SF y) = Some Eq)
  \/ (val y < val x /\ SFcompare (Prim2SF x) (Prim2SF y) = Some Gt).
Proof.
  unfold fin. intros Hx Hy.
  destruct (Prim2SF x) as [sx|sx| |sx mx ex] eqn:Ex; simpl in Hx; try tauto;
    destruct (Prim2SF y) as [sy|sy| |sy my ey] eqn:Ey; simpl in Hy; try tauto.
  - unfold val. rewrite Ex, Ey. right. left. split; reflexivity.
  - destruct sy; [tauto|]. unfold val. rewrite Ex, Ey. left.
    split; [|reflexivity]. simpl SF2R at 1. apply SF_pos_value.
  - destruct sx; [tauto|]. unfold val. rewrite Ex, Ey. right. right.
    split; [|reflexivity]. simpl SF2R at 1. apply SF_pos_value.
  - destruct sx; [tauto|]. destruct sy; [tauto|].
    rewrite <- Ex, <- Ey. exact (SFcompare_finite x y mx my ex ey Ex Ey).
Qed.

Lemma ltb_fin (x y : float) :
  fin x -> fin y -> ((x <? y)%float = true <-> val x < val y).
Proof.
  intros Hx Hy. rewrite ltb_spec. unfold SFltb.
  destruct (SFcompare_fin x y Hx Hy) as [[H ->]|[[H ->]|[H ->]]];
    split; intros; try discriminate; try lra; reflexivity.
Qed.

Lemma eqb_fin (x y : float) :
  fin x -> fin y -> ((x =? y)%float = true <-> val x = val y).
Proof.
  intros Hx Hy. rewrite eqb_spec. unfold SFeqb.
  destruct (SFcompare_fin x y Hx Hy) as [[H ->]|[[H ->]|[H ->]]];
    split; intros; try discriminate; try lra; reflexivity.
Qed.

Lemma leb_fin (x y : float) :
  fin x -> fin y -> ((x <=? y)%float = true <-> val x <= val y).
Proof.
  intros Hx Hy. rewrite leb_spec. unfold SFleb.
  destruct (SFcompare_fin x y Hx Hy) as [[H ->]|[[H ->]|[H ->]]];
    split; intros; try discriminate; try lra; reflexivity.
Qed.

(** ** Numbers that may be [+infinity] *)

Lemma nn_cases (x : float) : nn x -> fin x \/ Prim2SF x = S754_infinity false.
Proof.
  unfold nn, fin. destruct (Prim2SF x) as [s|s| |s m e]; simpl; try tauto.
  destruct s; [tauto|]. right. reflexivity.
Qed.

Lemma fin_pos_finite (x : float) :
  fin x -> 0 < val x -> exists m e, Prim2SF x = S754_finite false m e.
Proof.
  unfold fin, val. destruct (Prim2SF x) as [s|s| |s m e]; simpl; try tauto; try lra.
  destruct s; [tauto|]. intros _ _. eauto.
Qed.

Lemma add_nn (x y : float) : nn x -> nn y -> nn (x + y).
Proof.
  intros Hx Hy.
  destruct (nn_cases x Hx) as [Fx|Ix]; destruct (nn_cases y Hy) as [Fy|Iy].
  - apply add_fin; assumption.
  - unfold nn, fin in *. rewrite add_spec, Iy.
    destruct (Prim2SF x) as [s|s| |s m e]; simpl in *; tauto.
  - unfold nn, fin in *. rewrite add_spec, Ix.
    destruct (Prim2SF y) as [s|s| |s m e]; simpl in *; tauto.
  - unfold nn. rewrite add_spec, Ix, Iy. exact I.
Qed.

(** A sum that is finite has finite terms. *)
Lemma add_fin_inv (x y : float) : fin x -> nn y -> fin (x + y) -> fin y.
Proof.
  intros Fx Hy Fs. destruct (nn_cases y Hy) as [Fy|Iy]; [exact Fy|]. exfalso.
  unfold fin in *. rewrite add_spec, Iy in Fs.
  destruct (Prim2SF x) as [s|s| |s m e]; simpl in *; tauto.
Qed.

Lemma mul_nn_l (k x : float) : fin k -> 0 < val k -> nn x -> nn (k * x).
Proof.
  intros Fk Hk Hx. destruct (fin_pos_finite k Fk Hk) as (m & e & Ek).
  destruct (nn_cases x Hx) as [Fx|Ix].
  - apply mul_fin; assumption.
  - unfold nn. rewrite mul_spec, Ek, Ix. exact I.
Qed.

Lemma mul_nn_r (x k : float) : fin k -> 0 < val k -> nn x -> nn (x * k).
Proof.
  intros Fk Hk Hx. destruct (fin_pos_finite k Fk Hk) as (m & e & Ek).
  destruct (nn_cases x Hx) as [Fx|Ix].
  - apply mul_fin; assumption.
  - unfold nn. rewrite mul_spec, Ek, Ix. exact I.
Qed.

Lemma div_nn_r (x k : float) : fin k -> 0 < val k -> nn x -> nn (x / k).
Proof.
  intros Fk Hk Hx. destruct (fin_pos_finite k Fk Hk) as (m & e & Ek).
  destruct (nn_cases x Hx) as [Fx|Ix].
  - apply div_fin; assumption.
  - unfold nn. rewrite div_spec, Ek, Ix. exact I.
Qed.

Lemma sqrt_nn (x : float) : nn x -> nn (sqrt x).
Proof.
  unfold nn. rewrite sqrt_spec. unfold SF64sqrt, SFsqrt.
  destruct (Prim2SF x) as [s|s| |s m e]; simpl SF_nn; try tauto.
  - destruct s; tauto.
  - destruct s; [tauto|]. intros _.
    destruct (SFsqrt_core_binary prec emax (Z.pos m) e) as [[q e'] l] eqn:Hcore.
    apply binary_round_aux_nn.
    unfold SFsqrt_core_binary in Hcore.
    match type of Hcore with
    | (let (_, _) := Z.sqrtrem ?a in _) = _ =>
        pose proof (Z.sqrtrem_sqrt a) as Hs; destruct (Z.sqrtrem a) as [q0 r0]
    end.
    simpl in Hs. injection Hcore as <- _ _. rewrite Hs. apply Z.sqrt_nonneg.
Qed.

(** ** [min], [max] and the tests *)

Lemma ltb_nn_fin (z k : float) :
  nn z -> fin k -> (z <? k)%float = true -> fin z /\ val z < val k.
Proof.
  intros Hz Fk Hlt. destruct (nn_cases z Hz) as [Fz|Iz].
  - split; [exact Fz|]. apply ltb_fin; assumption.
  - exfalso. rewrite ltb_spec in Hlt. unfold SFltb in Hlt. rewrite Iz in Hlt.
    unfold fin in Fk. destruct (Prim2SF k) as [s|s| |s m e]; simpl in *; try tauto; discriminate.
Qed.

Lemma ltb_false_fin (z k : float) :
  fin z -> fin k -> (z <? k)%float = false -> val k <= val z.
Proof.
  intros Fz Fk Hlt. destruct (Rlt_dec (val z) (val k)) as [H|H]; [|lra].
  apply ltb_fin in H; try assumption. congruence.
Qed.

(** [k <? z] for a positive [k] tells that [z] is not zero. *)
Lemma ltb_pos_nonzero (k z : float) :
  fin k -> 0 < val k -> (k <? z)%float = true -> (z =? 0)%float = false.
Proof.
  intros Fk Hk Hlt. destruct (fin_pos_finite k Fk Hk) as (m & e & Ek).
  rewrite ltb_spec in Hlt. rewrite eqb_spec.
  unfold SFltb, SFeqb in *. rewrite Ek in Hlt.
  change (Prim2SF 0) with (S754_zero false).
  destruct (Prim2SF z) as [s|s| |s mz ez]; simpl in *; try reflexivity; try discriminate.
  - destruct s; reflexivity.
  - destruct s; reflexivity.
Qed.

(** ** [int(x)] *)

Lemma float_trunc_fin (x : float) : fin x -> float_trunc x = Zfloor (val x).
Proof.
  unfold fin, val, float_trunc.
  destruct (Prim2SF x) as [s|s| |s m e]; simpl SF_fin; try tauto.
  - intros _. simpl. symmetry. apply (ZfloorZ 0).
  - destruct s; [tauto|]. intros _. simpl cond_Zopp. simpl SF2R. rewrite Rmult_1_l.
    symmetry. destruct (Z_le_gt_dec 0 e) as [Hpos|Hneg].
    + rewrite Z.shiftl_mul_pow2 by lia. rewrite pow2_IZR by lia.
      rewrite <- mult_IZR. apply ZfloorZ.
    + rewrite <- (Z.opp_involutive e) at 2. rewrite Z.shiftl_opp_r.
      rewrite Z.shiftr_div_pow2 by lia.
      assert (Hp : (0 < 2 ^ (- e))%Z) by (apply Z.pow_pos_nonneg; lia).
      apply Zfloor_eq.
      assert (He : pow2 e = / IZR (2 ^ (- e))).
      { rewrite <- pow2_IZR by lia. rewrite <- pow2_neg. f_equal. lia. }
      rewrite He.
      assert (HpR : 0 < IZR (2 ^ (- e))) by (apply IZR_lt; exact Hp).
      pose proof (Z.mul_div_le (Z.pos m) (2 ^ (- e)) Hp) as Hlo.
      pose proof (Z.mul_succ_div_gt (Z.pos m) (2 ^ (- e)) Hp) as Hhi.
      apply IZR_le in Hlo. apply IZR_lt in Hhi.
      rewrite mult_IZR in Hlo. rewrite mult_IZR, succ_IZR in Hhi.
      set (q := IZR (Z.pos m / 2 ^ (- e))) in *.
      set (d := IZR (2 ^ (- e))) in *.
      assert (Hid : IZR (Z.pos m) * / d * d = IZR (Z.pos m)) by (field; lra).
      split; nra.
Qed.

Lemma float_trunc_nonneg (x : float) : fin x -> (0 <= float_trunc x)%Z.
Proof.
  intros Fx. rewrite float_trunc_fin by exact Fx.
  apply Zfloor_lub. simpl. apply fin_nonneg. exact Fx.
Qed.

Lemma float_trunc_le (x y : float) :
  fin x -> fin y -> val x <= val y -> (float_trunc x <= float_trunc y)%Z.
Proof.
  intros Fx Fy Hle. rewrite !float_trunc_fin by assumption. apply Zfloor_le. exact Hle.
Qed.

Lemma float_is_finite_fin (x : float) : fin x -> float_is_finite x = true.
Proof.
  intros Fx. unfold float_is_finite, is_nan, is_infinity.
  assert (Hrefl : (x =? x)%float = true) by (apply eqb_fin; [exact Fx|exact Fx|reflexivity]).
  rewrite Hrefl. simpl negb at 2. simpl orb.
  rewrite eqb_spec, abs_spec. unfold SFeqb.
  change (Prim2SF infinity) with (S754_infinity false).
  unfold fin in Fx.
  destruct (Prim2SF x) as [s|s| |s m e]; simpl in *; try tauto.
Qed.

(** ** Intervals *)

Lemma eps_le_delta : eps <= delta.
Proof.
  unfold eps, delta. change (-52)%Z with (- (52))%Z.
  rewrite (pow2_neg 52), pow2_IZR by lia.
  change (2 ^ 52)%Z with 4503599627370496%Z.
  apply Rinv_le_contravar; lra.
Qed.

Lemma eta_le_delta : eta <= delta.
Proof.
  apply Rle_trans with eps; [|exact eps_le_delta]. apply pow2_le. lia.
Qed.

Lemma pow2_1023_large : 1000000000000000000 < pow2 1023.
Proof.
  apply Rlt_le_trans with (pow2 64); [|apply pow2_le; lia].
  rewrite pow2_IZR by lia. change (2 ^ 64)%Z with 18446744073709551616%Z.
  apply IZR_lt. reflexivity.
Qed.

Lemma bnd_weaken (lo hi lo' hi' : R) (x : float) :
  bnd lo hi x -> lo' <= lo -> hi <= hi' -> bnd lo' hi' x.
Proof. intros [F [H1 H2]] Hlo Hhi. split; [exact F|lra]. Qed.

Lemma round_error_bounds (v r : R) :
  0 <= v -> Rabs (r - v) <= eta + eps * v ->
  v - delta * (1 + v) <= r <= v + delta * (1 + v).
Proof.
  intros Hv Habs.
  assert (Hb : - (eta + eps * v) <= r - v <= eta + eps * v).
  { revert Habs. unfold Rabs. destruct (Rcase_abs (r - v)); lra. }
  clear Habs.
  pose proof eps_le_delta. pose proof eta_le_delta.
  pose proof eps_pos. pose proof eta_pos.
  split; nra.
Qed.

Lemma mul_bnd (a b c d : R) (x y : float) :
  bnd a b x -> bnd c d y -> 0 <= a -> 0 <= c -> b * d < 1000000000000000000 ->
  bnd (a * c - delta * (1 + b * d)) (b * d + delta * (1 + b * d)) (x * y).
Proof.
  intros [Fx [Hx1 Hx2]] [Fy [Hy1 Hy2]] Ha Hc Hbig.
  destruct (mul_fin x y Fx Fy) as (_ & Hfin & Herr).
  assert (Hprod : a * c <= val x * val y <= b * d) by (split; nra).
  pose proof pow2_1023_large.
  assert (F : fin (x * y)) by (apply Hfin; lra).
  split; [exact F|].
  pose proof (round_error_bounds (val x * val y) (val (x * y)) ltac:(nra) (Herr F)).
  unfold delta in *. nra.
Qed.

Lemma add_bnd (a b c d : R) (x y : float) :
  bnd a b x -> bnd c d y -> 0 <= a -> 0 <= c -> b + d < 1000000000000000000 ->
  bnd (a + c - delta * (1 + b + d)) (b + d + delta * (1 + b + d)) (x + y).
Proof.
  intros [Fx [Hx1 Hx2]] [Fy [Hy1 Hy2]] Ha Hc Hbig.
  destruct (add_fin x y Fx Fy) as (_ & Hfin & Herr).
  pose proof pow2_1023_large.
  assert (F : fin (x + y)) by (apply Hfin; lra).
  split; [exact F|].
  pose proof (round_error_bounds (val x + val y) (val (x + y)) ltac:(lra) (Herr F)).
  unfold delta in *. nra.
Qed.

Lemma sub_bnd (a b c d : R) (x y : float) :
  bnd a b x -> bnd c d y -> 0 <= c -> d <= a -> b < 1000000000000000000 ->
  bnd (a - d - delta * (1 + b)) (b - c + delta * (1 + b)) (x - y).
Proof.
  intros [Fx [Hx1 Hx2]] [Fy [Hy1 Hy2]] Hc Hda Hbig.
  destruct (sub_fin x y Fx Fy ltac:(lra)) as (_ & Hfin & Herr).
  pose proof pow2_1023_large.
  assert (F : fin (x - y)) by (apply Hfin; lra).
  split; [exact F|].
  pose proof (round_error_bounds (val x - val y) (val (x - y)) ltac:(lra) (Herr F)).
  unfold delta in *. nra.
Qed.

Lemma div_bnd (a b c d : R) (x y : float) :
  bnd a b x -> bnd c d y -> 0 <= a -> 0 < c -> b / c < 1000000000000000000 ->
  bnd (a / d - delta * (1 + b / c)) (b / c + delta * (1 + b / c)) (x / y).
Proof.
  intros [Fx [Hx1 Hx2]] [Fy [Hy1 Hy2]] Ha Hc Hbig.
  destruct (div_fin x y Fx Fy ltac:(lra)) as (_ & Hfin & Herr).
  pose proof pow2_1023_large.
  assert (Hq : a / d <= val x / val y <= b / c).
  { assert (0 < val y) by lra. assert (0 < d) by lra.
    split.
    - apply Rle_trans with (a / val y).
      + unfold Rdiv. apply Rmult_le_compat_l; [lra|]. apply Rinv_le_contravar; lra.
      + unfold Rdiv. apply Rmult_le_compat_r; [|lra]. apply Rlt_le, Rinv_0_lt_compat. lra.
    - apply Rle_trans with (b / val y).
      + unfold Rdiv. apply Rmult_le_compat_r; [|lra]. apply Rlt_le, Rinv_0_lt_compat. lra.
      + unfold Rdiv. apply Rmult_le_compat_l; [lra|]. apply Rinv_le_contravar; lra. }
  assert (Hq0 : 0 <= a / d).
  { unfold Rdiv. apply Rmult_le_pos; [lra|]. apply Rlt_le, Rinv_0_lt_compat. lra. }
  assert (F : fin (x / y)) by (apply Hfin; lra).
  split; [exact F|].
  pose proof (round_error_bounds (val x / val y) (val (x / y)) ltac:(lra) (Herr F)).
  unfold delta in *. nra.
Qed.

(** ** Constants *)

Lemma bnd_of_SF (x : float) (f : spec_float) (lo hi : R) :
  Prim2SF x = f -> SF_fin f -> lo <= SF2R f <= hi -> bnd lo hi x.
Proof. intros E F H. unfold bnd, fin, val. rewrite E. split; assumption. Qed.

Lemma pow2_neg_lit (p : positive) (v : Z) :
  (2 ^ Z.pos p)%Z = v -> pow2 (Z.neg p) = / IZR v.
Proof.
  intros <-. change (Z.neg p) with (- Z.pos p)%Z.
  rewrite pow2_neg, pow2_IZR by lia. reflexivity.
Qed.

(** The bounds of a constant, from its value. *)
Ltac const_bnd :=
  lazymatch goal with
  | |- bnd _ _ ?c =>
      let f := eval vm_compute in (Prim2SF c) in
      apply (bnd_of_SF c f);
      [ vm_compute; reflexivity
      | exact I
      | unfold SF2R;
        try match goal with
        | |- context [pow2 (Z.neg ?p)] =>
            let v := eval vm_compute in (2 ^ Z.pos p)%Z in
            rewrite (pow2_neg_lit p v eq_refl)
        end;
        lra ]
  end.

Ltac float_ops :=
  cbn [of_int fadd fsub fmul fdiv fsqrt feqb fltb fleb is_finite to_int Binary64] in *.

(** ** [min] and [max] *)

Lemma pymin_nn (k z : float) :
  fin k -> nn z ->
  (pymin k z = z /\ fin z /\ val z < val k)
  \/ (pymin k z = k /\ (fin z -> val k <= val z)).
Proof.
  intros Fk Hz. unfold pymin. float_ops.
  destruct (z <? k)%float eqn:E.
  - left. destruct (ltb_nn_fin z k Hz Fk E). auto.
  - right. split; [reflexivity|]. intros Fz. apply ltb_false_fin; assumption.
Qed.

(** [min(k, z)] for a [z] that may have overflowed. *)
Lemma pymin_cap (k z : float) (lo : R) :
  fin k -> nn z -> (fin z -> lo <= val z) -> lo <= val k ->
  bnd lo (val k) (pymin k z).
Proof.
  intros Fk Hz Hlo Hk.
  destruct (pymin_nn k z Fk Hz) as [(-> & Fz & Hlt)|(-> & _)].
  - split; [exact Fz|]. specialize (Hlo Fz). lra.
  - split; [exact Fk|]. lra.
Qed.

Lemma pymax_keeps (a x : float) :
  fin a -> fin x -> val a < val x -> pymax a x = x.
Proof.
  intros Fa Fx Hlt. unfold pymax. float_ops.
  apply ltb_fin in Hlt; try assumption. rewrite Hlt. reflexivity.
Qed.

Lemma nn_of_bnd (lo hi : R) (x : float) : bnd lo hi x -> nn x.
Proof. intros [F _]. apply fin_nn. exact F. Qed.

(** A sum is not below its first term, up to rounding. *)
Lemma add_lower (a t : float) :
  fin a -> nn t -> fin (a + t) -> val a * (1 - delta) - delta <= val (a + t).
Proof.
  intros Fa Ht Fs. pose proof (add_fin_inv a t Fa Ht Fs) as Ft.
  destruct (add_fin a t Fa Ft) as (_ & _ & Herr).
  pose proof (fin_nonneg a Fa). pose proof (fin_nonneg t Ft).
  pose proof (round_error_bounds (val a + val t) (val (a + t)) ltac:(lra) (Herr Fs)).
  assert (0 < delta) by (unfold delta; lra).
  assert (delta < 1) by (unfold delta; lra).
  nra.
Qed.

(** A constant that is positive. *)
Ltac const_pos :=
  lazymatch goal with
  | |- fin ?c /\ 0 < val ?c =>
      let H := fresh in
      assert (H : bnd (1 / 100) 1000000 c) by const_bnd;
      destruct H as [? [? ?]]; split; [assumption|lra]
  end.

(** ** Rounding is monotone *)

Lemma Zdigits2_mono (a b : Z) :
  (0 < a)%Z -> (a <= b)%Z -> (Zdigits2 a <= Zdigits2 b)%Z.
Proof.
  intros Ha Hab.
  destruct (Zdigits2_bounds a Ha) as [Hlo _].
  destruct (Zdigits2_bounds b ltac:(lia)) as [_ Hhi].
  pose proof (Zdigits2_pos b ltac:(lia)) as Hb.
  assert (Hlt : (2 ^ (Zdigits2 a - 1) < 2 ^ Zdigits2 b)%Z) by lia.
  apply Z.pow_lt_mono_r_iff in Hlt; lia.
Qed.

(** Rounding never goes below the mantissa cut at the exponent of the
    format. *)
Lemma binary_round_aux_floor (m e : Z) (l : location) :
  (0 <= m)%Z ->
  (e <= fexp64 (Zdigits2 m + e))%Z ->
  let t := fexp64 (Zdigits2 m + e) in
  let f := binary_round_aux prec emax false m e l in
  SF_fin f -> IZR (m / 2 ^ (t - e)) * pow2 t <= SF2R f.
Proof.
  intros Hm He t f.
  destruct (binary_round_aux_spec false m e l Hm) as (m2 & Hm2 & Hres).
  cbv zeta in Hm2, Hres.
  replace (Z.max e (fexp64 (Zdigits2 m + e))) with t in Hm2, Hres by (subst t; lia).
  fold f in Hres.
  assert (Hpow : (0 < 2 ^ (t - e))%Z) by (apply Z.pow_pos_nonneg; lia).
  assert (Hm1 : (0 <= m / 2 ^ (t - e))%Z) by (apply Z.div_pos; lia).
  set (m1 := (m / 2 ^ (t - e))%Z) in *.
  pose proof (pow2_pos t) as Hpt.
  destruct Hm2 as [Hm2 _]. apply IZR_le in Hm2.
  destruct Hres as [[Hz ->]|[[Hr ->]|[Hc ->]]].
  - intros _. cbn [SF2R]. rewrite Hz in Hm2. apply IZR_le in Hm1. nra.
  - destruct (t <=? 971)%Z; cbn [SF_fin SF2R]; [|tauto]. intros _.
    rewrite Z2Pos.id by lia. nra.
  - destruct (t + 1 <=? 971)%Z; cbn [SF_fin SF2R]; [|tauto]. intros _.
    rewrite Z2Pos.id by lia. rewrite pow2_add.
    replace (pow2 1) with 2 by (unfold pow2; simpl; lra).
    rewrite Hc in Hm2.
    change (2 ^ 53)%Z with (2 * 2 ^ 52)%Z in Hm2. rewrite mult_IZR in Hm2.
    nra.
Qed.

(** Rounding is not below a number of the format that the rounded value
    is not below. *)
Lemma binary_round_ge (m : positive) (e : Z) (ma : positive) (ea : Z) :
  fexp64 (Zdigits2 (Z.pos ma) + ea) = ea ->
  (e <= ea)%Z ->
  IZR (Z.pos ma) * pow2 ea <= IZR (Z.pos m) * pow2 e ->
  SF_fin (binary_round prec emax false m e) ->
  IZR (Z.pos ma) * pow2 ea <= SF2R (binary_round prec emax false m e).
Proof.
  intros Hca Hea Hle. unfold binary_round.
  change (fexp prec emax) with fexp64.
  change (Z.pos (digits2_pos m)) with (Zdigits2 (Z.pos m)).
  pose proof (shl_align_spec m e (fexp64 (Zdigits2 (Z.pos m) + e))) as Hal.
  destruct (shl_align m e (fexp64 (Zdigits2 (Z.pos m) + e))) as [mz ez].
  destruct Hal as [Hez Hmz].
  assert (Hd : (Zdigits2 (Z.pos mz) + ez = Zdigits2 (Z.pos m) + e)%Z).
  { rewrite Hmz, Zdigits2_shift by lia. lia. }
  assert (He : (ez <= fexp64 (Zdigits2 (Z.pos mz) + ez))%Z) by (rewrite Hd; lia).
  intros Hfin.
  pose proof (binary_round_aux_floor (Z.pos mz) ez loc_Exact ltac:(lia) He Hfin) as Hfl.
  cbv zeta in Hfl.
  eapply Rle_trans; [|exact Hfl]. clear Hfl Hfin.
  set (t := fexp64 (Zdigits2 (Z.pos mz) + ez)) in *.
  assert (Hv : IZR (Z.pos m) * pow2 e = IZR (Z.pos mz) * pow2 ez).
  { rewrite Hmz, mult_IZR, <- pow2_IZR by lia.
    rewrite Rmult_assoc, <- pow2_add. do 2 f_equal. lia. }
  rewrite Hv in Hle.
  assert (Hez' : (ez <= ea)%Z) by lia.
  (* the two numbers at the exponent [ez] *)
  assert (Hint : (Z.pos ma * 2 ^ (ea - ez) <= Z.pos mz)%Z).
  { apply le_IZR. rewrite mult_IZR, <- pow2_IZR by lia.
    pose proof (pow2_pos ez) as Hpz.
    assert (Hsplit : pow2 ea = pow2 (ea - ez) * pow2 ez).
    { rewrite <- pow2_add. f_equal. lia. }
    rewrite Hsplit in Hle.
    apply Rmult_le_reg_r with (pow2 ez); [exact Hpz|]. lra. }
  assert (Hdig : (Zdigits2 (Z.pos ma) + ea <= Zdigits2 (Z.pos mz) + ez)%Z).
  { assert (Hpos : (0 < Z.pos ma * 2 ^ (ea - ez))%Z)
      by (apply Z.mul_pos_pos; [lia|apply Z.pow_pos_nonneg; lia]).
    pose proof (Zdigits2_mono _ _ Hpos Hint) as Hm.
    rewrite Zdigits2_shift in Hm by lia. lia. }
  assert (Ht : (ea <= t)%Z) by (subst t; unfold fexp64 in *; lia).
  assert (Hpow : (0 < 2 ^ (t - ez))%Z) by (apply Z.pow_pos_nonneg; lia).
  pose proof (pow2_pos t) as Hpt.
  destruct (Z.eq_dec t ea) as [Heq|Hne].
  - rewrite <- Heq.
    assert (Hm1 : (Z.pos ma <= Z.pos mz / 2 ^ (t - ez))%Z).
    { apply Z.div_le_lower_bound; [exact Hpow|]. rewrite <- Heq in Hint. lia. }
    apply IZR_le in Hm1. nra.
  - assert (Htd : (t = Zdigits2 (Z.pos mz) + ez - 53)%Z)
      by (subst t; unfold fexp64 in *; lia).
    assert (Hlt : (Zdigits2 (Z.pos ma) + ea < Zdigits2 (Z.pos mz) + ez)%Z)
      by (subst t; unfold fexp64 in *; lia).
    destruct (Zdigits2_bounds (Z.pos mz) ltac:(lia)) as [Hzlo _].
    destruct (Zdigits2_bounds (Z.pos ma) ltac:(lia)) as [_ Hahi].
    pose proof (Zdigits2_pos (Z.pos ma) ltac:(lia)) as Hdpos.
    assert (Hm1 : (2 ^ 52 <= Z.pos mz / 2 ^ (t - ez))%Z).
    { apply Z.div_le_lower_bound; [exact Hpow|].
      rewrite <- Z.pow_add_r by lia.
      replace (t - ez + 52)%Z with (Zdigits2 (Z.pos mz) - 1)%Z by lia. exact Hzlo. }
    apply IZR_le in Hm1. rewrite <- pow2_IZR in Hm1 by lia.
    apply IZR_lt in Hahi. rewrite <- pow2_IZR in Hahi by lia.
    pose proof (pow2_pos ea) as Hpa.
    apply Rle_trans with (pow2 (Zdigits2 (Z.pos ma)) * pow2 ea); [nra|].
    apply Rle_trans with (pow2 52 * pow2 t); [|nra].
    rewrite <- !pow2_add. apply pow2_le. lia.
Qed.

(** A sum is not below its terms. *)
Lemma add_ge (x y : float) :
  fin x -> fin y -> fin (x + y) ->
  val x <= val (x + y) /\ val y <= val (x + y).
Proof.
  unfold fin, val. rewrite add_spec.
  destruct (Prim2SF x) as [sx|sx| |sx mx ex] eqn:Hx; cbn [SF_fin]; try tauto;
    destruct (Prim2SF y) as [sy|sy| |sy my ey] eqn:Hy; cbn [SF_fin]; try tauto.
  - intros _ _ _. unfold SF64add, SFadd.
    destruct sx, sy; cbn [SF2R]; lra.
  - destruct sy; [tauto|]. intros _ _ _. unfold SF64add, SFadd. cbn [SF2R].
    pose proof (SF_pos_value my ey). cbn [SF2R] in *. lra.
  - destruct sx; [tauto|]. intros _ _ _. unfold SF64add, SFadd. cbn [SF2R].
    pose proof (SF_pos_value mx ex). cbn [SF2R] in *. lra.
  - destruct sx; [tauto|]. destruct sy; [tauto|]. intros _ _.
    unfold SF64add, SFadd.
    pose proof (shl_align_spec mx ex (Z.min ex ey)) as Hax.
    pose proof (shl_align_spec my ey (Z.min ex ey)) as Hay.
    destruct (shl_align mx ex (Z.min ex ey)) as [mx' ex'].
    destruct (shl_align my ey (Z.min ex ey)) as [my' ey'].
    destruct Hax as [Hex' Hmx']. destruct Hay as [Hey' Hmy'].
    simpl fst. simpl cond_Zopp.
    change (Z.pos mx' + Z.pos my')%Z with (Z.pos (mx' + my')).
    simpl binary_normalize.
    assert (Hv : SF2R (S754_finite false mx ex) + SF2R (S754_finite false my ey)
                 = IZR (Z.pos (mx' + my')) * pow2 (Z.min ex ey)).
    { cbn [SF2R]. rewrite Pos2Z.inj_add, plus_IZR, Hmx', Hmy', !mult_IZR.
      rewrite <- (pow2_IZR (ex - ex')), <- (pow2_IZR (ey - ey')) by lia.
      rewrite Rmult_plus_distr_r, !Rmult_assoc, <- !pow2_add.
      replace (ex - ex' + Z.min ex ey)%Z with ex by lia.
      replace (ey - ey' + Z.min ex ey)%Z with ey by lia. ring. }
    intros Hfin.
    destruct (finite_canonical x false mx ex Hx) as [Hcx _].
    destruct (finite_canonical y false my ey Hy) as [Hcy _].
    pose proof (SF_pos_value mx ex) as Hpx. pose proof (SF_pos_value my ey) as Hpy.
    cbn [SF2R] in *. rewrite !Rmult_1_l in *.
    split.
    + apply binary_round_ge; [exact Hcx|lia| |exact Hfin]. lra.
    + apply binary_round_ge; [exact Hcy|lia| |exact Hfin]. lra.
Qed.

(** A sum keeps the lower bound of either term. *)
Lemma add_bnd_l (a b c d : R) (x y : float) :
  bnd a b x -> bnd c d y -> 0 <= a -> 0 <= c -> b + d < 1000000000000000000 ->
  bnd a (b + d + delta * (1 + b + d)) (x + y).
Proof.
  intros X Y Ha Hc Hbig.
  destruct (add_bnd a b c d x y X Y Ha Hc Hbig) as [F [_ Hhi]].
  destruct X as [Fx [Hx _]], Y as [Fy _].
  destruct (add_ge x y Fx Fy F) as [Hge _].
  split; [exact F|]. lra.
Qed.

Lemma add_bnd_r (a b c d : R) (x y : float) :
  bnd a b x -> bnd c d y -> 0 <= a -> 0 <= c -> b + d < 1000000000000000000 ->
  bnd c (b + d + delta * (1 + b + d)) (x + y).
Proof.
  intros X Y Ha Hc Hbig.
  destruct (add_bnd a b c d x y X Y Ha Hc Hbig) as [F [_ Hhi]].
  destruct X as [Fx _], Y as [Fy [Hy _]].
  destruct (add_ge x y Fx Fy F) as [_ Hge].
  split; [exact F|]. lra.
Qed.

(** * The complexity score in binary64 *)


Lemma keyword_weights_b64 :
  Forall (fun kw : str * float => fin (snd kw) /\ 0 < val (snd kw))
         (AdaptiveBudget.ANALYSIS_KEYWORDS (FA := Binary64)).
Proof.
  unfold AdaptiveBudget.ANALYSIS_KEYWORDS.
  repeat (apply Forall_cons; [cbn [snd]; const_pos|]). apply Forall_nil.
Qed.

Lemma keyword_totals_b64 (text : str) :
  nn (fst (AdaptiveBudget.keyword_totals (FA := Binary64) text)).
Proof.
  unfold AdaptiveBudget.keyword_totals.
  apply (fold_left_invariant (fun acc : float * Z => nn (fst acc))).
  - intros [w n] [kw weight] Hin Hacc. cbn [fst] in Hacc.
    pose proof keyword_weights_b64 as Hall.
    rewrite Forall_forall in Hall. specialize (Hall _ Hin). cbn [snd] in Hall.
    destruct Hall as [Fw Hw].
    destruct (Z.ltb_spec 0 (Z.of_nat (count kw text))) as [Hpos|_];
      cbn [fst]; [|exact Hacc].
    float_ops. apply add_nn; [exact Hacc|].
    apply mul_nn_l; [exact Fw|exact Hw|].
    apply sqrt_nn. apply float_of_Z_nonneg. lia.
  - cbn [fst]. apply (nn_of_bnd 0 0). const_bnd.
Qed.

(** [min(1.0, z)] is between 0 and 1 for every [z] that is not negative. *)
Lemma pymin_one (z : float) :
  nn z -> bnd 0 1 (pymin (dec (FA := Binary64) 10 1) z).
Proof.
  intros Hz.
  assert (K : bnd 1 1 (dec (FA := Binary64) 10 1)) by const_bnd.
  set (k := dec 10 1) in *. destruct K as [Fk Hk].
  apply bnd_weaken with (lo := 0) (hi := val k); [|lra|lra].
  apply pymin_cap; [exact Fk|exact Hz| |lra].
  intros Fz. apply fin_nonneg. exact Fz.
Qed.

Lemma keyword_complexity_b64 (text : str) (n : Z) :
  exists k, AdaptiveBudget._calculate_keyword_complexity (FA := Binary64) text n = Ok k
            /\ bnd 0 1 k.
Proof.
  unfold AdaptiveBudget._calculate_keyword_complexity.
  pose proof (keyword_totals_b64 text) as Hw.
  destruct (AdaptiveBudget.keyword_totals text) as [w c]. cbn [fst] in Hw.
  destruct (feqb w (of_int 0)).
  - eexists; split; [reflexivity|]. const_bnd.
  - unfold py_div.
    assert (Hd : feqb (pymax (of_int (FA := Binary64) 1) (of_int n / of_int 10)%py)
                      (of_int 0) = false).
    { unfold pymax.
      destruct (fltb (of_int (FA := Binary64) 1) (of_int n / of_int 10)%py) eqn:E.
      - float_ops.
        assert (H1 : bnd 1 1 (float_of_Z 1)) by const_bnd.
        destruct H1 as [F1 H1].
        apply (ltb_pos_nonzero (float_of_Z 1)); [exact F1|lra|exact E].
      - vm_compute. reflexivity. }
    rewrite Hd. cbn [bind].
    eexists; split; [reflexivity|].
    assert (C5 : fin (dec (FA := Binary64) 5 1) /\ 0 < val (dec (FA := Binary64) 5 1)) by const_pos.
    assert (C100 : fin (dec (FA := Binary64) 100 1) /\ 0 < val (dec (FA := Binary64) 100 1))
      by const_pos.
    apply pymin_one. float_ops.
    apply div_nn_r; [apply C100|apply C100|].
    destruct (PrimFloat.ltb _ _); [|exact Hw].
    apply mul_nn_r; [apply C5|apply C5|exact Hw].
Qed.

Lemma code_complexity_b64 (text : str) :
  bnd 0 1 (AdaptiveBudget._calculate_code_complexity (FA := Binary64) text).
Proof.
  unfold AdaptiveBudget._calculate_code_complexity.
  apply pymin_one.
  apply (fold_left_invariant (fun acc : float => nn acc)).
  - intros acc [pattern is_block] _ Hacc.
    destruct (Z.ltb_spec 0 (Z.of_nat (findall pattern text))) as [Hpos|_];
      [|exact Hacc].
    assert (C5 : fin (dec (FA := Binary64) 5 1) /\ 0 < val (dec (FA := Binary64) 5 1)) by const_pos.
    assert (C1 : fin (dec (FA := Binary64) 1 1) /\ 0 < val (dec (FA := Binary64) 1 1)) by const_pos.
    destruct is_block; float_ops; apply add_nn; try exact Hacc;
      apply mul_nn_r; try (apply C5); try (apply C1);
      apply float_of_Z_nonneg; lia.
  - apply (nn_of_bnd 0 0). const_bnd.
Qed.

Lemma question_weights_b64 :
  Forall (fun q : str * float => fin (snd q) /\ 0 < val (snd q))
         (AdaptiveBudget.QUESTION_INDICATORS (FA := Binary64)).
Proof.
  unfold AdaptiveBudget.QUESTION_INDICATORS.
  repeat (apply Forall_cons; [cbn [snd]; const_pos|]). apply Forall_nil.
Qed.

Lemma question_complexity_b64 (text : str) :
  bnd 0 1 (AdaptiveBudget._calculate_question_complexity (FA := Binary64) text).
Proof.
  unfold AdaptiveBudget._calculate_question_complexity.
  set (score := fold_left _ _ _).
  assert (Hs : nn score).
  { subst score. apply (fold_left_invariant (fun acc : float => nn acc)).
    - intros acc [indicator weight] Hin Hacc.
      pose proof question_weights_b64 as Hall.
      rewrite Forall_forall in Hall. specialize (Hall _ Hin). cbn [snd] in Hall.
      destruct (contains indicator text); [|exact Hacc].
      float_ops. apply add_nn; [exact Hacc|]. apply fin_nn. apply Hall.
    - apply (nn_of_bnd 0 0). const_bnd. }
  cbv zeta.
  assert (C12 : fin (dec (FA := Binary64) 12 1) /\ 0 < val (dec (FA := Binary64) 12 1)) by const_pos.
  assert (C50 : fin (dec (FA := Binary64) 50 1) /\ 0 < val (dec (FA := Binary64) 50 1)) by const_pos.
  apply pymin_one. float_ops.
  apply div_nn_r; [apply C50|apply C50|].
  destruct (_ <? _)%Z; [|exact Hs].
  apply mul_nn_r; [apply C12|apply C12|exact Hs].
Qed.

Lemma bnd_weaken0 (lo hi hi' : R) (x : float) :
  bnd lo hi x -> hi <= hi' -> bnd 0 hi' x.
Proof.
  intros [F [H1 H2]] Hhi. split; [exact F|]. pose proof (fin_nonneg x F). lra.
Qed.

(** One step of interval arithmetic: the operands' bounds are hypotheses. *)
Ltac interval lem :=
  eapply bnd_weaken;
  [ eapply lem; [eassumption|eassumption|lra..]
  | unfold delta; lra
  | unfold delta; lra ].

Ltac interval0 lem :=
  eapply bnd_weaken0;
  [ eapply lem; [eassumption|eassumption|lra..]
  | unfold delta; lra ].

(** The double [0.025], which is [0.1 * 0.25]. *)
Lemma literal_025 :
  (dec (FA := Binary64) 1 1 * dec 25 2)%py = dec (FA := Binary64) 25 3
  /\ bnd (25 / 1000) (25001 / 1000000) (dec (FA := Binary64) 25 3).
Proof. split; [vm_compute; reflexivity|const_bnd]. Qed.

(** The length term of the score, [length_score * 0.25], is at least the
    double [0.025]. *)
Lemma length_weight_b64 (n : Z) :
  bnd (val (dec (FA := Binary64) 25 3)) (2251 / 10000)
      (AdaptiveBudget._calculate_length_complexity (FA := Binary64) n * dec 25 2)%py.
Proof.
  destruct literal_025 as [E025 [F025 H025]].
  unfold AdaptiveBudget._calculate_length_complexity, AdaptiveBudget.SHORT_QUERY,
    AdaptiveBudget.MEDIUM_QUERY, AdaptiveBudget.LONG_QUERY.
  destruct (Z.leb_spec n 50).
  { rewrite E025. split; [exact F025|lra]. }
  destruct (Z.leb_spec n 150).
  { apply bnd_weaken with (lo := 7 / 100) (hi := 8 / 100); [const_bnd|lra|lra]. }
  destruct (Z.leb_spec n 300) as [|Hn].
  { apply bnd_weaken with (lo := 14 / 100) (hi := 16 / 100); [const_bnd|lra|lra]. }
  cbv zeta.
  assert (K : bnd (9 / 10) (9001 / 10000) (dec (FA := Binary64) 9 1)) by const_bnd.
  assert (A : bnd (59 / 100) (7 / 10) (dec (FA := Binary64) 6 1)) by const_bnd.
  assert (C : fin (dec (FA := Binary64) 3 1) /\ 0 < val (dec (FA := Binary64) 3 1))
    by const_pos.
  assert (M : fin (of_int (FA := Binary64) 1000) /\ 0 < val (of_int (FA := Binary64) 1000))
    by const_pos.
  assert (Q25 : bnd (1 / 4) (1 / 4) (dec (FA := Binary64) 25 2)) by const_bnd.
  set (k := dec 9 1) in *. set (a := dec 6 1) in *. set (c := dec 3 1) in *.
  set (t := of_int 1000) in *. set (q25 := dec 25 2) in *.
  destruct K as [Fk Hk], A as [Fa Ha], C as [Fc Hc], M as [Ft Ht].
  float_ops.
  assert (Nz : nn ((float_of_Z (n - 300) / t) * c)%float).
  { apply mul_nn_r; try assumption. apply div_nn_r; try assumption.
    apply float_of_Z_nonneg. lia. }
  assert (L : bnd (58 / 100) (9001 / 10000)
                  (pymin k (a + float_of_Z (n - 300) / t * c)%float)).
  { apply bnd_weaken with (lo := 58 / 100) (hi := val k); [|lra|lra].
    apply pymin_cap; [assumption| |intros Fz|lra].
    - apply add_nn; [apply fin_nn; exact Fa|exact Nz].
    - pose proof (add_lower a _ Fa Nz Fz). unfold delta in *. lra. }
  apply bnd_weaken with (lo := 14 / 100) (hi := 2251 / 10000); [|lra|lra].
  interval mul_bnd.
Qed.

(** [analyze_complexity] returns a score between the double [0.025] and 1. *)
Lemma analyze_complexity_floor (user_input mode : str) :
  exists c, AdaptiveBudget.analyze_complexity (FA := Binary64) user_input mode = Ok c
            /\ bnd (val (dec (FA := Binary64) 25 3)) 1 c.
Proof.
  destruct literal_025 as [_ [F025 H025]].
  unfold AdaptiveBudget.analyze_complexity.
  destruct user_input as [|ch rest].
  { eexists; split; [reflexivity|].
    apply bnd_weaken with (lo := 1 / 10) (hi := 1); [const_bnd|lra|lra]. }
  set (user_input := ch :: rest).
  destruct (len (lower (strip user_input)) =? 0)%Z.
  { eexists; split; [reflexivity|].
    apply bnd_weaken with (lo := 1 / 10) (hi := 1); [const_bnd|lra|lra]. }
  destruct (keyword_complexity_b64 (lower (strip user_input))
              (len (lower (strip user_input)))) as (k & Hk & K).
  rewrite Hk. cbn [bind]. cbv zeta.
  pose proof (length_weight_b64 (len (lower (strip user_input)))) as P1.
  pose proof (code_complexity_b64 user_input) as C.
  pose proof (question_complexity_b64 (lower (strip user_input))) as Q.
  set (ls := AdaptiveBudget._calculate_length_complexity _) in *.
  set (cs := AdaptiveBudget._calculate_code_complexity _) in *.
  set (qs := AdaptiveBudget._calculate_question_complexity _) in *.
  assert (Z0 : bnd 0 0 (dec (FA := Binary64) 0 1)) by const_bnd.
  assert (Q25 : bnd (1 / 4) (1 / 4) (dec (FA := Binary64) 25 2)) by const_bnd.
  assert (Q30 : bnd (2999999 / 10000000) (3000001 / 10000000) (dec (FA := Binary64) 30 2))
    by const_bnd.
  assert (Q20 : bnd (1999999 / 10000000) (2000001 / 10000000) (dec (FA := Binary64) 20 2))
    by const_bnd.
  assert (Q12 : bnd (1199999 / 1000000) (1200001 / 1000000) (dec (FA := Binary64) 12 1))
    by const_bnd.
  assert (One : bnd 1 1 (dec (FA := Binary64) 10 1)) by const_bnd.
  set (lo := val (dec 25 3)) in *.
  set (z0 := dec 0 1) in *. set (q25 := dec 25 2) in *. set (q30 := dec 30 2) in *.
  set (q20 := dec 20 2) in *. set (q12 := dec 12 1) in *. set (one := dec 10 1) in *.
  float_ops.
  assert (S1 : bnd lo (2252 / 10000) (z0 + ls * q25)%float)
    by interval add_bnd_r.
  assert (P2 : bnd 0 (3001 / 10000) (k * q30)%float) by interval0 mul_bnd.
  assert (S2 : bnd lo (5254 / 10000) (z0 + ls * q25 + k * q30)%float)
    by interval add_bnd_l.
  assert (P3 : bnd 0 (2501 / 10000) (cs * q25)%float) by interval0 mul_bnd.
  assert (S3 : bnd lo (7756 / 10000)
                   (z0 + ls * q25 + k * q30 + cs * q25)%float)
    by interval add_bnd_l.
  assert (P4 : bnd 0 (2001 / 10000) (qs * q20)%float) by interval0 mul_bnd.
  assert (S4 : bnd lo (9758 / 10000)
                   (z0 + ls * q25 + k * q30 + cs * q25 + qs * q20)%float)
    by interval add_bnd_l.
  set (s4 := (z0 + ls * q25 + k * q30 + cs * q25 + qs * q20)%float) in *.
  assert (S5 : exists s5, bnd lo (12 / 10) s5
                 /\ (if PyStr.eqb mode (of_string "tools"%string)
                     then (s4 * q12)%float else s4) = s5).
  { destruct (PyStr.eqb mode _); eexists; (split; [|reflexivity]).
    - interval mul_bnd.
    - eapply bnd_weaken; [exact S4|lra|lra]. }
  destruct S5 as (s5 & S5 & ->).
  eexists; split; [reflexivity|].
  assert (M : bnd lo 1 (pymin one s5)).
  { destruct One as [F1 H1]. destruct S5 as [F5 H5].
    destruct (pymin_nn one s5 F1 (fin_nn _ F5)) as [(-> & _ & Hlt)|(-> & _)].
    - split; [exact F5|lra].
    - split; [exact F1|lra]. }
  rewrite pymax_keeps; [exact M|apply Z0|apply M|].
  destruct Z0 as [_ Hz]. destruct M as [_ Hm]. lra.
Qed.

(** In particular the score is at least 0.024999 and at most 1. *)
Lemma analyze_complexity_b64 (user_input mode : str) :
  exists c, AdaptiveBudget.analyze_complexity (FA := Binary64) user_input mode = Ok c
            /\ bnd (24999 / 1000000) 1 c.
Proof.
  destruct (analyze_complexity_floor user_input mode) as (c & Hc & C).
  destruct literal_025 as [_ [_ H025]].
  exists c. split; [exact Hc|]. eapply bnd_weaken; [exact C|lra|lra].
Qed.

Lemma eqb_zero_false (x : float) :
  fin x -> 0 < val x -> (x =? float_of_Z 0)%float = false.
Proof.
  intros F H.
  assert (Z0 : bnd 0 0 (float_of_Z 0)) by const_bnd.
  destruct Z0 as [F0 H0].
  destruct (x =? float_of_Z 0)%float eqn:E; [|reflexivity].
  apply eqb_fin in E; try assumption. lra.
Qed.

(** * The percentages in binary64 *)

Lemma adaptive_percentages_b64 (m : AdaptiveBudget.InteractionMode) (c : float) :
  bnd (24999 / 1000000) 1 c ->
  let base := AdaptiveBudget.base_budgets (FA := Binary64) m in
  exists p : buckets float,
    AdaptiveBudget.adaptive_percentages (FA := Binary64) m c = Ok p
    /\ system_prompt p = system_prompt base
    /\ tool_definitions p = tool_definitions base
    /\ safety_margin p = safety_margin base
    /\ reserved p = reserved base
    /\ bnd 37 56 (conversation_memory p)
    /\ bnd (122 / 10) 27 (response_generation p).
Proof.
  intros C base. subst base.
  unfold AdaptiveBudget.adaptive_percentages, py_div. cbv zeta.
  set (r := AdaptiveBudget.adaptive_ranges m).
  assert (RR : bnd 10 10 (AdaptiveBudget.response_max r - AdaptiveBudget.response_min r)%py).
  { subst r. destruct m; const_bnd. }
  assert (MR : bnd 10 12 (AdaptiveBudget.memory_max r - AdaptiveBudget.memory_min r)%py).
  { subst r. destruct m; const_bnd. }
  assert (R0 : exists r0, 12 <= r0 <= 16 /\ bnd r0 r0 (AdaptiveBudget.response_min r)).
  { subst r. destruct m; [exists 16|exists 12]; (split; [lra|const_bnd]). }
  destruct R0 as (r0 & Hr0 & R0).
  assert (M1 : bnd 50 55 (AdaptiveBudget.memory_max r)).
  { subst r. destruct m; const_bnd. }
  set (rr := (AdaptiveBudget.response_max r - AdaptiveBudget.response_min r)%py) in *.
  set (mr := (AdaptiveBudget.memory_max r - AdaptiveBudget.memory_min r)%py) in *.
  set (rmin := AdaptiveBudget.response_min r) in *.
  set (mmax := AdaptiveBudget.memory_max r) in *.
  float_ops.
  assert (P : bnd (24998 / 100000) (100001 / 10000) (c * rr)%float) by interval mul_bnd.
  assert (AR : bnd (r0 + 24997 / 100000) (r0 + 100002 / 10000) (rmin + c * rr)%float)
    by interval add_bnd.
  assert (D : bnd (24996 / 100000) (100003 / 10000) (rmin + c * rr - rmin)%float)
    by interval sub_bnd.
  set (ar := (rmin + c * rr)%float) in *.
  set (d := (ar - rmin)%float) in *.
  rewrite eqb_zero_false; [|apply D|destruct D as [_ D]; lra].
  cbn [bind].
  assert (Q : bnd (99 / 100) (401 / 10) (rr / d)%float) by interval div_bnd.
  rewrite eqb_zero_false; [|apply Q|destruct Q as [_ Q]; lra].
  cbn [bind].
  assert (S : bnd (2 / 10) (122 / 10) (mr / (rr / d))%float) by interval div_bnd.
  assert (Red : bnd (4 / 1000) (123 / 10) (c * (mr / (rr / d)))%float) by interval mul_bnd.
  assert (AM : bnd 37 56 (mmax - c * (mr / (rr / d)))%float) by interval sub_bnd.
  eexists. split; [reflexivity|].
  cbn [system_prompt tool_definitions safety_margin reserved conversation_memory
       response_generation].
  repeat (split; [reflexivity|]).
  split; [exact AM|].
  eapply bnd_weaken; [exact AR|lra|lra].
Qed.

(** * Token counts in binary64 *)

(** [float(W) * q] for a window below [2^1022] and a share [q] of at most 1. *)
Lemma scale_b64 (W : Z) (q : float) (lo hi : R) :
  (0 < W < 2 ^ 1022)%Z -> bnd lo hi q -> 0 <= lo -> hi <= 1 ->
  fin (float_of_Z W * q)
  /\ (IZR W * (1 - delta) - delta) * lo * (1 - delta) - delta
     <= val (float_of_Z W * q)
     <= (IZR W * (1 + delta) + delta) * hi * (1 + delta) + delta.
Proof.
  intros [HW0 HW1] [Fq [Hq1 Hq2]] Hlo Hhi.
  assert (HWr : 1 <= IZR W) by (apply IZR_le; lia).
  assert (HP : IZR W <= pow2 1022).
  { rewrite pow2_IZR by lia. apply IZR_le. lia. }
  assert (HP2 : pow2 1023 = 2 * pow2 1022).
  { replace 1023%Z with (1 + 1022)%Z by lia. rewrite pow2_add.
    replace (pow2 1) with 2 by (unfold pow2; simpl; lra). reflexivity. }
  assert (Hd0 : 0 < delta) by (unfold delta; lra).
  assert (Hd1 : delta < 1 / 1000) by (unfold delta; lra).
  destruct (float_of_Z_nonneg W ltac:(lia)) as (_ & HfW & HeW).
  assert (FW : fin (float_of_Z W)) by (apply HfW; lra).
  pose proof (round_error_bounds (IZR W) (val (float_of_Z W)) ltac:(lra) (HeW FW)) as HW'.
  set (w := val (float_of_Z W)) in *.
  assert (Hw_lo : IZR W * (1 - delta) - delta <= w) by lra.
  assert (Hw_hi : w <= IZR W * (1 + delta) + delta) by lra.
  assert (Hw0 : 0 <= IZR W * (1 - delta) - delta) by nra.
  destruct (mul_fin (float_of_Z W) q FW Fq) as (_ & Hfin & Herr).
  fold w in Hfin, Herr.
  assert (Hu_hi : w * val q <= (IZR W * (1 + delta) + delta) * hi).
  { apply Rmult_le_compat; lra. }
  assert (Hu_lo : (IZR W * (1 - delta) - delta) * lo <= w * val q).
  { apply Rmult_le_compat; lra. }
  assert (Hu0 : 0 <= w * val q) by (apply Rmult_le_pos; lra).
  assert (F : fin (float_of_Z W * q)).
  { apply Hfin. rewrite HP2.
    apply Rle_lt_trans with ((IZR W * (1 + delta) + delta) * hi); [exact Hu_hi|].
    apply Rle_lt_trans with ((IZR W * (1 + delta) + delta) * 1).
    - apply Rmult_le_compat_l; lra.
    - nra. }
  split; [exact F|].
  pose proof (round_error_bounds (w * val q) _ Hu0 (Herr F)) as Hr.
  set (u := w * val q) in *. set (A := (IZR W * (1 + delta) + delta) * hi) in *.
  set (Bl := (IZR W * (1 - delta) - delta) * lo) in *.
  split; nra.
Qed.

(** A double is below [2^1024]. *)
Lemma fin_lt_max (x : float) : fin x -> val x < pow2 1024.
Proof.
  unfold fin, val. intros F.
  destruct (Prim2SF x) as [s|s| |s m e] eqn:Hx; cbn [SF_fin SF2R] in *;
    try tauto; try apply pow2_pos.
  destruct s; [tauto|].
  destruct (finite_canonical x false m e Hx) as [Hc He].
  destruct (Zdigits2_bounds (Z.pos m) ltac:(lia)) as [_ Hm].
  assert (Hd : (Zdigits2 (Z.pos m) <= 53)%Z) by (unfold fexp64 in Hc; lia).
  assert (Hm' : IZR (Z.pos m) < pow2 53).
  { rewrite pow2_IZR by lia. apply IZR_lt.
    apply Z.lt_le_trans with (2 ^ Zdigits2 (Z.pos m))%Z; [lia|].
    apply Z.pow_le_mono_r; lia. }
  pose proof (pow2_pos e). pose proof (pow2_le e 971 He).
  replace 1024%Z with (53 + 971)%Z by lia. rewrite pow2_add.
  pose proof (pow2_pos 53). pose proof (pow2_pos 971).
  assert (0 < IZR (Z.pos m)) by (apply IZR_lt; lia).
  nra.
Qed.

Lemma float_is_finite_nn (x : float) : nn x -> float_is_finite x = true -> fin x.
Proof.
  intros Hx Hf. destruct (nn_cases x Hx) as [F|Hinf]; [exact F|]. exfalso.
  assert (E : is_infinity x = true).
  { unfold is_infinity. rewrite eqb_spec, abs_spec, Hinf. reflexivity. }
  unfold float_is_finite in Hf. rewrite E, orb_true_r in Hf. discriminate.
Qed.

Lemma mul_fin_inv_l (w q : float) :
  nn w -> fin q -> 0 < val q -> fin (w * q) -> fin w.
Proof.
  intros Hw Fq Hq F. destruct (nn_cases w Hw) as [Fw|Hinf]; [exact Fw|]. exfalso.
  destruct (fin_pos_finite q Fq Hq) as (m & e & Eq).
  unfold fin in F. rewrite mul_spec, Hinf, Eq in F. exact F.
Qed.

(** [w * q] for a share [q]: the value, and that a share of at most a half
    cannot overflow. *)
Lemma scale_bounds (w q : float) (lo hi : R) :
  fin w -> bnd lo hi q -> 0 <= lo -> fin (w * q) ->
  val w * lo * (1 - delta) - delta <= val (w * q) <= val w * hi * (1 + delta) + delta.
Proof.
  intros Fw [Fq [Hq1 Hq2]] Hlo F.
  destruct (mul_fin w q Fw Fq) as (_ & _ & Herr).
  pose proof (fin_nonneg w Fw) as Hw0.
  assert (Hu0 : 0 <= val w * val q) by (apply Rmult_le_pos; lra).
  pose proof (round_error_bounds (val w * val q) _ Hu0 (Herr F)) as Hr.
  assert (Hu_hi : val w * val q <= val w * hi) by (apply Rmult_le_compat_l; lra).
  assert (Hu_lo : val w * lo <= val w * val q) by (apply Rmult_le_compat_l; lra).
  assert (Hd0 : 0 < delta) by (unfold delta; lra).
  assert (Hd1 : delta < 1 / 1000) by (unfold delta; lra).
  set (u := val w * val q) in *. set (A := val w * hi) in *. set (Bl := val w * lo) in *.
  split; nra.
Qed.

Lemma scale_fin (w q : float) (lo hi : R) :
  fin w -> bnd lo hi q -> hi <= 1 / 2 -> fin (w * q).
Proof.
  intros Fw [Fq [Hq1 Hq2]] Hhi.
  destruct (mul_fin w q Fw Fq) as (_ & Hfin & _). apply Hfin.
  pose proof (fin_lt_max w Fw) as Hmax. pose proof (fin_nonneg w Fw).
  pose proof (fin_nonneg q Fq).
  assert (HP2 : pow2 1024 = 2 * pow2 1023).
  { replace 1024%Z with (1 + 1023)%Z by lia. rewrite pow2_add.
    replace (pow2 1) with 2 by (unfold pow2; simpl; lra). reflexivity. }
  apply Rle_lt_trans with (val w * (1 / 2)); [apply Rmult_le_compat_l; lra|lra].
Qed.

(** [float(W)] for a positive window. *)
Lemma window_val (W : Z) :
  (0 < W)%Z -> fin (float_of_Z W) ->
  IZR W * (1 - delta) - delta <= val (float_of_Z W) <= IZR W * (1 + delta) + delta.
Proof.
  intros HW F.
  assert (HWr : 1 <= IZR W) by (apply IZR_le; lia).
  destruct (float_of_Z_nonneg W ltac:(lia)) as (_ & _ & Herr).
  pose proof (round_error_bounds (IZR W) _ ltac:(lra) (Herr F)). lra.
Qed.

Lemma window_fin (W : Z) : (0 < W < 2 ^ 1022)%Z -> fin (float_of_Z W).
Proof.
  intros [HW0 HW1].
  destruct (float_of_Z_nonneg W ltac:(lia)) as (_ & Hfin & _). apply Hfin.
  apply Rlt_le_trans with (pow2 1022); [|apply pow2_le; lia].
  rewrite pow2_IZR by lia. apply IZR_lt. exact HW1.
Qed.

(** * The allocation in binary64 *)

(** [percentage / 100.0] *)
Lemma share_b64 (p : float) (lo hi : R) :
  bnd lo hi p -> 0 <= lo -> hi <= 100 ->
  bnd (lo / 100 - 2 * delta) (hi / 100 + 2 * delta) (p / dec (FA := Binary64) 1000 1)%float.
Proof.
  intros P Hlo Hhi.
  assert (H100 : bnd 100 100 (dec (FA := Binary64) 1000 1)) by const_bnd.
  destruct P as [Fp [Hp1 Hp2]].
  assert (P : bnd lo hi p) by (split; [exact Fp|lra]).
  eapply bnd_weaken; [eapply div_bnd; [exact P|exact H100|lra..]| |];
    unfold delta; lra.
Qed.

Lemma share_nonneg_b64 (p : float) (lo hi : R) :
  bnd lo hi p -> 0 <= lo -> hi <= 100 ->
  bnd 0 (hi / 100 + 2 * delta) (p / dec (FA := Binary64) 1000 1)%float.
Proof.
  intros P Hlo Hhi. eapply bnd_weaken0; [exact (share_b64 p lo hi P Hlo Hhi)|lra].
Qed.

Lemma to_tokens_unfold (W : Z) (p : float) :
  AdaptiveBudget.to_tokens (FA := Binary64) W p
  = if float_is_finite (float_of_Z W * (p / dec 1000 1))
    then Ok (float_trunc (float_of_Z W * (p / dec 1000 1)))
    else Raise OverflowError.
Proof. reflexivity. Qed.

(** A bucket of a window below [2^1022] is computed. *)
Lemma to_tokens_b64 (W : Z) (p : float) (lo hi : R) :
  (0 < W < 2 ^ 1022)%Z -> bnd lo hi p -> 0 <= lo -> hi <= 99 ->
  AdaptiveBudget.to_tokens (FA := Binary64) W p
  = Ok (float_trunc (float_of_Z W * (p / dec 1000 1))).
Proof.
  intros HW P Hlo Hhi. rewrite to_tokens_unfold.
  rewrite float_is_finite_fin; [reflexivity|].
  apply (scale_b64 W _ 0 (hi / 100 + 2 * delta) HW).
  - apply (share_nonneg_b64 p lo hi); [exact P|exact Hlo|lra].
  - lra.
  - unfold delta. lra.
Qed.

(** A bucket that was computed: the product is finite, and so is the
    window when the share is positive. *)
Lemma to_tokens_inv (W : Z) (p : float) (t : Z) :
  AdaptiveBudget.to_tokens (FA := Binary64) W p = Ok t ->
  float_is_finite (float_of_Z W * (p / dec 1000 1)) = true
  /\ t = float_trunc (float_of_Z W * (p / dec 1000 1)).
Proof.
  rewrite to_tokens_unfold.
  destruct (float_is_finite _); [|discriminate].
  intros E. injection E as <-. split; reflexivity.
Qed.

Lemma base_budgets_b64 (m : AdaptiveBudget.InteractionMode) :
  let base := AdaptiveBudget.base_budgets (FA := Binary64) m in
  bnd 0 6 (system_prompt base) /\ bnd 0 6 (tool_definitions base)
  /\ bnd 5 5 (safety_margin base)
  /\ bnd 0 (40001 / 100000) (reserved base).
Proof.
  destruct m; cbv zeta; unfold AdaptiveBudget.base_budgets;
    cbn [system_prompt tool_definitions safety_margin reserved];
    (split; [|split; [|split]]); const_bnd.
Qed.

(** The allocation of a window below [2^1022] is computed. *)
Lemma initial_budgets_b64 (W : Z) (mode user_input : str) :
  (0 < W < 2 ^ 1022)%Z ->
  exists b0 : budgets,
    AdaptiveBudget.initial_budgets (FA := Binary64) W mode user_input = Ok b0.
Proof.
  intros HW. unfold AdaptiveBudget.initial_budgets.
  destruct (analyze_complexity_b64 user_input mode) as (c & -> & C).
  cbn [bind].
  destruct (adaptive_percentages_b64 (AdaptiveBudget.interaction_mode_of mode) c C)
    as (p & -> & Hsp & Htd & Hsm & Hrs & CM & RG).
  cbn [bind]. cbv zeta in Hsp, Htd, Hsm, Hrs.
  destruct (base_budgets_b64 (AdaptiveBudget.interaction_mode_of mode))
    as (SP & TD & SM & RS).
  rewrite <- Hsp in SP. rewrite <- Htd in TD. rewrite <- Hsm in SM. rewrite <- Hrs in RS.
  unfold AdaptiveBudget.absolute_budgets.
  rewrite (to_tokens_b64 W _ 0 6 HW SP) by lra. cbn [bind].
  rewrite (to_tokens_b64 W _ 0 6 HW TD) by lra. cbn [bind].
  rewrite (to_tokens_b64 W _ 37 56 HW CM) by lra. cbn [bind].
  rewrite (to_tokens_b64 W _ (122 / 10) 27 HW RG) by lra. cbn [bind].
  rewrite (to_tokens_b64 W _ 5 5 HW SM) by lra. cbn [bind].
  rewrite (to_tokens_b64 W _ 0 (40001 / 100000) HW RS) by lra. cbn [bind].
  eexists. reflexivity.
Qed.

(** What a computed allocation holds: every bucket is the truncation of a
    finite product, and the window converts to a finite double. *)
Lemma initial_budgets_inv (W : Z) (mode user_input : str) (b0 : budgets) :
  (0 < W)%Z ->
  AdaptiveBudget.initial_budgets (FA := Binary64) W mode user_input = Ok b0 ->
  fin (float_of_Z W)
  /\ exists p : buckets float,
       bnd (122 / 10) 27 (response_generation p)
       /\ reserved p = reserved (AdaptiveBudget.base_budgets (FA := Binary64)
                                   (AdaptiveBudget.interaction_mode_of mode))
       /\ fin (float_of_Z W * (response_generation p / dec 1000 1))
       /\ response_generation b0
          = float_trunc (float_of_Z W * (response_generation p / dec 1000 1))
       /\ fin (float_of_Z W * (reserved p / dec 1000 1))
       /\ reserved b0 = float_trunc (float_of_Z W * (reserved p / dec 1000 1)).
Proof.
  intros HW. unfold AdaptiveBudget.initial_budgets.
  destruct (analyze_complexity_b64 user_input mode) as (c & -> & C).
  cbn [bind].
  destruct (adaptive_percentages_b64 (AdaptiveBudget.interaction_mode_of mode) c C)
    as (p & -> & Hsp & Htd & Hsm & Hrs & CM & RG).
  cbn [bind]. cbv zeta in Hsp, Htd, Hsm, Hrs.
  destruct (base_budgets_b64 (AdaptiveBudget.interaction_mode_of mode))
    as (_ & _ & SM & RS).
  rewrite <- Hsm in SM. rewrite <- Hrs in RS.
  unfold AdaptiveBudget.absolute_budgets.
  destruct (AdaptiveBudget.to_tokens W (system_prompt p)) as [sp|]; [|discriminate].
  destruct (AdaptiveBudget.to_tokens W (tool_definitions p)) as [td|]; [|discriminate].
  destruct (AdaptiveBudget.to_tokens W (conversation_memory p)) as [cm|]; [|discriminate].
  destruct (AdaptiveBudget.to_tokens W (response_generation p)) as [rg|] eqn:Erg;
    [|discriminate].
  destruct (AdaptiveBudget.to_tokens W (safety_margin p)) as [sm|] eqn:Esm;
    [|discriminate].
  destruct (AdaptiveBudget.to_tokens W (reserved p)) as [rs|] eqn:Ers;
    [|discriminate].
  cbn [bind]. intros E. injection E as <-.
  cbn [response_generation reserved].
  apply to_tokens_inv in Erg, Esm, Ers.
  destruct Erg as [Frg ->], Esm as [Fsm _], Ers as [Frs ->].
  pose proof (share_b64 _ _ _ SM ltac:(lra) ltac:(lra)) as QSM.
  pose proof (share_b64 _ _ _ RG ltac:(lra) ltac:(lra)) as QRG.
  pose proof (share_nonneg_b64 _ _ _ RS ltac:(lra) ltac:(lra)) as QRS.
  assert (NW : nn (float_of_Z W)) by (apply float_of_Z_nonneg; lia).
  assert (FW : fin (float_of_Z W)).
  { destruct QSM as [Fq [Hq _]].
    assert (0 < val (safety_margin p / dec (FA := Binary64) 1000 1)%float)
      by (unfold delta in Hq; lra).
    apply (mul_fin_inv_l _ (safety_margin p / dec 1000 1)%float); try assumption.
    apply float_is_finite_nn; [|exact Fsm].
    apply mul_nn_r; assumption. }
  split; [exact FW|].
  exists p. split; [exact RG|]. split; [exact Hrs|].
  split; [|split; [reflexivity|split; [|reflexivity]]].
  - apply float_is_finite_nn; [|exact Frg].
    apply mul_fin; [exact FW|apply QRG].
  - apply float_is_finite_nn; [|exact Frs].
    apply mul_fin; [exact FW|apply QRS].
Qed.

Lemma enforce_minimum_memory_b64 (W minimum : Z) (b : budgets) :
  fin (float_of_Z W) ->
  AdaptiveBudget.enforce_minimum_memory (FA := Binary64) W minimum b
  = Ok (if (conversation_memory b <? minimum)%Z then
          if (minimum - conversation_memory b <=? reserved b)%Z then
            {| system_prompt := system_prompt b;
               tool_definitions := tool_definitions b;
               conversation_memory := minimum;
               response_generation := response_generation b;
               safety_margin := safety_margin b;
               reserved := (reserved b - (minimum - conversation_memory b))%Z |}
          else
            {| system_prompt := system_prompt b;
               tool_definitions := tool_definitions b;
               conversation_memory := minimum;
               response_generation :=
                 Z.max (float_trunc (float_of_Z W * dec 10 2))
                       (response_generation b
                        - (minimum - conversation_memory b - reserved b));
               safety_margin := safety_margin b;
               reserved := Z.max (float_trunc (float_of_Z W * dec 2 2)) 0 |}
        else b).
Proof.
  intros FW. unfold AdaptiveBudget.enforce_minimum_memory, py_int. float_ops.
  assert (Q2 : bnd 0 (1 / 2) (dec (FA := Binary64) 2 2)) by const_bnd.
  assert (Q10 : bnd 0 (1 / 2) (dec (FA := Binary64) 10 2)) by const_bnd.
  rewrite (float_is_finite_fin _ (scale_fin _ _ _ _ FW Q2 ltac:(lra))).
  rewrite (float_is_finite_fin _ (scale_fin _ _ _ _ FW Q10 ltac:(lra))).
  destruct (conversation_memory b <? minimum)%Z; [|reflexivity].
  destruct (minimum - conversation_memory b <=? reserved b)%Z; reflexivity.
Qed.

Lemma two_percent_b64 (W : Z) :
  (50 <= W)%Z -> fin (float_of_Z W) ->
  (1 <= float_trunc (float_of_Z W * dec (FA := Binary64) 2 2))%Z.
Proof.
  intros HW FW.
  assert (Hcase : (W = 50 \/ 51 <= W)%Z) by lia.
  destruct Hcase as [->|HW'].
  { apply Z.leb_le. vm_compute. reflexivity. }
  assert (Q2 : bnd (199999 / 10000000) (1 / 2) (dec (FA := Binary64) 2 2)) by const_bnd.
  pose proof (scale_fin _ _ _ _ FW Q2 ltac:(lra)) as F.
  pose proof (scale_bounds _ _ _ _ FW Q2 ltac:(lra) F) as [Hlo _].
  pose proof (window_val W ltac:(lia) FW) as [Hw _].
  assert (HWr : 51 <= IZR W) by (apply IZR_le; exact HW').
  rewrite float_trunc_fin by exact F.
  apply Zfloor_lub. unfold delta in *. lra.
Qed.

Lemma chat_reserve_b64 (W : Z) :
  (50 <= W)%Z -> fin (float_of_Z W) ->
  fin (float_of_Z W * (dec (FA := Binary64) 4 1 / dec 1000 1)) ->
  (float_trunc (float_of_Z W * (dec (FA := Binary64) 4 1 / dec 1000 1))
   < float_trunc (float_of_Z W * dec (FA := Binary64) 2 2))%Z.
Proof.
  intros HW FW F4.
  assert (Q2 : bnd (199999 / 10000000) (1 / 2) (dec (FA := Binary64) 2 2)) by const_bnd.
  assert (Q4 : bnd (39999 / 10000000) (40001 / 10000000)
                   (dec (FA := Binary64) 4 1 / dec 1000 1)%py) by const_bnd.
  float_ops.
  pose proof (scale_fin _ _ _ _ FW Q2 ltac:(lra)) as F2.
  pose proof (scale_bounds _ _ _ _ FW Q2 ltac:(lra) F2) as [H2lo _].
  pose proof (scale_bounds _ _ _ _ FW Q4 ltac:(lra) F4) as [_ H4hi].
  pose proof (window_val W ltac:(lia) FW) as [Hw1 Hw2].
  pose proof (fin_nonneg _ F4) as H40.
  destruct (Z_le_gt_dec W 62) as [Hsmall|Hbig].
  - pose proof (two_percent_b64 W HW FW) as H1. float_ops.
    apply IZR_le in Hsmall.
    rewrite (float_trunc_fin _ F4).
    rewrite (Zfloor_eq 0); [lia|]. simpl IZR. unfold delta in *. lra.
  - assert (HWr : 63 <= IZR W) by (apply IZR_le; lia).
    rewrite (float_trunc_fin _ F4), (float_trunc_fin _ F2).
    destruct (Zfloor_bound (val (float_of_Z W * (dec 4 1 / dec 1000 1)))) as [Hfl _].
    float_ops.
    set (x4 := val (float_of_Z W * (dec 4 1 / dec 1000 1))) in *.
    assert (Zfloor x4 + 1 <= Zfloor (val (float_of_Z W * dec 2 2)))%Z; [|lia].
    apply Zfloor_lub. rewrite plus_IZR. unfold delta in *. lra.
Qed.

(** Below 50 tokens both [int(W * 0.02)] and [int(W * 0.004)] are 0. *)
Lemma small_window_b64 (W : Z) :
  (0 < W < 50)%Z -> fin (float_of_Z W) ->
  float_trunc (float_of_Z W * dec (FA := Binary64) 2 2) = 0%Z
  /\ (fin (float_of_Z W * (dec (FA := Binary64) 4 1 / dec 1000 1)) ->
      float_trunc (float_of_Z W * (dec (FA := Binary64) 4 1 / dec 1000 1)) = 0%Z).
Proof.
  intros HW FW.
  assert (Q2 : bnd (199999 / 10000000) (200001 / 10000000) (dec (FA := Binary64) 2 2))
    by const_bnd.
  assert (Q4 : bnd (39999 / 10000000) (40001 / 10000000)
                   (dec (FA := Binary64) 4 1 / dec 1000 1)%py) by const_bnd.
  float_ops.
  pose proof (window_val W ltac:(lia) FW) as [_ Hw].
  assert (HWr : IZR W <= 49) by (apply IZR_le; lia).
  split.
  - pose proof (scale_fin _ _ _ _ FW Q2 ltac:(lra)) as F2.
    pose proof (scale_bounds _ _ _ _ FW Q2 ltac:(lra) F2) as [_ Hhi].
    pose proof (fin_nonneg _ F2) as H0.
    rewrite (float_trunc_fin _ F2). apply Zfloor_eq. simpl IZR.
    unfold delta in *. lra.
  - intros F4.
    pose proof (scale_bounds _ _ _ _ FW Q4 ltac:(lra) F4) as [_ Hhi].
    pose proof (fin_nonneg _ F4) as H0.
    rewrite (float_trunc_fin _ F4). apply Zfloor_eq. simpl IZR.
    unfold delta in *. lra.
Qed.

(** * The memory share in binary64 *)

(** The quotient [10 / d] for a [d] near [10 * v]. *)
Lemma quotient_near_inverse (v k : R) :
  24 / 1000 <= v <= 1 -> 0 <= k <= 1 / 1000 ->
  / v - 200 * k <= 10 / (10 * v + k) /\ 10 / (10 * v - k) <= / v + 200 * k.
Proof.
  intros Hv Hk.
  assert (Hv0 : v <> 0) by lra.
  assert (Hiv : / v <= 42).
  { apply Rmult_le_reg_l with v; [lra|]. rewrite Rinv_r by exact Hv0. lra. }
  assert (Hiv0 : 0 < / v) by (apply Rinv_0_lt_compat; lra).
  split.
  - assert (Hy0 : 0 < / (10 * v + k)) by (apply Rinv_0_lt_compat; lra).
    assert (Hy : / (10 * v + k) <= 42 / 10).
    { apply Rmult_le_reg_l with (10 * v + k); [lra|]. rewrite Rinv_r by lra. lra. }
    assert (E : 10 / (10 * v + k) = / v - k * (/ v * / (10 * v + k))) by (field; lra).
    rewrite E.
    assert (/ v * / (10 * v + k) <= 42 * (42 / 10)) by (apply Rmult_le_compat; lra).
    nra.
  - assert (Hy0 : 0 < / (10 * v - k)) by (apply Rinv_0_lt_compat; lra).
    assert (Hy : / (10 * v - k) <= 42 / 10).
    { apply Rmult_le_reg_l with (10 * v - k); [lra|]. rewrite Rinv_r by lra. lra. }
    assert (E : 10 / (10 * v - k) = / v + k * (/ v * / (10 * v - k))) by (field; lra).
    rewrite E.
    assert (/ v * / (10 * v - k) <= 42 * (42 / 10)) by (apply Rmult_le_compat; lra).
    nra.
Qed.

(** The quotient [r / q] for a [q] near [1 / v]. *)
Lemma quotient_near_product (r v k : R) :
  0 <= r <= 12 -> 24 / 1000 <= v <= 1 -> 0 <= k <= 1 / 1000 ->
  r * v - 24 * k <= r / (/ v + k) /\ r / (/ v - k) <= r * v + 24 * k.
Proof.
  intros Hr Hv Hk.
  assert (Hv0 : v <> 0) by lra.
  assert (Hiv : 1 <= / v).
  { apply Rmult_le_reg_l with v; [lra|]. rewrite Rinv_r by exact Hv0. lra. }
  split.
  - assert (Hy0 : 0 < / (/ v + k)) by (apply Rinv_0_lt_compat; lra).
    assert (Hy : / (/ v + k) <= 1).
    { apply Rmult_le_reg_l with (/ v + k); [lra|]. rewrite Rinv_r by lra. lra. }
    assert (E : r / (/ v + k) = r * v - k * (r * v * / (/ v + k))).
    { field. split; [exact Hv0|intros Hc; nra]. }
    rewrite E.
    assert (r * v * / (/ v + k) <= 12 * 1 * 1).
    { apply Rmult_le_compat; try lra; [nra|]. apply Rmult_le_compat; lra. }
    assert (0 <= r * v * / (/ v + k)).
    { apply Rmult_le_pos; [nra|lra]. }
    nra.
  - assert (Hy0 : 0 < / (/ v - k)) by (apply Rinv_0_lt_compat; lra).
    assert (Hy : / (/ v - k) <= 2).
    { apply Rmult_le_reg_l with (/ v - k); [lra|]. rewrite Rinv_r by lra. lra. }
    assert (E : r / (/ v - k) = r * v + k * (r * v * / (/ v - k))).
    { field. split; [exact Hv0|intros Hc; nra]. }
    rewrite E.
    assert (r * v * / (/ v - k) <= 12 * 1 * 2).
    { apply Rmult_le_compat; try lra; [nra|]. apply Rmult_le_compat; lra. }
    assert (0 <= r * v * / (/ v - k)).
    { apply Rmult_le_pos; [nra|lra]. }
    nra.
Qed.

Lemma Rabs_bound (x y k : R) : y - k <= x <= y + k -> Rabs (x - y) <= k.
Proof. intros H. unfold Rabs. destruct (Rcase_abs (x - y)); lra. Qed.

(** The memory adjustment, step by step: every intermediate double is within
    a small distance of the real number it stands for. *)
Lemma memory_adjustment_b64 (c rr mr rmin mmax : float) (R0 M MR : R) :
  bnd (24999 / 1000000) 1 c ->
  bnd 10 10 rr -> bnd MR MR mr -> bnd R0 R0 rmin -> bnd M M mmax ->
  12 <= R0 <= 16 -> 50 <= M <= 55 -> 10 <= MR <= 12 ->
  let ar := (rmin + c * rr)%float in
  let d := (ar - rmin)%float in
  let q := (rr / d)%float in
  let am := (mmax - c * (mr / q))%float in
  (d =? float_of_Z 0)%float = false
  /\ (q =? float_of_Z 0)%float = false
  /\ fin ar /\ Rabs (val ar - (R0 + val c * 10)) <= / 10000000000000
  /\ fin am /\ Rabs (val am - (M - val c * val c * MR)) <= / 1000000000.
Proof.
  intros C RR MRb R0b Mb HR0 HM HMR ar d q am.
  destruct C as [Fc Hv].
  assert (Cv : bnd (val c) (val c) c) by (split; [exact Fc|lra]).
  set (v := val c) in *.
  assert (Hiv1 : 1 <= / v).
  { apply Rmult_le_reg_l with v; [lra|]. rewrite Rinv_r by lra. lra. }
  assert (Hiv2 : / v <= 42).
  { apply Rmult_le_reg_l with v; [lra|]. rewrite Rinv_r by lra. lra. }
  assert (Hvv : 6 / 10000 <= v * v <= 1) by nra.
  assert (Hmv : 24 / 100 <= MR * v <= 12) by nra.
  assert (Hmvv : 6 / 1000 <= MR * (v * v) <= 12) by nra.
  assert (P : bnd (10 * v - 2 / 100000000000000) (10 * v + 2 / 100000000000000)
                  (c * rr)%float).
  { eapply bnd_weaken; [eapply mul_bnd; [exact Cv|exact RR|lra..]| |];
      unfold delta; lra. }
  assert (AR : bnd (R0 + 10 * v - 6 / 100000000000000)
                   (R0 + 10 * v + 6 / 100000000000000) ar).
  { eapply bnd_weaken; [eapply add_bnd; [exact R0b|exact P|lra..]| |];
      unfold delta; lra. }
  assert (D : bnd (10 * v - / 10000000000000) (10 * v + / 10000000000000) d).
  { eapply bnd_weaken; [eapply sub_bnd; [exact AR|exact R0b|lra..]| |];
      unfold delta; lra. }
  destruct (quotient_near_inverse v (/ 10000000000000) ltac:(lra) ltac:(lra))
    as [Hq1 Hq2].
  assert (Q : bnd (/ v - 21 / 1000000000000) (/ v + 21 / 1000000000000) q).
  { eapply bnd_weaken; [eapply div_bnd; [exact RR|exact D|lra..]| |];
      unfold delta; lra. }
  destruct (quotient_near_product MR v (21 / 1000000000000) ltac:(lra) ltac:(lra)
              ltac:(lra)) as [Hs1 Hs2].
  assert (S : bnd (MR * v - 51 / 100000000000) (MR * v + 51 / 100000000000)
                  (mr / q)%float).
  { eapply bnd_weaken; [eapply div_bnd; [exact MRb|exact Q|lra..]| |];
      unfold delta; lra. }
  assert (Red : bnd (MR * (v * v) - 52 / 100000000000) (MR * (v * v) + 52 / 100000000000)
                    (c * (mr / q))%float).
  { eapply bnd_weaken; [eapply mul_bnd; [exact Cv|exact S|try lra; nra..]| |];
      unfold delta; nra. }
  assert (AM : bnd (M - MR * (v * v) - 53 / 100000000000)
                   (M - MR * (v * v) + 53 / 100000000000) am).
  { eapply bnd_weaken; [eapply sub_bnd; [exact Mb|exact Red|lra..]| |];
      unfold delta; lra. }
  split; [apply eqb_zero_false; [apply D|destruct D as [_ D]; lra]|].
  split; [apply eqb_zero_false; [apply Q|destruct Q as [_ Q]; lra]|].
  split; [apply AR|]. split; [apply Rabs_bound; destruct AR as [_ AR]; lra|].
  split; [apply AM|]. apply Rabs_bound. destruct AM as [_ AM]. lra.
Qed.

Lemma adaptive_ranges_b64 (m : AdaptiveBudget.InteractionMode) :
  let r := AdaptiveBudget.adaptive_ranges (FA := Binary64) m in
  exists R0 M MR : R,
    12 <= R0 <= 16 /\ 50 <= M <= 55 /\ 10 <= MR <= 12
    /\ bnd R0 R0 (AdaptiveBudget.response_min r)
    /\ bnd (R0 + 10) (R0 + 10) (AdaptiveBudget.response_max r)
    /\ bnd 10 10 (AdaptiveBudget.response_max r - AdaptiveBudget.response_min r)%py
    /\ bnd M M (AdaptiveBudget.memory_max r)
    /\ bnd (M - MR) (M - MR) (AdaptiveBudget.memory_min r)
    /\ bnd MR MR (AdaptiveBudget.memory_max r - AdaptiveBudget.memory_min r)%py
    /\ match m with
       | AdaptiveBudget.CHAT => M - MR = 38 /\ M = 50
       | AdaptiveBudget.TOOLS => M - MR = 45 /\ M = 55
       end.
Proof.
  destruct m; cbv zeta;
    [exists 16, 55, 10|exists 12, 50, 12];
    (split; [lra|]); (split; [lra|]); (split; [lra|]);
    (split; [const_bnd|]); (split; [const_bnd|]); (split; [const_bnd|]);
    (split; [const_bnd|]); (split; [const_bnd|]); (split; [const_bnd|]);
    split; lra.
Qed.

(** The memory percentage in binary64 is the square law up to [10^-9]. *)
Lemma memory_percentage_b64 (m : AdaptiveBudget.InteractionMode) (c : float) :
  bnd (24999 / 1000000) 1 c ->
  let r := AdaptiveBudget.adaptive_ranges (FA := Binary64) m in
  exists p : buckets float,
    AdaptiveBudget.adaptive_percentages (FA := Binary64) m c = Ok p
    /\ Rabs (val (conversation_memory p)
             - (val (AdaptiveBudget.memory_max r)
                - val c * val c
                  * (val (AdaptiveBudget.memory_max r) - val (AdaptiveBudget.memory_min r))))
       <= / 1000000000
    /\ Rabs (val (response_generation p)
             - (val (AdaptiveBudget.response_min r)
                + val c
                  * (val (AdaptiveBudget.response_max r)
                     - val (AdaptiveBudget.response_min r))))
       <= / 1000000000
    /\ val (AdaptiveBudget.memory_min r) - / 1000000000
       <= val (conversation_memory p) <= val (AdaptiveBudget.memory_max r).
Proof.
  intros C r.
  destruct (adaptive_ranges_b64 m)
    as (R0 & M & MR & HR0 & HM & HMR & R0b & R1b & RR & Mb & M0b & MRb & _).
  cbv zeta in *. fold r in R0b, R1b, RR, Mb, M0b, MRb.
  destruct (memory_adjustment_b64 c _ _ _ _ R0 M MR C RR MRb R0b Mb HR0 HM HMR)
    as (Hd & Hq & Far & Har & Fam & Ham).
  cbv zeta in *.
  unfold AdaptiveBudget.adaptive_percentages, py_div. cbv zeta. fold r. float_ops.
  rewrite Hd. cbn [bind]. rewrite Hq. cbn [bind].
  eexists. split; [reflexivity|].
  cbn [conversation_memory response_generation].
  destruct R0b as [_ R0v], R1b as [_ R1v], Mb as [_ Mv], M0b as [_ M0v].
  replace (val (AdaptiveBudget.memory_max r)) with M by lra.
  replace (val (AdaptiveBudget.memory_min r)) with (M - MR) by lra.
  replace (val (AdaptiveBudget.response_min r)) with R0 by lra.
  replace (val (AdaptiveBudget.response_max r)) with (R0 + 10) by lra.
  replace (M - (M - MR)) with MR by lra.
  replace (R0 + 10 - R0) with 10 by lra.
  split; [exact Ham|].
  split; [eapply Rle_trans; [exact Har|lra]|].
  destruct C as [_ Hv].
  assert (Hvv : 0 <= val c * val c <= 1) by nra.
  assert (Hb : - / 1000000000
               <= val (AdaptiveBudget.memory_max r
                       - c * ((AdaptiveBudget.memory_max r - AdaptiveBudget.memory_min r)
                              / ((AdaptiveBudget.response_max r - AdaptiveBudget.response_min r)
                                 / (AdaptiveBudget.response_min r
                                    + c * (AdaptiveBudget.response_max r
                                           - AdaptiveBudget.response_min r)
                                    - AdaptiveBudget.response_min r))))%float
                  - (M - val c * val c * MR)
               <= / 1000000000).
  { revert Ham. unfold Rabs. destruct (Rcase_abs _); lra. }
  split; nra.
Qed.

(** * The claims about [calculate_adaptive_budgets], in binary64 *)

(** C2, as the code has it.  The memory percentage is [memory_max] minus the
    square of the complexity times [memory_max - memory_min], not minus the
    complexity times that range: the linear reduction is scaled by the
    fraction of the response range in use, which is the complexity again.
    The doubles the code computes are within [10^-9] of that value and stay
    within the stated range (chat 38 to 50, tools 45 to 55); over the real
    numbers the equation is exact. *)
Theorem memory_percentage_is_quadratic :
  forall (user_input mode : str),
    (let r := AdaptiveBudget.adaptive_ranges (FA := Binary64)
                (AdaptiveBudget.interaction_mode_of mode) in
     exists (c : float) (p : buckets float),
       AdaptiveBudget.analyze_complexity (FA := Binary64) user_input mode = Ok c
       /\ AdaptiveBudget.adaptive_percentages (FA := Binary64)
            (AdaptiveBudget.interaction_mode_of mode) c = Ok p
       /\ Rabs (val (conversation_memory p)
                - (val (AdaptiveBudget.memory_max r)
                   - val c * val c
                     * (val (AdaptiveBudget.memory_max r)
                        - val (AdaptiveBudget.memory_min r))))
          <= / 1000000000
       /\ val (AdaptiveBudget.memory_min r) - / 1000000000
          <= val (conversation_memory p) <= val (AdaptiveBudget.memory_max r)
       /\ match AdaptiveBudget.interaction_mode_of mode with
          | AdaptiveBudget.CHAT =>
              val (AdaptiveBudget.memory_min r) = 38
              /\ val (AdaptiveBudget.memory_max r) = 50
          | AdaptiveBudget.TOOLS =>
              val (AdaptiveBudget.memory_min r) = 45
              /\ val (AdaptiveBudget.memory_max r) = 55
          end)
    /\ (let r := AdaptiveBudget.adaptive_ranges (FA := Exact)
                   (AdaptiveBudget.interaction_mode_of mode) in
        exists (c : R) (p : buckets R),
          AdaptiveBudget.analyze_complexity (FA := Exact) user_input mode = Ok c
          /\ AdaptiveBudget.adaptive_percentages (FA := Exact)
               (AdaptiveBudget.interaction_mode_of mode) c = Ok p
          /\ conversation_memory p
             = AdaptiveBudget.memory_max r
               - c * c * (AdaptiveBudget.memory_max r - AdaptiveBudget.memory_min r)
          /\ conversation_memory p
             = AdaptiveBudget.memory_max r
               - c * (AdaptiveBudget.memory_max r - AdaptiveBudget.memory_min r)
                 * ((response_generation p - AdaptiveBudget.response_min r)
                    / (AdaptiveBudget.response_max r - AdaptiveBudget.response_min r))
          /\ AdaptiveBudget.memory_min r <= conversation_memory p
             <= AdaptiveBudget.memory_max r
          /\ match AdaptiveBudget.interaction_mode_of mode with
             | AdaptiveBudget.CHAT =>
                 AdaptiveBudget.memory_min r = 38 /\ AdaptiveBudget.memory_max r = 50
             | AdaptiveBudget.TOOLS =>
                 AdaptiveBudget.memory_min r = 45 /\ AdaptiveBudget.memory_max r = 55
             end).
Proof.
  intros user_input mode. split.
  - intros r.
    destruct (analyze_complexity_b64 user_input mode) as (c & Hc & C).
    destruct (memory_percentage_b64 (AdaptiveBudget.interaction_mode_of mode) c C)
      as (p & Hp & Hcm & _ & Hrange).
    cbv zeta in Hcm, Hrange. fold r in Hcm, Hrange.
    exists c, p. split; [exact Hc|]. split; [exact Hp|].
    split; [exact Hcm|]. split; [exact Hrange|].
    destruct (adaptive_ranges_b64 (AdaptiveBudget.interaction_mode_of mode))
      as (R0 & M & MR & _ & _ & _ & _ & _ & _ & Mb & M0b & _ & Hm).
    cbv zeta in Mb, M0b. fold r in Mb, M0b.
    destruct Mb as [_ Mv], M0b as [_ M0v].
    destruct (AdaptiveBudget.interaction_mode_of mode); split; lra.
  - exact (memory_percentage_is_quadratic_over_reals user_input mode).
Qed.

(** C1.  For a positive window [W] and a minimum [m <= W] above the
    [conversation_memory] bucket first computed, [calculate_adaptive_budgets]
    returns an allocation whose [conversation_memory] is exactly [m], whose
    [reserved] is not negative and whose [response_generation] is at least
    [int(W * 0.10)].  The arithmetic is the one of doubles: the response
    share is at least 12.2%, so its bucket is not below the one of 10%
    whatever the roundings. *)
Theorem minimum_memory_override :
  forall (W : Z) (mode user_input : str) (m : Z) (b0 : budgets),
    (0 < W)%Z ->
    (m <= W)%Z ->
    AdaptiveBudget.initial_budgets (FA := Binary64) W mode user_input = Ok b0 ->
    (conversation_memory b0 < m)%Z ->
    exists b : budgets,
      AdaptiveBudget.calculate_adaptive_budgets (FA := Binary64) W mode user_input m = Ok b
      /\ conversation_memory b = m
      /\ (0 <= reserved b)%Z
      /\ (to_int (FA := Binary64) (of_int W * dec 10 2)%py <= response_generation b)%Z.
Proof.
  intros W mode user_input m b0 HW HmW Hinit Hshort.
  destruct (initial_budgets_inv W mode user_input b0 HW Hinit)
    as (FW & p & RG & _ & Frg & Erg & _ & _).
  unfold AdaptiveBudget.calculate_adaptive_budgets.
  rewrite Hinit. cbn [bind]. rewrite enforce_minimum_memory_b64 by exact FW.
  eexists. split; [reflexivity|]. float_ops.
  destruct (Z.ltb_spec (conversation_memory b0) m) as [_|]; [|lia].
  destruct (Z.leb_spec (m - conversation_memory b0) (reserved b0)) as [Hres|Hres];
    cbn [conversation_memory reserved response_generation].
  - split; [reflexivity|]. split; [lia|].
    rewrite Erg.
    assert (Q10 : bnd 0 (1000001 / 10000000) (dec (FA := Binary64) 10 2)) by const_bnd.
    pose proof (share_b64 _ _ _ RG ltac:(lra) ltac:(lra)) as QRG.
    pose proof (scale_fin _ _ _ _ FW Q10 ltac:(lra)) as F10.
    pose proof (scale_bounds _ _ _ _ FW Q10 ltac:(lra) F10) as [_ Hhi].
    pose proof (scale_bounds _ _ _ _ FW QRG ltac:(unfold delta; lra) Frg) as [Hlo _].
    pose proof (window_val W HW FW) as [Hw _].
    assert (HWr : 1 <= IZR W) by (apply IZR_le; lia).
    apply float_trunc_le; [exact F10|exact Frg|].
    unfold delta in *. lra.
  - split; [reflexivity|]. split; lia.
Qed.

Lemma minimum_memory_override_witness :
  (0 < 1000)%Z
  /\ (600 <= 1000)%Z
  /\ exists b0 : budgets,
      AdaptiveBudget.initial_budgets (FA := Binary64) 1000 Scenario.chat Scenario.hi = Ok b0
      /\ (conversation_memory b0 < 600)%Z
      /\ exists b : budgets,
          AdaptiveBudget.calculate_adaptive_budgets (FA := Binary64)
            1000 Scenario.chat Scenario.hi 600 = Ok b
          /\ conversation_memory b = 600%Z
          /\ (0 <= reserved b)%Z
          /\ (to_int (FA := Binary64) (of_int 1000 * dec 10 2)%py <= response_generation b)%Z.
Proof.
  assert (HW : (0 < 1000)%Z) by reflexivity.
  assert (Hm : (600 <= 1000)%Z) by (intros H; discriminate H).
  set (b0 := {| system_prompt := 6%Z; tool_definitions := 0%Z;
                conversation_memory := 499%Z; response_generation := 122%Z;
                safety_margin := 50%Z; reserved := 4%Z |}).
  assert (Hinit : AdaptiveBudget.initial_budgets (FA := Binary64)
                    1000 Scenario.chat Scenario.hi = Ok b0)
    by (vm_compute; reflexivity).
  assert (Hcm : (conversation_memory b0 < 600)%Z) by reflexivity.
  split; [exact HW|]. split; [exact Hm|].
  exists b0. split; [exact Hinit|]. split; [exact Hcm|].
  exact (minimum_memory_override 1000 Scenario.chat Scenario.hi 600 b0 HW Hm Hinit Hcm).
Defined.

(** C10 fails on a small window: with 10 tokens, chat mode and a minimum of 5
    the shortfall 1 exceeds [reserved = 0], and [reserved] is set to
    [int(10 * 0.02) = 0]: it is not raised above its value before the
    reclaim (the total of the buckets still grows, from 5 to 6). *)
Lemma reclaim_keeps_reserved_of_small_window :
  exists b0 b : budgets,
    AdaptiveBudget.interaction_mode_of Scenario.chat = AdaptiveBudget.CHAT
    /\ AdaptiveBudget.initial_budgets (FA := Binary64) 10 Scenario.chat Scenario.hi = Ok b0
    /\ (reserved b0 < 5 - conversation_memory b0)%Z
    /\ AdaptiveBudget.calculate_adaptive_budgets (FA := Binary64)
         10 Scenario.chat Scenario.hi 5 = Ok b
    /\ reserved b0 = 0%Z
    /\ reserved b = 0%Z
    /\ ~ (reserved b0 < reserved b)%Z.
Proof.
  do 2 eexists. split; [vm_compute; reflexivity|].
  split; [vm_compute; reflexivity|].
  split; [vm_compute; reflexivity|].
  split; [vm_compute; reflexivity|].
  split; [reflexivity|]. split; [reflexivity|].
  intros H. vm_compute in H. discriminate H.
Qed.

(** C10, as the code has it.  When the shortfall [m - conversation_memory]
    exceeds [reserved], the returned [reserved] is exactly [int(W * 0.02)],
    whatever it was, and the total of the buckets grows by at least that much
    instead of staying the same.  In chat mode (base share 0.4%) [reserved]
    ends above its value before the reclaim exactly when the window has at
    least 50 tokens; below that both values are 0.  From 50 tokens on the
    total grows strictly. *)
Theorem reclaim_overwrites_reserved :
  forall (W : Z) (mode user_input : str) (m : Z) (b0 : budgets),
    (0 < W)%Z ->
    AdaptiveBudget.initial_budgets (FA := Binary64) W mode user_input = Ok b0 ->
    (reserved b0 < m - conversation_memory b0)%Z ->
    exists b : budgets,
      AdaptiveBudget.calculate_adaptive_budgets (FA := Binary64) W mode user_input m = Ok b
      /\ reserved b = to_int (FA := Binary64) (of_int W * dec 2 2)%py
      /\ (total_allocated b0 + reserved b <= total_allocated b)%Z
      /\ ((50 <= W)%Z -> (total_allocated b0 < total_allocated b)%Z)
      /\ (AdaptiveBudget.interaction_mode_of mode = AdaptiveBudget.CHAT ->
          ((50 <= W)%Z -> (reserved b0 < reserved b)%Z)
          /\ ((W < 50)%Z -> reserved b0 = 0%Z /\ reserved b = 0%Z)).
Proof.
  intros W mode user_input m b0 HW Hinit Hshort.
  destruct (initial_budgets_inv W mode user_input b0 HW Hinit)
    as (FW & p & _ & Hrs & _ & _ & Frs & Ers).
  assert (Q2 : bnd 0 (1 / 2) (dec (FA := Binary64) 2 2)) by const_bnd.
  pose proof (float_trunc_nonneg _ (scale_fin _ _ _ _ FW Q2 ltac:(lra))) as Htwo.
  pose proof (float_trunc_nonneg _ Frs) as Hres0.
  rewrite <- Ers in Hres0.
  unfold AdaptiveBudget.calculate_adaptive_budgets.
  rewrite Hinit. cbn [bind]. rewrite enforce_minimum_memory_b64 by exact FW.
  eexists. split; [reflexivity|]. float_ops.
  destruct (Z.ltb_spec (conversation_memory b0) m) as [_|]; [|lia].
  destruct (Z.leb_spec (m - conversation_memory b0) (reserved b0)) as [|_]; [lia|].
  unfold total_allocated.
  cbn [system_prompt tool_definitions conversation_memory response_generation
       safety_margin reserved].
  split; [lia|]. split; [lia|]. split.
  - intros H50. pose proof (two_percent_b64 W H50 FW) as H1. float_ops. lia.
  - intros Hchat.
    rewrite Hchat in Hrs. cbn [AdaptiveBudget.base_budgets reserved] in Hrs.
    rewrite Hrs in Frs, Ers.
    split.
    + intros H50. pose proof (chat_reserve_b64 W H50 FW Frs) as Hlt. float_ops. lia.
    + intros Hsmall.
      destruct (small_window_b64 W ltac:(lia) FW) as [H2 H4]. float_ops.
      specialize (H4 Frs). lia.
Qed.

Lemma reclaim_overwrites_reserved_witness :
  (0 < 1000)%Z
  /\ exists b0 : budgets,
      AdaptiveBudget.initial_budgets (FA := Binary64) 1000 Scenario.chat Scenario.hi = Ok b0
      /\ (reserved b0 < 600 - conversation_memory b0)%Z
      /\ exists b : budgets,
          AdaptiveBudget.calculate_adaptive_budgets (FA := Binary64)
            1000 Scenario.chat Scenario.hi 600 = Ok b
          /\ reserved b = to_int (FA := Binary64) (of_int 1000 * dec 2 2)%py
          /\ (total_allocated b0 + reserved b <= total_allocated b)%Z
          /\ ((50 <= 1000)%Z -> (total_allocated b0 < total_allocated b)%Z)
          /\ (AdaptiveBudget.interaction_mode_of Scenario.chat = AdaptiveBudget.CHAT ->
              ((50 <= 1000)%Z -> (reserved b0 < reserved b)%Z)
              /\ ((1000 < 50)%Z -> reserved b0 = 0%Z /\ reserved b = 0%Z)).
Proof.
  assert (HW : (0 < 1000)%Z) by reflexivity.
  set (b0 := {| system_prompt := 6%Z; tool_definitions := 0%Z;
                conversation_memory := 499%Z; response_generation := 122%Z;
                safety_margin := 50%Z; reserved := 4%Z |}).
  assert (Hinit : AdaptiveBudget.initial_budgets (FA := Binary64)
                    1000 Scenario.chat Scenario.hi = Ok b0)
    by (vm_compute; reflexivity).
  assert (Hshort : (reserved b0 < 600 - conversation_memory b0)%Z) by reflexivity.
  split; [exact HW|].
  exists b0. split; [exact Hinit|]. split; [exact Hshort|].
  exact (reclaim_overwrites_reserved 1000 Scenario.chat Scenario.hi 600 b0 HW Hinit Hshort).
Defined.

(** C9 fails for a window that [float] cannot hold: [2^1024 * 0.06] needs the
    window as a double, the conversion overflows and
    [calculate_adaptive_budgets] raises [OverflowError]. *)
Lemma calculate_adaptive_budgets_overflows :
  AdaptiveBudget.calculate_adaptive_budgets (FA := Binary64)
    (2 ^ 1024) Scenario.chat Scenario.hi 0 = Raise OverflowError.
Proof. vm_compute. reflexivity. Qed.

(** C9, for the windows below [2^1022].  For every query, mode and minimum,
    [calculate_adaptive_budgets] returns an allocation and raises nothing:
    [analyze_complexity] returns a score between 0.025 and 1 (0.1 for the
    empty query, at least the double [0.1 * 0.25 = 0.025] otherwise), which
    is not 0, so both divisions of the memory adjustment are defined, and
    every bucket is the truncation of a finite double. *)
Theorem calculate_adaptive_budgets_never_raises :
  forall (user_input mode : str) (W m : Z),
    (0 < W)%Z -> (W < 2 ^ 1022)%Z ->
    (exists b : budgets,
       AdaptiveBudget.calculate_adaptive_budgets (FA := Binary64) W mode user_input m = Ok b)
    /\ (exists c : float,
          AdaptiveBudget.analyze_complexity (FA := Binary64) user_input mode = Ok c
          /\ 25 / 1000 <= val c <= 1
          /\ fleb (dec 25 3) c = true
          /\ feqb c (of_int 0) = false
          /\ exists p, AdaptiveBudget.adaptive_percentages (FA := Binary64)
                         (AdaptiveBudget.interaction_mode_of mode) c = Ok p)
    /\ AdaptiveBudget.analyze_complexity (FA := Binary64) [] mode = Ok (dec 1 1).
Proof.
  intros user_input mode W m HW0 HW1. split; [|split].
  - destruct (initial_budgets_b64 W mode user_input ltac:(lia)) as (b0 & Hinit).
    unfold AdaptiveBudget.calculate_adaptive_budgets.
    rewrite Hinit. cbn [bind].
    rewrite enforce_minimum_memory_b64 by (apply window_fin; lia).
    eexists. reflexivity.
  - destruct (analyze_complexity_floor user_input mode) as (c & Hc & C).
    destruct literal_025 as [_ [F025 H025]].
    assert (C' : bnd (24999 / 1000000) 1 c) by (eapply bnd_weaken; [exact C|lra|lra]).
    destruct C as [Fc Hv].
    exists c. split; [exact Hc|]. split; [lra|]. split; [|split].
    + float_ops. apply leb_fin; [exact F025|exact Fc|lra].
    + float_ops. apply eqb_zero_false; [exact Fc|lra].
    + destruct (adaptive_percentages_b64 (AdaptiveBudget.interaction_mode_of mode) c C')
        as (p & Hp & _).
      exists p. exact Hp.
  - reflexivity.
Qed.

Lemma calculate_adaptive_budgets_never_raises_witness :
  (0 < 1000)%Z
  /\ (1000 < 2 ^ 1022)%Z
  /\ (exists b : budgets,
        AdaptiveBudget.calculate_adaptive_budgets (FA := Binary64)
          1000 Scenario.chat Scenario.hi 0 = Ok b)
  /\ (exists c : float,
        AdaptiveBudget.analyze_complexity (FA := Binary64) Scenario.hi Scenario.chat = Ok c
        /\ 25 / 1000 <= val c <= 1
        /\ fleb (dec 25 3) c = true
        /\ feqb c (of_int 0) = false
        /\ exists p, AdaptiveBudget.adaptive_percentages (FA := Binary64)
                       (AdaptiveBudget.interaction_mode_of Scenario.chat) c = Ok p)
  /\ AdaptiveBudget.analyze_complexity (FA := Binary64) [] Scenario.chat = Ok (dec 1 1).
Proof.
  assert (HW0 : (0 < 1000)%Z) by reflexivity.
  assert (HW1 : (1000 < 2 ^ 1022)%Z) by reflexivity.
  split; [exact HW0|]. split; [exact HW1|].
  exact (calculate_adaptive_budgets_never_raises Scenario.hi Scenario.chat 1000 0 HW0 HW1).
Defined.

(** * The allocation and its validation in binary64 *)

(** The percentages by mode: the four fixed buckets add up to at most 14,
    and memory and response together to at most 73.6. *)
Lemma percentages_b64 (m : AdaptiveBudget.InteractionMode) (c : float) :
  bnd (24999 / 1000000) 1 c ->
  exists p : buckets float,
    AdaptiveBudget.adaptive_percentages (FA := Binary64) m c = Ok p
    /\ bnd 0 6 (system_prompt p) /\ bnd 0 6 (tool_definitions p)
    /\ bnd 5 5 (safety_margin p) /\ bnd 0 (40001 / 100000) (reserved p)
    /\ bnd 37 56 (conversation_memory p)
    /\ bnd (122 / 10) 27 (response_generation p)
    /\ val (system_prompt p) + val (tool_definitions p) + val (safety_margin p)
       + val (reserved p) <= 14 + / 1000000
    /\ val (conversation_memory p) + val (response_generation p) <= 736 / 10
    /\ (m = AdaptiveBudget.TOOLS ->
        16 + 10 * val c - / 1000000 <= val (response_generation p)).
Proof.
  intros C.
  destruct (adaptive_percentages_b64 m c C)
    as (p & Hp & Hsp & Htd & Hsm & Hrs & CM & RG).
  destruct (memory_percentage_b64 m c C) as (p' & Hp' & Hcm & Hrg & _).
  rewrite Hp in Hp'. injection Hp' as <-.
  cbv zeta in *.
  destruct (base_budgets_b64 m) as (SP & TD & SM & RS). cbv zeta in *.
  exists p. split; [exact Hp|].
  rewrite Hsp, Htd, Hsm, Hrs.
  split; [exact SP|]. split; [exact TD|]. split; [exact SM|]. split; [exact RS|].
  split; [exact CM|]. split; [exact RG|].
  destruct (adaptive_ranges_b64 m)
    as (R0 & M & MR & HR0 & HM & HMR & R0b & R1b & RR & Mb & M0b & MRb & Hmode).
  cbv zeta in *.
  destruct R0b as [_ R0v], R1b as [_ R1v], Mb as [_ Mv], M0b as [_ M0v].
  replace (val (AdaptiveBudget.memory_max (AdaptiveBudget.adaptive_ranges m)))
    with M in Hcm by lra.
  replace (val (AdaptiveBudget.memory_min (AdaptiveBudget.adaptive_ranges m)))
    with (M - MR) in Hcm by lra.
  replace (val (AdaptiveBudget.response_min (AdaptiveBudget.adaptive_ranges m)))
    with R0 in Hrg by lra.
  replace (val (AdaptiveBudget.response_max (AdaptiveBudget.adaptive_ranges m)))
    with (R0 + 10) in Hrg by lra.
  replace (M - (M - MR)) with MR in Hcm by lra.
  replace (R0 + 10 - R0) with 10 in Hrg by lra.
  assert (Hcm' : val (conversation_memory p) <= M - val c * val c * MR + / 1000000000).
  { revert Hcm. unfold Rabs. destruct (Rcase_abs _); lra. }
  assert (Hrg' : R0 + val c * 10 - / 1000000000 <= val (response_generation p)
                 <= R0 + val c * 10 + / 1000000000).
  { revert Hrg. unfold Rabs. destruct (Rcase_abs _); lra. }
  destruct C as [_ Hc].
  split; [|split].
  - destruct m; unfold AdaptiveBudget.base_budgets;
      cbn [system_prompt tool_definitions safety_margin reserved].
    + assert (B1 : bnd 3 3 (dec (FA := Binary64) 30 1)) by const_bnd.
      assert (B2 : bnd 6 6 (dec (FA := Binary64) 60 1)) by const_bnd.
      assert (B3 : bnd 5 5 (dec (FA := Binary64) 50 1)) by const_bnd.
      assert (B4 : bnd 0 0 (dec (FA := Binary64) 0 1)) by const_bnd.
      destruct B1 as [_ ?], B2 as [_ ?], B3 as [_ ?], B4 as [_ ?]. lra.
    + assert (B1 : bnd 0 (60001 / 100000) (dec (FA := Binary64) 6 1)) by const_bnd.
      assert (B2 : bnd 0 0 (dec (FA := Binary64) 0 1)) by const_bnd.
      assert (B3 : bnd 5 5 (dec (FA := Binary64) 50 1)) by const_bnd.
      assert (B4 : bnd 0 (40001 / 100000) (dec (FA := Binary64) 4 1)) by const_bnd.
      destruct B1 as [_ ?], B2 as [_ ?], B3 as [_ ?], B4 as [_ ?]. lra.
  - pose proof (Rle_0_sqr (val c - 1 / 2)) as Hs1.
    pose proof (Rle_0_sqr (val c - 5 / 12)) as Hs2.
    unfold Rsqr in Hs1, Hs2.
    destruct m; destruct Hmode as [Hmin Hmax]; subst M;
      [replace MR with 10 in * by lra|replace MR with 12 in * by lra]; lra.
  - intros ->. destruct Hmode as [Hmin Hmax].
    assert (HR0' : R0 = 16).
    { assert (B : bnd 16 16 (AdaptiveBudget.response_min
                               (AdaptiveBudget.adaptive_ranges (FA := Binary64)
                                  AdaptiveBudget.TOOLS))) by const_bnd.
      destruct B as [_ ?]. lra. }
    lra.
Qed.

Lemma window_above_le (W : Z) :
  (0 < W)%Z -> 0 <= window_above W <= IZR W * (1000001 / 1000000).
Proof.
  intros HW. assert (1 <= IZR W) by (apply IZR_le; lia).
  unfold window_above, delta. split; nra.
Qed.

Lemma window_below_ge (W : Z) :
  (0 < W)%Z -> IZR W * (999999 / 1000000) - / 1000000 <= window_below W.
Proof.
  intros HW. assert (1 <= IZR W) by (apply IZR_le; lia).
  unfold window_below, delta. nra.
Qed.

(** One bucket: [int(context_window * (percentage / 100.0))]. *)
Lemma bucket_b64 (W : Z) (p : float) (lo hi : R) :
  (0 < W < 2 ^ 1022)%Z -> bnd lo hi p -> 0 <= lo -> hi <= 99 ->
  exists t : Z,
    AdaptiveBudget.to_tokens (FA := Binary64) W p = Ok t
    /\ (0 <= t)%Z
    /\ IZR t <= window_above W * (val p / 100 + 2 * delta) + delta
    /\ (1 <= lo ->
        window_below W * (val p / 100 - 2 * delta) - delta - 1 <= IZR t).
Proof.
  intros HW P Hlo Hhi.
  rewrite (to_tokens_b64 W p lo hi HW P Hlo Hhi).
  eexists. split; [reflexivity|].
  destruct P as [Fp [Hp1 Hp2]].
  assert (P' : bnd (val p) (val p) p) by (split; [exact Fp|lra]).
  pose proof (share_b64 p _ _ P' ltac:(lra) ltac:(lra)) as Q.
  assert (Q0 : bnd 0 (val p / 100 + 2 * delta) (p / dec (FA := Binary64) 1000 1)%float).
  { eapply bnd_weaken0; [exact Q|lra]. }
  assert (Hd : 0 < delta < / 1000000) by (unfold delta; lra).
  destruct (scale_b64 W _ _ _ HW Q0 ltac:(lra) ltac:(lra)) as (Fx & _ & Hup).
  pose proof (Zfloor_bound (val (float_of_Z W * (p / dec (FA := Binary64) 1000 1))%float))
    as [Hfl Hfu].
  split; [apply float_trunc_nonneg; exact Fx|].
  rewrite (float_trunc_fin _ Fx).
  split.
  - unfold window_above. lra.
  - intros H1.
    destruct (scale_b64 W _ _ _ HW Q ltac:(lra) ltac:(lra)) as (_ & Hdown & _).
    unfold window_below. lra.
Qed.

(** The allocation without a minimum of memory, in real numbers. *)
Lemma allocation_b64 (W : Z) (mode user_input : str) :
  (0 < W < 2 ^ 1022)%Z ->
  exists (b : budgets) (c : float),
    AdaptiveBudget.analyze_complexity (FA := Binary64) user_input mode = Ok c
    /\ bnd (24999 / 1000000) 1 c
    /\ AdaptiveBudget.calculate_adaptive_budgets (FA := Binary64) W mode user_input 0
       = Ok b
    /\ ((0 <= system_prompt b)%Z /\ (0 <= tool_definitions b)%Z
        /\ (0 <= conversation_memory b)%Z /\ (0 <= response_generation b)%Z
        /\ (0 <= safety_margin b)%Z /\ (0 <= reserved b)%Z)
    /\ IZR (total_allocated b) <= window_above W * (877 / 1000) + / 1000000
    /\ window_below W * (1219 / 10000) - (1 + / 1000000) <= IZR (response_generation b)
    /\ window_below W * (3699 / 10000) - (1 + / 1000000) <= IZR (conversation_memory b)
    /\ window_below W * (499 / 10000) - (1 + / 1000000) <= IZR (safety_margin b)
    /\ (AdaptiveBudget.interaction_mode_of mode = AdaptiveBudget.TOOLS ->
        window_below W * ((16 + 10 * val c) / 100 - / 10000000) - (1 + / 1000000)
        <= IZR (response_generation b)).
Proof.
  intros HW.
  destruct (analyze_complexity_b64 user_input mode) as (c & Hc & C).
  destruct (percentages_b64 (AdaptiveBudget.interaction_mode_of mode) c C)
    as (p & Hp & SP & TD & SM & RS & CM & RG & Hfixed & Hjoint & Htools).
  destruct (bucket_b64 W _ _ _ HW SP ltac:(lra) ltac:(lra)) as (sp & Esp & Hsp0 & Hsp & _).
  destruct (bucket_b64 W _ _ _ HW TD ltac:(lra) ltac:(lra)) as (td & Etd & Htd0 & Htd & _).
  destruct (bucket_b64 W _ _ _ HW CM ltac:(lra) ltac:(lra)) as (cm & Ecm & Hcm0 & Hcm & Lcm).
  destruct (bucket_b64 W _ _ _ HW RG ltac:(lra) ltac:(lra)) as (rg & Erg & Hrg0 & Hrg & Lrg).
  destruct (bucket_b64 W _ _ _ HW SM ltac:(lra) ltac:(lra)) as (sm & Esm & Hsm0 & Hsm & Lsm).
  destruct (bucket_b64 W _ _ _ HW RS ltac:(lra) ltac:(lra)) as (rs & Ers & Hrs0 & Hrs & _).
  specialize (Lcm ltac:(lra)). specialize (Lrg ltac:(lra)). specialize (Lsm ltac:(lra)).
  exists {| system_prompt := sp; tool_definitions := td; conversation_memory := cm;
            response_generation := rg; safety_margin := sm; reserved := rs |}, c.
  split; [exact Hc|]. split; [exact C|].
  split.
  { unfold AdaptiveBudget.calculate_adaptive_budgets, AdaptiveBudget.initial_budgets.
    rewrite Hc. cbn [bind]. rewrite Hp. cbn [bind].
    unfold AdaptiveBudget.absolute_budgets.
    rewrite Esp, Etd, Ecm, Erg, Esm, Ers. cbn [bind].
    unfold AdaptiveBudget.enforce_minimum_memory. cbn [conversation_memory].
    destruct (Z.ltb_spec cm 0); [lia|reflexivity]. }
  unfold total_allocated.
  cbn [system_prompt tool_definitions conversation_memory response_generation
       safety_margin reserved].
  split; [repeat split; assumption|].
  destruct (window_above_le W ltac:(lia)) as [HA0 HA1].
  pose proof (window_below_ge W ltac:(lia)) as HB.
  assert (HW1 : 1 <= IZR W) by (apply IZR_le; lia).
  assert (HB0 : 0 <= window_below W) by lra.
  assert (Hd : 0 < delta < / 1000000000000) by (unfold delta; lra).
  set (A := window_above W) in *. set (B := window_below W) in *.
  destruct CM as [_ [CM1 CM2]], RG as [_ [RG1 RG2]], SM as [_ [SM1 SM2]].
  split.
  { rewrite !plus_IZR.
    assert (Hsum :
      A * (val (system_prompt p) / 100 + 2 * delta)
      + A * (val (tool_definitions p) / 100 + 2 * delta)
      + A * (val (conversation_memory p) / 100 + 2 * delta)
      + A * (val (response_generation p) / 100 + 2 * delta)
      + A * (val (safety_margin p) / 100 + 2 * delta)
      + A * (val (reserved p) / 100 + 2 * delta)
      <= A * (877 / 1000)).
    { rewrite <- !Rmult_plus_distr_l. apply Rmult_le_compat_l; [exact HA0|]. lra. }
    lra. }
  split; [|split; [|split]].
  - apply Rle_trans with (B * (val (response_generation p) / 100 - 2 * delta) - delta - 1);
      [|exact Lrg].
    assert (B * (1219 / 10000) <= B * (val (response_generation p) / 100 - 2 * delta))
      by (apply Rmult_le_compat_l; lra).
    lra.
  - apply Rle_trans with (B * (val (conversation_memory p) / 100 - 2 * delta) - delta - 1);
      [|exact Lcm].
    assert (B * (3699 / 10000) <= B * (val (conversation_memory p) / 100 - 2 * delta))
      by (apply Rmult_le_compat_l; lra).
    lra.
  - apply Rle_trans with (B * (val (safety_margin p) / 100 - 2 * delta) - delta - 1);
      [|exact Lsm].
    assert (B * (499 / 10000) <= B * (val (safety_margin p) / 100 - 2 * delta))
      by (apply Rmult_le_compat_l; lra).
    lra.
  - intros Hmode. specialize (Htools Hmode).
    apply Rle_trans with (B * (val (response_generation p) / 100 - 2 * delta) - delta - 1);
      [|exact Lrg].
    assert (B * ((16 + 10 * val c) / 100 - / 10000000)
            <= B * (val (response_generation p) / 100 - 2 * delta))
      by (apply Rmult_le_compat_l; lra).
    lra.
Qed.

(** [float(n)] for a token count. *)
Lemma of_int_b64 (n : Z) :
  (0 <= n < 2 ^ 1022)%Z ->
  bnd (IZR n * (1 - delta) - delta) (IZR n * (1 + delta) + delta) (float_of_Z n).
Proof.
  intros [Hn0 Hn1].
  destruct (float_of_Z_nonneg n Hn0) as (_ & Hfin & Herr).
  assert (F : fin (float_of_Z n)).
  { apply Hfin. apply Rlt_le_trans with (pow2 1022); [|apply pow2_le; lia].
    rewrite pow2_IZR by lia. apply IZR_lt. exact Hn1. }
  split; [exact F|].
  assert (0 <= IZR n) by (apply IZR_le; exact Hn0).
  pose proof (round_error_bounds (IZR n) _ ltac:(lra) (Herr F)). lra.
Qed.

(** A quotient, from bounds of its two operands. *)
Lemma ratio_b64 (a b c d lo hi : R) (x y : float) :
  bnd a b x -> bnd c d y -> 0 <= a -> 0 < c ->
  lo * d <= a -> b <= hi * c -> hi <= 1000 ->
  bnd (lo - delta * 1001) (hi + delta * 1001) (x / y)%float.
Proof.
  intros X Y Ha Hc Hlo Hhi Hbig.
  assert (Hd : 0 < d) by (destruct Y as [_ [? ?]]; lra).
  assert (Hbc : b / c <= hi).
  { apply Rmult_le_reg_r with c; [exact Hc|].
    unfold Rdiv. rewrite Rmult_assoc, Rinv_l by lra. lra. }
  assert (Had : lo <= a / d).
  { apply Rmult_le_reg_r with d; [exact Hd|].
    unfold Rdiv. rewrite Rmult_assoc, Rinv_l by lra. lra. }
  assert (Hd0 : 0 < delta) by (unfold delta; lra).
  assert (Hab : a <= b) by (destruct X as [_ [? ?]]; lra).
  assert (H0 : 0 <= b / c).
  { unfold Rdiv. apply Rmult_le_pos; [lra|]. apply Rlt_le, Rinv_0_lt_compat. exact Hc. }
  eapply bnd_weaken; [apply (div_bnd a b c d x y X Y Ha Hc); lra| |]; nra.
Qed.

Lemma ltb_false_of_le (x y : float) :
  fin x -> fin y -> val y <= val x -> (x <? y)%float = false.
Proof.
  intros Fx Fy Hle. destruct (x <? y)%float eqn:E; [|reflexivity].
  apply ltb_fin in E; try assumption. lra.
Qed.

(** X17.  For every window below [2^1022] and no minimum of memory, the
    allocation is computed, no bucket is negative, and the buckets add up to
    at most 88 per cent of the window. *)
Theorem allocation_fits_the_window :
  forall (user_input mode : str) (W : Z),
    (0 < W)%Z ->
    (W < 2 ^ 1022)%Z ->
    exists b : budgets,
      AdaptiveBudget.calculate_adaptive_budgets (FA := Binary64) W mode user_input 0
      = Ok b
      /\ (0 <= system_prompt b)%Z /\ (0 <= tool_definitions b)%Z
      /\ (0 <= conversation_memory b)%Z /\ (0 <= response_generation b)%Z
      /\ (0 <= safety_margin b)%Z /\ (0 <= reserved b)%Z
      /\ (100 * total_allocated b <= 88 * W)%Z.
Proof.
  intros user_input mode W HW0 HW1.
  destruct (allocation_b64 W mode user_input (conj HW0 HW1))
    as (b & c & _ & _ & Hb & (H1 & H2 & H3 & H4 & H5 & H6) & Htotal & _).
  exists b. split; [exact Hb|].
  repeat (split; [assumption|]).
  destruct (window_above_le W HW0) as [_ HA].
  assert (HWr : 1 <= IZR W) by (apply IZR_le; lia).
  apply le_IZR. rewrite !mult_IZR. lra.
Qed.

(** The numbers the two validations compare, for a window of at least 50
    tokens that converts exactly. *)
Lemma validation_ratios_b64 (W : Z) (mode user_input : str) :
  (50 <= W)%Z -> (W < 2 ^ 53)%Z ->
  exists (b : budgets) (c : float),
    AdaptiveBudget.analyze_complexity (FA := Binary64) user_input mode = Ok c
    /\ bnd (24999 / 1000000) 1 c
    /\ AdaptiveBudget.calculate_adaptive_budgets (FA := Binary64) W mode user_input 0
       = Ok b
    /\ (total_allocated b <= W)%Z
    /\ bnd (IZR W * (1 - delta) - delta) (IZR W * (1 + delta) + delta) (float_of_Z W)
    /\ bnd 0 (88 / 100) (float_of_Z (total_allocated b) / float_of_Z W)%float
    /\ bnd (IZR W * (1001 / 10000)) (IZR W) (float_of_Z (response_generation b))
    /\ bnd (IZR W * (3001 / 10000)) (IZR W) (float_of_Z (conversation_memory b))
    /\ bnd (1001 / 10000) 1 (float_of_Z (response_generation b) / float_of_Z W)%float
    /\ bnd (3001 / 10000) 1 (float_of_Z (conversation_memory b) / float_of_Z W)%float
    /\ bnd (201 / 10000) 1 (float_of_Z (safety_margin b) / float_of_Z W)%float
    /\ (AdaptiveBudget.interaction_mode_of mode = AdaptiveBudget.TOOLS ->
        69 / 100 <= val c ->
        bnd (2001 / 10000) 1
            (float_of_Z (response_generation b) / float_of_Z W)%float).
Proof.
  intros HW50 HW53.
  assert (HW : (0 < W < 2 ^ 1022)%Z).
  { split; [lia|]. apply Z.lt_trans with (2 ^ 53)%Z; [exact HW53|reflexivity]. }
  destruct (allocation_b64 W mode user_input HW)
    as (b & c & Hc & C & Hb & (H1 & H2 & H3 & H4 & H5 & H6) & Htotal
        & Lrg & Lcm & Lsm & Ltools).
  exists b, c. split; [exact Hc|]. split; [exact C|]. split; [exact Hb|].
  destruct (window_above_le W ltac:(lia)) as [HA0 HA1].
  pose proof (window_below_ge W ltac:(lia)) as HB.
  assert (HWr : 50 <= IZR W) by (apply IZR_le; exact HW50).
  assert (Hd : 0 < delta < / 1000000000000) by (unfold delta; lra).
  set (A := window_above W) in *. set (B := window_below W) in *.
  set (w := IZR W) in *.
  assert (Htot : (total_allocated b <= W)%Z).
  { apply le_IZR. fold w. lra. }
  assert (Hparts : (response_generation b <= total_allocated b
                    /\ conversation_memory b <= total_allocated b
                    /\ safety_margin b <= total_allocated b
                    /\ 0 <= total_allocated b)%Z).
  { unfold total_allocated. lia. }
  destruct Hparts as (Prg & Pcm & Psm & Ptot).
  assert (Small : forall n : Z, (0 <= n <= total_allocated b)%Z ->
            bnd (IZR n * (1 - delta) - delta) (IZR n * (1 + delta) + delta)
                (float_of_Z n) /\ 0 <= IZR n <= w * (8771 / 10000)).
  { intros n [Hn0 Hn1]. split.
    - apply of_int_b64. lia.
    - split; [apply IZR_le; exact Hn0|].
      apply Rle_trans with (IZR (total_allocated b)); [apply IZR_le; exact Hn1|lra]. }
  pose proof (of_int_b64 W ltac:(lia)) as FW. fold w in FW.
  destruct (Small _ (conj Ptot (Z.le_refl _))) as [Ftot Vtot].
  destruct (Small _ (conj H4 Prg)) as [Frg Vrg].
  destruct (Small _ (conj H3 Pcm)) as [Fcm Vcm].
  destruct (Small _ (conj H5 Psm)) as [Fsm Vsm].
  (* an upper bound of a quotient by the window *)
  assert (Upper : forall n : Z,
            bnd (IZR n * (1 - delta) - delta) (IZR n * (1 + delta) + delta)
                (float_of_Z n) ->
            0 <= IZR n <= w * (8771 / 10000) ->
            forall lo : R, 0 <= lo -> lo <= 1 / 2 ->
              w * (lo + / 100000) <= IZR n ->
              bnd lo (88 / 100) (float_of_Z n / float_of_Z W)%float
              /\ bnd (w * lo) w (float_of_Z n)).
  { intros n Fn Vn lo Hlo0 Hlo1 Hlo. split.
    - assert (Fn' : bnd (w * (lo + / 200000)) (IZR n * (1 + delta) + delta)
                        (float_of_Z n)).
      { eapply bnd_weaken; [exact Fn|nra|lra]. }
      eapply bnd_weaken;
        [apply (ratio_b64 _ _ _ _ (lo + / 400000) (879 / 1000) _ _ Fn' FW); nra
        |lra|lra].
    - eapply bnd_weaken; [exact Fn|nra|nra]. }
  split; [exact Htot|]. split; [exact FW|].
  split.
  { destruct (Upper _ Ftot Vtot 0 ltac:(lra) ltac:(lra)) as [Hq _].
    - (* the total may be zero only with a zero lower bound *)
      assert (0 <= IZR (total_allocated b) - IZR (response_generation b)).
      { rewrite <- minus_IZR. apply IZR_le. lia. }
      lra.
    - exact Hq. }
  destruct (Upper _ Frg Vrg (1001 / 10000) ltac:(lra) ltac:(lra) ltac:(lra))
    as [Qrg Brg].
  destruct (Upper _ Fcm Vcm (3001 / 10000) ltac:(lra) ltac:(lra) ltac:(lra))
    as [Qcm Bcm].
  destruct (Upper _ Fsm Vsm (201 / 10000) ltac:(lra) ltac:(lra) ltac:(lra))
    as [Qsm _].
  split; [exact Brg|]. split; [exact Bcm|].
  split; [eapply bnd_weaken; [exact Qrg|lra|lra]|].
  split; [eapply bnd_weaken; [exact Qcm|lra|lra]|].
  split; [eapply bnd_weaken; [exact Qsm|lra|lra]|].
  intros Hmode Hc7. specialize (Ltools Hmode).
  assert (B * (2289 / 10000) <= B * ((16 + 10 * val c) / 100 - / 10000000)).
  { apply Rmult_le_compat_l; lra. }
  destruct (Upper _ Frg Vrg (2001 / 10000) ltac:(lra) ltac:(lra) ltac:(lra))
    as [Qrg' _].
  eapply bnd_weaken; [exact Qrg'|lra|lra].
Qed.

(** X18.  For a window of 50 tokens or more (below [2^53]) and no minimum of
    memory, the manager's own validation accepts the manager's allocation:
    it is valid and none of the four warnings is raised. *)
Theorem own_allocation_passes_validation :
  forall (user_input mode : str) (W : Z),
    (50 <= W)%Z ->
    (W < 2 ^ 53)%Z ->
    exists b : budgets,
      AdaptiveBudget.calculate_adaptive_budgets (FA := Binary64) W mode user_input 0
      = Ok b
      /\ AdaptiveBudgetManager.validate_budget_allocation (FA := Binary64) b W
         = Ok {| AdaptiveBudgetManager.is_valid := true;
                 AdaptiveBudgetManager.allocated := total_allocated b;
                 AdaptiveBudgetManager.context_window := W;
                 AdaptiveBudgetManager.remaining_tokens := (W - total_allocated b)%Z;
                 AdaptiveBudgetManager.warnings := [] |}
      /\ (0 <= W - total_allocated b)%Z.
Proof.
  intros user_input mode W HW50 HW53.
  destruct (validation_ratios_b64 W mode user_input HW50 HW53)
    as (b & c & _ & _ & Hb & Htot & FW & Qtot & Brg & Bcm & _).
  exists b. split; [exact Hb|]. split; [|lia].
  assert (HWr : 50 <= IZR W < 9007199254740992).
  { split; [apply IZR_le; exact HW50|apply IZR_lt; exact HW53]. }
  assert (Hd : 0 < delta < / 1000000000000) by (unfold delta; lra).
  set (w := IZR W) in *.
  assert (H100 : bnd 100 100 (float_of_Z 100)) by const_bnd.
  assert (H95 : bnd 95 95 (float_of_Z 95)) by const_bnd.
  assert (H10 : bnd (999 / 10000) (100001 / 1000000) (dec (FA := Binary64) 10 2))
    by const_bnd.
  assert (H30 : bnd (2999 / 10000) (300001 / 1000000) (dec (FA := Binary64) 30 2))
    by const_bnd.
  assert (U : bnd 0 89 (float_of_Z (total_allocated b) / float_of_Z W * float_of_Z 100)%float).
  { eapply bnd_weaken0; [apply (mul_bnd _ _ _ _ _ _ Qtot H100); lra|unfold delta; lra]. }
  assert (T10 : bnd 0 (w * (1001 / 10000)) (float_of_Z W * dec (FA := Binary64) 10 2)%float).
  { eapply bnd_weaken0; [apply (mul_bnd _ _ _ _ _ _ FW H10); nra|nra]. }
  assert (T30 : bnd 0 (w * (3001 / 10000)) (float_of_Z W * dec (FA := Binary64) 30 2)%float).
  { eapply bnd_weaken0; [apply (mul_bnd _ _ _ _ _ _ FW H30); nra|nra]. }
  unfold AdaptiveBudgetManager.validate_budget_allocation,
         AdaptiveBudgetManager.int_div.
  destruct (Z.eqb_spec W 0) as [H0|_]; [lia|]. cbn [bind].
  destruct (Z.ltb_spec W (total_allocated b)) as [H|_]; [lia|].
  destruct (Z.leb_spec (total_allocated b) W) as [_|H]; [|lia].
  float_ops.
  rewrite (ltb_false_of_le (float_of_Z 95) _ (proj1 H95) (proj1 U))
    by (destruct H95 as [_ ?], U as [_ ?]; lra).
  rewrite (ltb_false_of_le (float_of_Z (response_generation b)) _ (proj1 Brg) (proj1 T10))
    by (destruct Brg as [_ ?], T10 as [_ ?]; lra).
  rewrite (ltb_false_of_le (float_of_Z (conversation_memory b)) _ (proj1 Bcm) (proj1 T30))
    by (destruct Bcm as [_ ?], T30 as [_ ?]; lra).
  reflexivity.
Qed.

(** X19.  For the same windows, the safety validator accepts the manager's
    allocation with the complexity of the query: no error, the message that
    the validation passed, and no warning other than the one about a complex
    query with a response share below 20 per cent, which tools mode never
    raises. *)
Theorem safety_validator_accepts_own_allocation :
  forall (user_input mode : str) (W : Z),
    (50 <= W)%Z ->
    (W < 2 ^ 53)%Z ->
    exists (b : budgets) (c : float),
      AdaptiveBudget.analyze_complexity (FA := Binary64) user_input mode = Ok c
      /\ AdaptiveBudget.calculate_adaptive_budgets (FA := Binary64) W mode user_input 0
         = Ok b
      /\ let r := SafetyValidator.validate_token_budgets (FA := Binary64) b W c in
         SafetyValidator.is_valid r = true
         /\ SafetyValidator.errors r = []
         /\ SafetyValidator.info r = [SafetyValidator.BudgetValidationPassed]
         /\ (SafetyValidator.warnings r = []
             \/ SafetyValidator.warnings r
                = [SafetyValidator.HighComplexityLowResponse])
         /\ (AdaptiveBudget.interaction_mode_of mode = AdaptiveBudget.TOOLS ->
             SafetyValidator.warnings r = []).
Proof.
  intros user_input mode W HW50 HW53.
  destruct (validation_ratios_b64 W mode user_input HW50 HW53)
    as (b & c & Hc & C & Hb & Htot & FW & Qtot & _ & _ & Qrg & Qcm & Qsm & Qtools).
  exists b, c. split; [exact Hc|]. split; [exact Hb|].
  assert (H95 : bnd (94 / 100) (96 / 100) (dec (FA := Binary64) 95 2)) by const_bnd.
  assert (H10 : bnd (999 / 10000) (100001 / 1000000) (dec (FA := Binary64) 10 2))
    by const_bnd.
  assert (H30 : bnd (2999 / 10000) (300001 / 1000000) (dec (FA := Binary64) 30 2))
    by const_bnd.
  assert (H02 : bnd (199 / 10000) (200001 / 10000000) (dec (FA := Binary64) 2 2))
    by const_bnd.
  assert (H20 : bnd (1999 / 10000) (200001 / 1000000) (dec (FA := Binary64) 20 2))
    by const_bnd.
  assert (H07 : bnd (6999 / 10000) (7001 / 10000) (dec (FA := Binary64) 7 1))
    by const_bnd.
  cbv zeta. unfold SafetyValidator.validate_token_budgets.
  destruct (Z.leb_spec W 0) as [H0|_]; [lia|].
  destruct (Z.ltb_spec W (total_allocated b)) as [H|_]; [lia|].
  float_ops.
  rewrite (ltb_false_of_le (dec 95 2) _ (proj1 H95) (proj1 Qtot))
    by (destruct H95 as [_ ?], Qtot as [_ ?]; lra).
  rewrite (ltb_false_of_le _ (dec 10 2) (proj1 Qrg) (proj1 H10))
    by (destruct H10 as [_ ?], Qrg as [_ ?]; lra).
  rewrite (ltb_false_of_le _ (dec 30 2) (proj1 Qcm) (proj1 H30))
    by (destruct H30 as [_ ?], Qcm as [_ ?]; lra).
  rewrite (ltb_false_of_le _ (dec 2 2) (proj1 Qsm) (proj1 H02))
    by (destruct H02 as [_ ?], Qsm as [_ ?]; lra).
  cbn [SafetyValidator.is_valid SafetyValidator.errors SafetyValidator.info
       SafetyValidator.warnings app].
  split; [reflexivity|]. split; [reflexivity|]. split; [reflexivity|].
  split.
  - destruct (_ && _); [right|left]; reflexivity.
  - intros Hmode.
    destruct (dec 7 1 <? c)%float eqn:E7; [|reflexivity].
    apply ltb_fin in E7; [|exact (proj1 H07)|exact (proj1 C)].
    assert (Hc7 : 69 / 100 <= val c) by (destruct H07 as [_ ?]; lra).
    specialize (Qtools Hmode Hc7).
    rewrite (ltb_false_of_le _ (dec 20 2) (proj1 Qtools) (proj1 H20))
      by (destruct H20 as [_ ?], Qtools as [_ ?]; lra).
    reflexivity.
Qed.


Lemma allocation_fits_the_window_witness :
  (0 < 1000)%Z
  /\ (1000 < 2 ^ 1022)%Z
  /\ exists b : budgets,
       AdaptiveBudget.calculate_adaptive_budgets (FA := Binary64) 1000 Scenario.chat
         Scenario.hi 0 = Ok b
       /\ (0 <= system_prompt b)%Z /\ (0 <= tool_definitions b)%Z
       /\ (0 <= conversation_memory b)%Z /\ (0 <= response_generation b)%Z
       /\ (0 <= safety_margin b)%Z /\ (0 <= reserved b)%Z
       /\ (100 * total_allocated b <= 88 * 1000)%Z.
Proof.
  assert (HW0 : (0 < 1000)%Z) by reflexivity.
  assert (HW1 : (1000 < 2 ^ 1022)%Z) by reflexivity.
  split; [exact HW0|]. split; [exact HW1|].
  exact (allocation_fits_the_window Scenario.hi Scenario.chat 1000 HW0 HW1).
Defined.

Lemma own_allocation_passes_validation_witness :
  (50 <= 1000)%Z
  /\ (1000 < 2 ^ 53)%Z
  /\ exists b : budgets,
       AdaptiveBudget.calculate_adaptive_budgets (FA := Binary64) 1000 Scenario.chat
         Scenario.hi 0 = Ok b
       /\ AdaptiveBudgetManager.validate_budget_allocation (FA := Binary64) b 1000
          = Ok {| AdaptiveBudgetManager.is_valid := true;
                  AdaptiveBudgetManager.allocated := total_allocated b;
                  AdaptiveBudgetManager.context_window := 1000;
                  AdaptiveBudgetManager.remaining_tokens :=
                    (1000 - total_allocated b)%Z;
                  AdaptiveBudgetManager.warnings := [] |}
       /\ (0 <= 1000 - total_allocated b)%Z.
Proof.
  assert (HW0 : (50 <= 1000)%Z) by (vm_compute; discriminate).
  assert (HW1 : (1000 < 2 ^ 53)%Z) by reflexivity.
  split; [exact HW0|]. split; [exact HW1|].
  exact (own_allocation_passes_validation Scenario.hi Scenario.chat 1000 HW0 HW1).
Defined.

Lemma safety_validator_accepts_own_allocation_witness :
  (50 <= 1000)%Z
  /\ (1000 < 2 ^ 53)%Z
  /\ exists (b : budgets) (c : float),
       AdaptiveBudget.analyze_complexity (FA := Binary64) Scenario.hi Scenario.tools
       = Ok c
       /\ AdaptiveBudget.calculate_adaptive_budgets (FA := Binary64) 1000
            Scenario.tools Scenario.hi 0 = Ok b
       /\ let r := SafetyValidator.validate_token_budgets (FA := Binary64) b 1000 c in
          SafetyValidator.is_valid r = true
          /\ SafetyValidator.errors r = []
          /\ SafetyValidator.info r = [SafetyValidator.BudgetValidationPassed]
          /\ (SafetyValidator.warnings r = []
              \/ SafetyValidator.warnings r
                 = [SafetyValidator.HighComplexityLowResponse])
          /\ (AdaptiveBudget.interaction_mode_of Scenario.tools = AdaptiveBudget.TOOLS ->
              SafetyValidator.warnings r = []).
Proof.
  assert (HW0 : (50 <= 1000)%Z) by (vm_compute; discriminate).
  assert (HW1 : (1000 < 2 ^ 53)%Z) by reflexivity.
  split; [exact HW0|]. split; [exact HW1|].
  exact (safety_validator_accepts_own_allocation Scenario.hi Scenario.tools 1000
           HW0 HW1).
Defined.

(** * The token counter in binary64 *)

Lemma filter_length_le {A : Type} (p : A -> bool) (l : list A) :
  (length (filter p l) <= length l)%nat.
Proof.
  induction l as [|x l IH]; simpl; [lia|]. destruct (p x); simpl; lia.
Qed.

Lemma filter_length_subset {A : Type} (p q : A -> bool) (l : list A) :
  (forall x, p x = true -> q x = true) ->
  (length (filter p l) <= length (filter q l))%nat.
Proof.
  intros Hpq. induction l as [|x l IH]; simpl; [lia|].
  destruct (p x) eqn:Hp.
  - rewrite (Hpq x Hp). simpl. lia.
  - destruct (q x); simpl; lia.
Qed.

Lemma filter_length_disjoint {A : Type} (p q : A -> bool) (l : list A) :
  (forall x, p x = true -> q x = false) ->
  (length (filter p l) + length (filter q l) <= length l)%nat.
Proof.
  intros Hpq. induction l as [|x l IH]; simpl; [lia|].
  destruct (p x) eqn:Hp.
  - rewrite (Hpq x Hp). simpl. lia.
  - destruct (q x); simpl; lia.
Qed.

(** Emoji are beyond ASCII, and the symbols are ASCII. *)
Lemma emoji_is_not_ascii (c : N) :
  TokenCounter.is_emoji c = true -> (127 <? c)%N = true.
Proof.
  unfold TokenCounter.is_emoji, in_range. intros H.
  rewrite !orb_true_iff, !andb_true_iff, !N.leb_le in H.
  apply N.ltb_lt. lia.
Qed.

Lemma symbol_is_ascii (c : N) :
  TokenCounter.is_symbol c = true -> (127 <? c)%N = false.
Proof.
  unfold TokenCounter.is_symbol. intros H.
  apply existsb_exists in H. destruct H as (x & Hin & Heq).
  apply N.eqb_eq in Heq. subst x. apply N.ltb_ge.
  assert (Hall : Forall (fun x => (x <= 127)%N) TokenCounter.symbol_chars).
  { unfold TokenCounter.symbol_chars.
    repeat (apply Forall_cons; [vm_compute; discriminate|]). apply Forall_nil. }
  rewrite Forall_forall in Hall. apply Hall. exact Hin.
Qed.

(** The words of a text are not longer than the text. *)
Lemma split_from_length (s cur : str) :
  (fold_right (fun word total => len word + total) 0 (split_from cur s)
   <= len cur + len s)%Z.
Proof.
  revert cur. induction s as [|c s IH]; intros cur.
  - destruct cur as [|x cur]; cbn [split_from fold_right]; unfold len;
      rewrite ?length_rev; cbn [length]; lia.
  - cbn [split_from]. destruct (isspace c).
    + destruct cur as [|x cur].
      * specialize (IH []). unfold len in *. cbn [length] in *. lia.
      * cbn [fold_right]. specialize (IH []). unfold len in *.
        rewrite length_rev. cbn [length] in *. lia.
    + specialize (IH (c :: cur)). unfold len in *. cbn [length] in *. lia.
Qed.

Lemma long_word_chars_le (words : list str) :
  (TokenCounter.long_word_chars words
   <= fold_right (fun word total => len word + total) 0 words)%Z.
Proof.
  unfold TokenCounter.long_word_chars.
  assert (H : forall acc,
            (fold_left
               (fun acc word =>
                  if (20 <? len word)%Z then acc + (len word - 20) else acc)%Z
               words acc
             <= acc + fold_right (fun word total => len word + total) 0 words)%Z).
  { induction words as [|w words IH]; intros acc; simpl; [lia|].
    assert (0 <= len w)%Z by (unfold len; lia).
    destruct (Z.ltb_spec 20 (len w)).
    - specialize (IH (acc + (len w - 20))%Z). simpl in IH. lia.
    - specialize (IH acc). simpl in IH. lia. }
  specialize (H 0%Z). lia.
Qed.

(** [max(a, x)] on two doubles. *)
Lemma pymax_cases (a x : float) :
  fin a -> fin x ->
  fin (pymax a x)
  /\ val a <= val (pymax a x) /\ val x <= val (pymax a x)
  /\ (val (pymax a x) = val a \/ val (pymax a x) = val x).
Proof.
  intros Fa Fx. unfold pymax. float_ops.
  destruct (a <? x)%float eqn:E.
  - apply ltb_fin in E; try assumption.
    split; [exact Fx|]. split; [lra|]. split; [lra|]. right. reflexivity.
  - apply ltb_false_fin in E; try assumption.
    split; [exact Fa|]. split; [lra|]. split; [lra|]. left. reflexivity.
Qed.

(** A count of characters as a double. *)
Lemma count_b64 (n : Z) :
  (0 <= n <= 2 ^ 33)%Z ->
  bnd (IZR n - / 1000) (IZR n + / 1000) (float_of_Z n).
Proof.
  intros [Hn0 Hn1].
  assert (Hr : 0 <= IZR n <= 8589934592).
  { split; [apply IZR_le; exact Hn0|]. apply (IZR_le n (2 ^ 33)). exact Hn1. }
  eapply bnd_weaken; [apply of_int_b64; lia| |]; unfold delta; lra.
Qed.

(** Sums, products and quotients of doubles below [10^11]: the rounding
    adds at most a thousandth. *)
Lemma add_near (a b c d : R) (x y : float) :
  bnd a b x -> bnd c d y -> b + d <= 900000000000 ->
  bnd (a + c - / 1000) (b + d + / 1000) (x + y)%float.
Proof.
  intros [Fx Hx] [Fy Hy] Hbig.
  destruct (add_fin x y Fx Fy) as (_ & Hfin & Herr).
  pose proof pow2_1023_large.
  pose proof (fin_nonneg x Fx). pose proof (fin_nonneg y Fy).
  assert (F : fin (x + y)%float) by (apply Hfin; lra).
  split; [exact F|].
  assert (Hsum0 : 0 <= val x + val y) by lra.
  pose proof (round_error_bounds _ _ Hsum0 (Herr F)).
  unfold delta in *. lra.
Qed.

Lemma mul_near (a b c d : R) (x y : float) :
  bnd a b x -> bnd c d y -> 0 <= c -> d <= 2 -> b <= 400000000000 ->
  bnd (a * c - / 1000) (b * d + / 1000) (x * y)%float.
Proof.
  intros [Fx Hx] [Fy Hy] Hc Hd Hbig.
  destruct (mul_fin x y Fx Fy) as (_ & Hfin & Herr).
  pose proof pow2_1023_large.
  pose proof (fin_nonneg x Fx). pose proof (fin_nonneg y Fy).
  assert (Hup : val x * val y <= b * d) by nra.
  assert (Hlow : a * c <= val x * val y).
  { destruct (Rle_lt_dec 0 a); nra. }
  assert (Hbd : b * d <= 800000000000) by nra.
  assert (F : fin (x * y)%float) by (apply Hfin; lra).
  split; [exact F|].
  assert (Hsum0 : 0 <= val x * val y) by nra.
  pose proof (round_error_bounds _ _ Hsum0 (Herr F)).
  unfold delta in *. lra.
Qed.

Lemma div_near (a b k : R) (x y : float) :
  bnd a b x -> bnd k k y -> 1 <= k -> b <= 400000000000 ->
  bnd (a / k - / 1000) (b / k + / 1000) (x / y)%float.
Proof.
  intros [Fx Hx] [Fy Hy] Hk Hbig.
  assert (Hvy : val y = k) by lra.
  destruct (div_fin x y Fx Fy ltac:(lra)) as (_ & Hfin & Herr).
  rewrite Hvy in *.
  pose proof pow2_1023_large.
  pose proof (fin_nonneg x Fx).
  assert (Hik : 0 < / k <= 1).
  { split; [apply Rinv_0_lt_compat; lra|].
    rewrite <- Rinv_1. apply Rinv_le_contravar; lra. }
  unfold Rdiv in *.
  assert (Hq : a * / k <= val x * / k <= b * / k) by (split; nra).
  assert (Hq0 : 0 <= val x * / k) by nra.
  assert (Hqb : val x * / k <= 400000000000) by nra.
  assert (F : fin (x / y)%float) by (apply Hfin; lra).
  split; [exact F|].
  pose proof (round_error_bounds _ _ Hq0 (Herr F)).
  unfold delta in *. lra.
Qed.

(** The value [estimate_tokens] truncates, from the counts of the text. *)
Lemma estimate_value_b64 (n e s d l : Z) :
  (1 <= n < 2 ^ 32)%Z -> (0 <= e <= n)%Z -> (0 <= s <= n)%Z -> (0 <= d <= n)%Z ->
  (0 <= l <= n)%Z ->
  let x := ((pymax (of_int 1) (of_int n / of_int 3)
             + of_int (e * 2) + of_int s * dec 3 1 + of_int d * dec 5 1
             + of_int l / of_int 10) * dec (FA := Binary64) 12 1)%py in
  fin x
  /\ exists B : R,
       1 <= B /\ IZR n / 3 - / 100 <= B /\ (B <= 1 \/ B <= IZR n / 3 + / 100)
       /\ 12 / 10 * (B + 2 * IZR e + 3 / 10 * IZR s + 5 / 10 * IZR d + IZR l / 10)
          - 3 / 100
          <= val x
          <= 12 / 10 * (B + 2 * IZR e + 3 / 10 * IZR s + 5 / 10 * IZR d + IZR l / 10)
             + 3 / 100.
Proof.
  intros Hn He Hs Hd Hl. cbv zeta. float_ops.
  assert (Rn : 1 <= IZR n <= 4294967296).
  { split; [apply (IZR_le 1 n); lia|apply (IZR_le n (2 ^ 32)); lia]. }
  assert (Re : 0 <= IZR e <= IZR n) by (split; apply IZR_le; lia).
  assert (Rs : 0 <= IZR s <= IZR n) by (split; apply IZR_le; lia).
  assert (Rd : 0 <= IZR d <= IZR n) by (split; apply IZR_le; lia).
  assert (Rl : 0 <= IZR l <= IZR n) by (split; apply IZR_le; lia).
  assert (H2 : (2 ^ 32 + 2 ^ 32 = 2 ^ 33)%Z) by reflexivity.
  pose proof (count_b64 n ltac:(lia)) as Fn.
  pose proof (count_b64 (e * 2) ltac:(lia)) as Fe. rewrite mult_IZR in Fe.
  pose proof (count_b64 s ltac:(lia)) as Fs.
  pose proof (count_b64 d ltac:(lia)) as Fd.
  pose proof (count_b64 l ltac:(lia)) as Fl.
  assert (C1 : bnd 1 1 (float_of_Z 1)) by const_bnd.
  assert (C3 : bnd 3 3 (float_of_Z 3)) by const_bnd.
  assert (C10 : bnd 10 10 (float_of_Z 10)) by const_bnd.
  assert (C03 : bnd (3 / 10 - / 10000000000000000) (3 / 10 + / 10000000000000000)
                    (dec (FA := Binary64) 3 1)) by const_bnd.
  assert (C05 : bnd (5 / 10) (5 / 10) (dec (FA := Binary64) 5 1)) by const_bnd.
  assert (C12 : bnd (12 / 10 - / 1000000000000000) (12 / 10 + / 1000000000000000)
                    (dec (FA := Binary64) 12 1)) by const_bnd.
  set (N := IZR n) in *. set (E := IZR e) in *. set (S := IZR s) in *.
  set (D := IZR d) in *. set (L := IZR l) in *.
  pose proof (div_near _ _ _ _ _ Fn C3 ltac:(lra) ltac:(lra)) as Q.
  destruct (pymax_cases _ _ (proj1 C1) (proj1 Q)) as (FB & HB1 & HBq & HBc).
  set (base := pymax (float_of_Z 1) (float_of_Z n / float_of_Z 3)%float) in *.
  set (B := val base) in *.
  assert (HB : 1 <= B /\ N / 3 - / 100 <= B /\ (B <= 1 \/ B <= N / 3 + / 100)
               /\ B <= N).
  { destruct C1 as [_ ?], Q as [_ ?].
    split; [lra|]. split; [lra|]. split; [destruct HBc; [left|right]; lra|].
    destruct HBc; lra. }
  destruct HB as (HBa & HBb & HBd & HBn).
  assert (X0 : bnd B B base) by (split; [exact FB|unfold B; lra]).
  pose proof (add_near _ _ _ _ _ _ X0 Fe ltac:(lra)) as X1.
  pose proof (mul_near _ _ _ _ _ _ Fs C03 ltac:(lra) ltac:(lra) ltac:(lra)) as P3.
  pose proof (add_near _ _ _ _ _ _ X1 P3 ltac:(nra)) as X2.
  pose proof (mul_near _ _ _ _ _ _ Fd C05 ltac:(lra) ltac:(lra) ltac:(lra)) as P5.
  pose proof (add_near _ _ _ _ _ _ X2 P5 ltac:(nra)) as X3.
  pose proof (div_near _ _ _ _ _ Fl C10 ltac:(lra) ltac:(lra)) as P10.
  pose proof (add_near _ _ _ _ _ _ X3 P10 ltac:(nra)) as X4.
  assert (X4' : bnd (B + 2 * E + 3 / 10 * S + 5 / 10 * D + L / 10 - 2 / 100)
                    (B + 2 * E + 3 / 10 * S + 5 / 10 * D + L / 10 + 2 / 100)
                    (base + float_of_Z (e * 2) + float_of_Z s * dec 3 1
                     + float_of_Z d * dec 5 1 + float_of_Z l / float_of_Z 10)%float).
  { eapply bnd_weaken; [exact X4| |]; nra. }
  pose proof (mul_near _ _ _ _ _ _ X4' C12 ltac:(lra) ltac:(lra) ltac:(nra)) as X5.
  split; [exact (proj1 X5)|].
  exists B. split; [exact HBa|]. split; [exact HBb|]. split; [exact HBd|].
  destruct X5 as [_ HX5]. nra.
Qed.

(** X23.  The estimate of the token counter for a non-empty text of fewer
    than [2^32] characters is at least one token, at least [0.4 * len - 1]
    and at most three tokens a character. *)
Theorem token_estimate_is_between :
  forall text : str,
    text <> [] ->
    (len text < 2 ^ 32)%Z ->
    let estimate :=
      TokenCounter.estimate_tokens (FA := Binary64) TokenCounter.default_counter
        text in
    (1 <= estimate)%Z
    /\ (4 * len text - 10 <= 10 * estimate)%Z
    /\ (estimate <= 3 * len text)%Z.
Proof.
  intros text Hne Hlen. cbv zeta.
  assert (Hn1 : (1 <= len text)%Z).
  { destruct text; [contradiction|]. unfold len. simpl length. lia. }
  set (n := len text) in *.
  set (e := TokenCounter.count_chars TokenCounter.is_emoji text).
  set (s := TokenCounter.count_chars TokenCounter.is_symbol text).
  set (u := TokenCounter.count_chars (fun c => (127 <? c)%N) text).
  set (l := Z.max 0 (TokenCounter.long_word_chars (split text))).
  assert (He : (0 <= e <= u)%Z).
  { subst e u. unfold TokenCounter.count_chars.
    pose proof (filter_length_subset TokenCounter.is_emoji (fun c => (127 <? c)%N)
                  text emoji_is_not_ascii). lia. }
  assert (Hsu : (0 <= s /\ s + u <= n)%Z).
  { subst s u n. unfold TokenCounter.count_chars, len.
    pose proof (filter_length_disjoint TokenCounter.is_symbol
                  (fun c => (127 <? c)%N) text symbol_is_ascii). lia. }
  assert (Hl : (0 <= l <= n)%Z).
  { subst l n. pose proof (long_word_chars_le (split text)).
    pose proof (split_from_length text []). unfold split in *.
    change (len []) with 0%Z in *. lia. }
  destruct (estimate_value_b64 n e s (u - e) l ltac:(lia) ltac:(lia) ltac:(lia)
              ltac:(lia) Hl) as (Fx & B & HB1 & HB2 & HB3 & Hx).
  assert (Hest :
    TokenCounter.estimate_tokens (FA := Binary64) TokenCounter.default_counter text
    = Z.max 1 (float_trunc
                 ((pymax (of_int 1) (of_int n / of_int 3)
                   + of_int (e * 2) + of_int s * dec 3 1 + of_int (u - e) * dec 5 1
                   + of_int l / of_int 10) * dec (FA := Binary64) 12 1)%py)).
  { unfold TokenCounter.estimate_tokens. destruct text; [contradiction|]. reflexivity. }
  rewrite Hest. clear Hest.
  rewrite (float_trunc_fin _ Fx).
  set (x := val _) in *.
  pose proof (Zfloor_bound x) as [Hf1 Hf2].
  set (t := Zfloor x) in *.
  assert (RN : 1 <= IZR n) by (apply (IZR_le 1 n); lia).
  assert (Rsum : 0 <= IZR e /\ 0 <= IZR s /\ 0 <= IZR (u - e) /\ 0 <= IZR l
                 /\ IZR e + IZR s + IZR (u - e) <= IZR n /\ IZR l <= IZR n).
  { repeat split; try (apply (IZR_le 0); lia); try (apply IZR_le; lia).
    rewrite <- !plus_IZR. apply IZR_le. lia. }
  destruct Rsum as (R1 & R2 & R3 & R4 & R5 & R6).
  assert (Hlow : (4 * n - 10 <= 10 * t)%Z).
  { assert (H : IZR (4 * n - 11) < IZR (10 * t)).
    { rewrite minus_IZR, !mult_IZR. nra. }
    apply lt_IZR in H. lia. }
  assert (Hup : (t <= 3 * n)%Z).
  { assert (H : IZR t < IZR (3 * n + 1)).
    { rewrite plus_IZR, mult_IZR. destruct HB3; nra. }
    apply lt_IZR in H. lia. }
  lia.
Qed.

(** X24.  The estimate of [memai.py] for a non-empty text of fewer than
    [2^32] characters is a third of its length, to within one token: it is
    at least one, three times the estimate is at least [len - 3], and it is
    at most [len] (at most 3 for a text of one or two characters). *)
Theorem memai_estimate_is_a_third :
  forall text : str,
    text <> [] ->
    (len text < 2 ^ 32)%Z ->
    let estimate := Memai.estimate_tokens (FA := Binary64) text in
    (1 <= estimate)%Z
    /\ (len text - 3 <= 3 * estimate)%Z
    /\ (3 * estimate <= Z.max 3 (len text))%Z.
Proof.
  intros text Hne Hlen. cbv zeta.
  assert (Hn1 : (1 <= len text)%Z).
  { destruct text; [contradiction|]. unfold len. simpl length. lia. }
  assert (Hest : Memai.estimate_tokens (FA := Binary64) text
                 = Z.max 1 (float_trunc (float_of_Z (len text) / float_of_Z 3)%float)).
  { unfold Memai.estimate_tokens. destruct text; [contradiction|]. reflexivity. }
  rewrite Hest. clear Hest.
  set (n := len text) in *.
  assert (Rn : 1 <= IZR n <= 4294967296).
  { split; [apply (IZR_le 1 n); lia|apply (IZR_le n (2 ^ 32)); lia]. }
  assert (H2 : (2 ^ 32 <= 2 ^ 33)%Z) by (vm_compute; discriminate).
  pose proof (count_b64 n ltac:(lia)) as Fn.
  assert (C3 : bnd 3 3 (float_of_Z 3)) by const_bnd.
  pose proof (div_near _ _ _ _ _ Fn C3 ltac:(lra) ltac:(lra)) as [Fq Hq].
  rewrite (float_trunc_fin _ Fq).
  set (x := val _) in *.
  pose proof (Zfloor_bound x) as [Hf1 Hf2].
  set (t := Zfloor x) in *.
  assert (Hlow : (n - 3 <= 3 * t)%Z).
  { assert (H : IZR (n - 4) < IZR (3 * t)).
    { rewrite minus_IZR, mult_IZR. lra. }
    apply lt_IZR in H. lia. }
  assert (Hup : (3 * t <= n)%Z).
  { assert (H : IZR (3 * t) < IZR (n + 1)).
    { rewrite plus_IZR, mult_IZR. lra. }
    apply lt_IZR in H. lia. }
  lia.
Qed.

Lemma token_estimate_is_between_witness :
  Scenario.a300 <> []
  /\ (len Scenario.a300 < 2 ^ 32)%Z
  /\ (1 <= TokenCounter.estimate_tokens (FA := Binary64) TokenCounter.default_counter
            Scenario.a300)%Z
  /\ (4 * len Scenario.a300 - 10
      <= 10 * TokenCounter.estimate_tokens (FA := Binary64)
                TokenCounter.default_counter Scenario.a300)%Z
  /\ (TokenCounter.estimate_tokens (FA := Binary64) TokenCounter.default_counter
        Scenario.a300
      <= 3 * len Scenario.a300)%Z.
Proof.
  assert (Hne : Scenario.a300 <> []) by (vm_compute; discriminate).
  assert (Hlen : (len Scenario.a300 < 2 ^ 32)%Z) by reflexivity.
  split; [exact Hne|]. split; [exact Hlen|].
  exact (token_estimate_is_between Scenario.a300 Hne Hlen).
Defined.

Lemma memai_estimate_is_a_third_witness :
  Scenario.a300 <> []
  /\ (len Scenario.a300 < 2 ^ 32)%Z
  /\ (1 <= Memai.estimate_tokens (FA := Binary64) Scenario.a300)%Z
  /\ (len Scenario.a300 - 3 <= 3 * Memai.estimate_tokens (FA := Binary64) Scenario.a300)%Z
  /\ (3 * Memai.estimate_tokens (FA := Binary64) Scenario.a300
      <= Z.max 3 (len Scenario.a300))%Z.
Proof.
  assert (Hne : Scenario.a300 <> []) by (vm_compute; discriminate).
  assert (Hlen : (len Scenario.a300 < 2 ^ 32)%Z) by reflexivity.
  split; [exact Hne|]. split; [exact Hlen|].
  exact (memai_estimate_is_a_third Scenario.a300 Hne Hlen).
Defined.

End Binary64Arithmetic.

(** ** The program on concrete inputs (binary64) *)

(** The value of [dec] is the double Python reads from the literal. *)
Example dec_is_the_literal :
  dec (FA := Binary64) 1 1 = 0x1.999999999999ap-4%float
  /\ dec (FA := Binary64) 12 1 = 0x1.3333333333333p+0%float.
Proof. vm_compute. split; reflexivity. Qed.

(** C6, as stated, fails: the 300 letters form one word of more than 20
    characters, and the estimate is not 120. *)
Lemma estimate_of_300_letters_is_not_120 :
  ~ (TokenCounter.estimate_tokens (FA := Binary64) TokenCounter.default_counter [] = 0%Z
     /\ TokenCounter.estimate_tokens (FA := Binary64) TokenCounter.default_counter
          Scenario.a300 = 120%Z).
Proof.
  intros [_ H]. vm_compute in H. discriminate H.
Qed.

(** C6, as the code has it.  With the default ratio 3.0 and multiplier 1.2,
    the estimate of the empty string is 0 and the estimate of 300 letters "a"
    is 153: the text is one word of 300 characters, so the long-word penalty
    [(300 - 20) / 10 = 28] is added to the base of 100 before the margin,
    [int(128 * 1.2) = 153]. *)
Theorem estimate_of_300_letters :
  TokenCounter.estimate_tokens (FA := Binary64) TokenCounter.default_counter [] = 0%Z
  /\ TokenCounter.estimate_tokens (FA := Binary64) TokenCounter.default_counter
       Scenario.a300 = 153%Z
  /\ TokenCounter.long_word_chars (split Scenario.a300) = 280%Z.
Proof. vm_compute. repeat split; reflexivity. Qed.

(** C3, as stated, fails: the score of 100 repetitions is not below three
    times the score of 2 repetitions. *)
Lemma keyword_score_100_not_below_3_times_2 :
  exists s100 s2 : float,
    AdaptiveBudget._calculate_keyword_complexity (FA := Binary64)
      (Scenario.optimize_times 100) (len (Scenario.optimize_times 100)) = Ok s100
    /\ AdaptiveBudget._calculate_keyword_complexity (FA := Binary64)
         (Scenario.optimize_times 2) (len (Scenario.optimize_times 2)) = Ok s2
    /\ (s100 <? of_int 3 * s2)%py = false.
Proof.
  do 2 eexists. split; [vm_compute; reflexivity|].
  split; [vm_compute; reflexivity|].
  vm_compute. reflexivity.
Qed.

(** C3, as the code has it.  For the keyword "optimize" repeated 100 times
    the keyword score is the cap 1.0; for 2 repetitions it is
    [2.5 * sqrt(2) * 0.5 / 10] (both texts are denser than 0.3 keywords per
    10 characters, so both sums are halved).  The score of 100 repetitions is
    above 5 times and below 6 times the score of 2 repetitions. *)
Theorem keyword_score_100_below_6_times_2 :
  exists s100 s2 : float,
    AdaptiveBudget._calculate_keyword_complexity (FA := Binary64)
      (Scenario.optimize_times 100) (len (Scenario.optimize_times 100)) = Ok s100
    /\ AdaptiveBudget._calculate_keyword_complexity (FA := Binary64)
         (Scenario.optimize_times 2) (len (Scenario.optimize_times 2)) = Ok s2
    /\ s100 = of_int 1
    /\ s2 = (dec 25 1 * fsqrt (of_int 2) * dec 5 1 / dec 100 1)%py
    /\ (of_int 5 * s2 <? s100)%py = true
    /\ (s100 <? of_int 6 * s2)%py = true.
Proof.
  do 2 eexists. split; [vm_compute; reflexivity|].
  split; [vm_compute; reflexivity|].
  vm_compute. repeat split; reflexivity.
Qed.

(** C2, as stated, fails: for the query "hi" in chat mode the complexity is
    0.025, the memory percentage the code computes is 49.9925, and
    [memory_max - complexity * (memory_max - memory_min)] is 49.7; on a
    window of 32768 tokens the bucket is 16381 tokens, not the 16285 of the
    linear rule. *)
Lemma memory_percentage_is_not_linear :
  exists (c : float) (p : buckets float) (b : budgets),
    AdaptiveBudget.analyze_complexity (FA := Binary64) Scenario.hi Scenario.chat = Ok c
    /\ AdaptiveBudget.adaptive_percentages (FA := Binary64) AdaptiveBudget.CHAT c = Ok p
    /\ (conversation_memory p
        =? AdaptiveBudget.memory_max (AdaptiveBudget.adaptive_ranges AdaptiveBudget.CHAT)
           - c * (AdaptiveBudget.memory_max (AdaptiveBudget.adaptive_ranges AdaptiveBudget.CHAT) - AdaptiveBudget.memory_min (AdaptiveBudget.adaptive_ranges AdaptiveBudget.CHAT)))%py = false
    /\ (AdaptiveBudget.memory_max (AdaptiveBudget.adaptive_ranges AdaptiveBudget.CHAT)
        - c * (AdaptiveBudget.memory_max (AdaptiveBudget.adaptive_ranges AdaptiveBudget.CHAT) - AdaptiveBudget.memory_min (AdaptiveBudget.adaptive_ranges AdaptiveBudget.CHAT))
        <? conversation_memory p)%py = true
    /\ AdaptiveBudget.calculate_adaptive_budgets (FA := Binary64)
         32768 Scenario.chat Scenario.hi 0 = Ok b
    /\ conversation_memory b = 16381%Z
    /\ AdaptiveBudget.to_tokens (FA := Binary64) 32768
         (AdaptiveBudget.memory_max (AdaptiveBudget.adaptive_ranges AdaptiveBudget.CHAT)
          - c * (AdaptiveBudget.memory_max (AdaptiveBudget.adaptive_ranges AdaptiveBudget.CHAT) - AdaptiveBudget.memory_min (AdaptiveBudget.adaptive_ranges AdaptiveBudget.CHAT)))%py
       = Ok 16285%Z.
Proof.
  do 3 eexists. split; [vm_compute; reflexivity|].
  split; [vm_compute; reflexivity|].
  split; [vm_compute; reflexivity|].
  split; [vm_compute; reflexivity|].
  split; [vm_compute; reflexivity|].
  vm_compute. split; reflexivity.
Qed.

(** The reclaim on a window of 32768 tokens in chat mode, query "hi", with a
    minimum of 20000 tokens: [reserved] goes from 131 to 655 and the total of
    the buckets from 22360 to 25765. *)
Example reclaim_on_32768 :
  exists b0 b : budgets,
    AdaptiveBudget.initial_budgets (FA := Binary64) 32768 Scenario.chat Scenario.hi = Ok b0
    /\ AdaptiveBudget.calculate_adaptive_budgets (FA := Binary64)
         32768 Scenario.chat Scenario.hi 20000 = Ok b
    /\ reserved b0 = 131%Z /\ reserved b = 655%Z
    /\ total_allocated b0 = 22360%Z /\ total_allocated b = 25765%Z.
Proof.
  do 2 eexists. split; [vm_compute; reflexivity|].
  split; [vm_compute; reflexivity|].
  vm_compute. repeat split; reflexivity.
Qed.
